(** * Atlas geospatial API: a shallow embedding and its checked properties

    The development follows the Python sources of the backend
    ([src/backend/src/...]).  Python dictionaries are stdpp finite maps,
    lists are lists, [Optional] is [option], a [try/except] is a sum type
    whose left injection is the raised exception.  Python floats are
    idealised as rationals ([Q]); calls into external libraries (Shapely,
    pyproj, pandas, the remote connectors) are section variables, so every
    statement holds for any behaviour of those libraries. *)

From Stdlib Require Import QArith Qminmax Qround ZArith Ascii Lia Lqa.
From stdpp Require Import base option list gmap strings pretty fin_maps fin_sets sorting.


(** ** Shared schema enumerations ([api/schemas_v2.py], [api/api_schemas.py]) *)

Module Schemas.

Inductive DataSourceType :=
| MICROSOFT_BUILDINGS | GOOGLE_BUILDINGS | OSM_BUILDINGS | OSM_ROADS
| OSM_RAILWAYS | OSM_LANDMARKS | OSM_NATURAL.

#[global] Instance DataSourceType_eq_dec : EqDecision DataSourceType.
Proof. solve_decision. Defined.

Definition DataSourceType_code (s : DataSourceType) : nat :=
  match s with
  | MICROSOFT_BUILDINGS => 0 | GOOGLE_BUILDINGS => 1 | OSM_BUILDINGS => 2
  | OSM_ROADS => 3 | OSM_RAILWAYS => 4 | OSM_LANDMARKS => 5 | OSM_NATURAL => 6
  end.

Definition DataSourceType_of_code (n : nat) : DataSourceType :=
  match n with
  | 0 => MICROSOFT_BUILDINGS | 1 => GOOGLE_BUILDINGS | 2 => OSM_BUILDINGS
  | 3 => OSM_ROADS | 4 => OSM_RAILWAYS | 5 => OSM_LANDMARKS | _ => OSM_NATURAL
  end.

#[global] Instance DataSourceType_countable : Countable DataSourceType.
Proof.
  refine (inj_countable' DataSourceType_code DataSourceType_of_code _).
  by intros [].
Defined.

(** [PENDING] exists in the legacy schema only. *)
Inductive ProcessingStatus := PENDING | PROCESSING | COMPLETED | FAILED | PARTIAL.

#[global] Instance ProcessingStatus_eq_dec : EqDecision ProcessingStatus.
Proof. solve_decision. Defined.

(** The legacy schema declares six formats, the current one only the first
    four. *)
Inductive ExportFormat := GEOJSON | KML | KMZ | CSV | DWG | SHAPEFILE.

#[global] Instance ExportFormat_eq_dec : EqDecision ExportFormat.
Proof. solve_decision. Defined.

(** What a route hands back to the HTTP layer: a body, or the status code of
    the [HTTPException] it raised. *)
Inductive http_result (A : Type) :=
| HTTP_ok (body : A)
| HTTP_error (status_code : Z).
Arguments HTTP_ok {A} body.
Arguments HTTP_error {A} status_code.

End Schemas.

(** ** Fan-out over the enabled sources
    ([core/services/processing_service.py], [api/routes/extract_v2.py],
    [core/processors/feature_aggregator.py]) *)

Module Processing.
Import Schemas.

Record FeatureStats := { count : nat; processing_time : Q }.

Record DataSourceResult (Feature : Type) := {
  source : DataSourceType;
  status : ProcessingStatus;
  stats : FeatureStats;
  data : list Feature;          (* the FeatureCollection's [features] *)
  error : option string
}.
Arguments source {Feature} _.
Arguments status {Feature} _.
Arguments stats {Feature} _.
Arguments data {Feature} _.
Arguments error {Feature} _.

(** [DataSourceSelection] of the request and the per-source dict
    [{'enabled': ..., 'timeout': ...}] built from it. *)
Record DataSourceSelection := { enabled : bool; timeout : option Z }.
Record SourceConfig := { cfg_enabled : bool; cfg_timeout : Z }.

Inductive AtlasError := ValidationError | ProcessingError | OtherError.

Record RawDataResponse (Feature : Type) := {
  resp_status : ProcessingStatus;
  results : gmap DataSourceType (DataSourceResult Feature);
  total_features : nat;
  successful_sources : nat;
  export_data : option string
}.
Arguments resp_status {Feature} _.
Arguments results {Feature} _.
Arguments total_features {Feature} _.
Arguments successful_sources {Feature} _.
Arguments export_data {Feature} _.

Section Service.
Context {Feature Polygon : Type}.

(** [factory.create_connector(source_type, config)] followed by
    [connector.extract_raw_features(aoi, timeout)]: the features, or the text
    of the exception either step raised. *)
Variable extract_raw_features :
  DataSourceType → SourceConfig → Polygon → Z → string + list Feature.
(** Wall-clock seconds measured around one source. *)
Variable elapsed : DataSourceType → Q.

Definition _create_error_result (source_type : DataSourceType)
    (error_message : string) (processing_time : Q) : DataSourceResult Feature :=
  {| source := source_type; status := FAILED;
     stats := {| count := 0; processing_time := processing_time |};
     data := []; error := Some error_message |}.

Definition _process_single_source (source_type : DataSourceType) (aoi : Polygon)
    (config : SourceConfig) : DataSourceResult Feature :=
  match extract_raw_features source_type config aoi (cfg_timeout config) with
  | inr features =>
      {| source := source_type; status := COMPLETED;
         stats := {| count := length features;
                     processing_time := elapsed source_type |};
         data := features; error := None |}
  | inl e => _create_error_result source_type e (elapsed source_type)
  end.

(** The loop after [asyncio.gather] with [return_exceptions=True]: [task]
    gives each source's outcome, [inl] being an exception object. *)
Definition gather_results
    (task : DataSourceType → SourceConfig → string + DataSourceResult Feature)
    (source_configs : gmap DataSourceType SourceConfig)
    : gmap DataSourceType (DataSourceResult Feature) :=
  map_fold (λ source_type config results,
      match task source_type config with
      | inl e => <[source_type := _create_error_result source_type e 0%Q]> results
      | inr result => <[source_type := result]> results
      end) ∅ source_configs.

Definition _process_sources_concurrently (aoi : Polygon)
    (source_configs : gmap DataSourceType SourceConfig) :=
  gather_results (λ source_type config,
      inr (_process_single_source source_type aoi config)) source_configs.

Variable _validate_aoi : Polygon → bool.

Definition process_extraction_request (aoi : Polygon)
    (source_selections : gmap DataSourceType SourceConfig)
    : AtlasError + gmap DataSourceType (DataSourceResult Feature) :=
  if negb (_validate_aoi aoi) then inl ValidationError else
  let enabled_sources :=
    filter (λ p, cfg_enabled p.2 = true) source_selections in
  if decide (enabled_sources = ∅) then inl ValidationError
  else inr (_process_sources_concurrently aoi enabled_sources).

(** *** The current-generation route [extract_raw_data] *)

Context {AOI CleaningConfig : Type}.

Record RawDataRequest := {
  aoi_boundary : AOI;
  sources : gmap DataSourceType DataSourceSelection;
  clean : bool;
  cleaning_config : option CleaningConfig;
  clean_roads : bool;
  export_format : option ExportFormat
}.

(** Raises [ValidationError] ([None]) when the conversion fails. *)
Variable geojson_to_shapely_polygon : AOI → option Polygon.
(** [BuildingsCleaner.clean] and [RoadsCleaner.clean_osm_roads]; both catch
    their own exceptions and then return their input. *)
Variable BuildingsCleaner_clean :
  option CleaningConfig → DataSourceType → list Feature → Polygon → list Feature.
Variable clean_osm_roads : list Feature → Polygon → list Feature.
(** Truth value of the pydantic object [result.data]. *)
Variable fc_truthy : list Feature → bool.
(** [None] when the export raises. *)
Variable _export_data_immediately :
  RawDataResponse Feature → ExportFormat → option string.

(** [selection.timeout or 30] *)
Definition timeout_or_30 (selection : DataSourceSelection) : Z :=
  match timeout selection with
  | Some t => if decide (t = 0%Z) then 30%Z else t
  | None => 30%Z
  end.

(** [result.data = cleaned_fc; result.stats.count = len(cleaned_fc.features)] *)
Definition set_data (result : DataSourceResult Feature) (cleaned_fc : list Feature)
    : DataSourceResult Feature :=
  {| source := source result; status := status result;
     stats := {| count := length cleaned_fc;
                 processing_time := processing_time (stats result) |};
     data := cleaned_fc; error := error result |}.

Definition is_building_source (source_type : DataSourceType) : bool :=
  bool_decide (source_type ∈ [GOOGLE_BUILDINGS; MICROSOFT_BUILDINGS; OSM_BUILDINGS]).

Definition clean_buildings_step (cfg : option CleaningConfig) (aoi_polygon : Polygon)
    (results : gmap DataSourceType (DataSourceResult Feature)) :=
  map_imap (λ source_type result,
    Some (if fc_truthy (data result) && is_building_source source_type
          then set_data result
                 (BuildingsCleaner_clean cfg source_type (data result) aoi_polygon)
          else result)) results.

Definition clean_roads_step (aoi_polygon : Polygon)
    (results : gmap DataSourceType (DataSourceResult Feature)) :=
  map_imap (λ source_type result,
    Some (if bool_decide (source_type = OSM_ROADS) && fc_truthy (data result)
          then set_data result (clean_osm_roads (data result) aoi_polygon)
          else result)) results.

(** [sum(1 for result in results.values() if result.status == COMPLETED)] *)
Definition count_completed (results : gmap DataSourceType (DataSourceResult Feature))
    : nat :=
  sum_list_with (λ p, if decide (status p.2 = COMPLETED) then 1 else 0)
    (map_to_list results).

(** [sum(result.stats.count for result in results.values())] *)
Definition sum_counts (results : gmap DataSourceType (DataSourceResult Feature))
    : nat :=
  sum_list_with (λ p, count (stats p.2)) (map_to_list results).

Definition overall_status (results : gmap DataSourceType (DataSourceResult Feature))
    : ProcessingStatus :=
  let successful_sources := count_completed results in
  if decide (successful_sources = 0) then FAILED
  else if decide (successful_sources = size results) then COMPLETED
  else PARTIAL.

Definition extract_raw_data (request : RawDataRequest)
    : http_result (RawDataResponse Feature) :=
  match geojson_to_shapely_polygon (aoi_boundary request) with
  | None => HTTP_error 400
  | Some aoi_polygon =>
    let source_configs :=
      (λ selection, {| cfg_enabled := true; cfg_timeout := timeout_or_30 selection |})
        <$> filter (λ p, enabled p.2 = true) (sources request) in
    match process_extraction_request aoi_polygon source_configs with
    | inl ValidationError => HTTP_error 400
    | inl _ => HTTP_error 500
    | inr results =>
      let results :=
        if clean request
        then clean_buildings_step (cleaning_config request) aoi_polygon results
        else results in
      let results :=
        if clean_roads request then clean_roads_step aoi_polygon results
        else results in
      let response :=
        {| resp_status := overall_status results; results := results;
           total_features := sum_counts results;
           successful_sources := count_completed results;
           export_data := None |} in
      match export_format request with
      | Some format =>
          match _export_data_immediately response format with
          | Some bytes =>
              HTTP_ok {| resp_status := resp_status response;
                         results := results;
                         total_features := total_features response;
                         successful_sources := successful_sources response;
                         export_data := Some bytes |}
          | None => HTTP_error 500
          end
      | None => HTTP_ok response
      end
    end
  end.

End Service.

(** *** The legacy aggregator [FeatureAggregator.process_request] *)

Section Legacy.
Context {Feature Polygon Connector : Type}.

Record DataSourceConfig := { ds_enabled : bool; ds_priority : Z; ds_timeout : Z }.

(** [None] when the constructor raises; this happens outside any task. *)
Variable _create_connector : DataSourceType → DataSourceConfig → option Connector.
(** A task's outcome: [inl] is an exception that escaped
    [_process_single_source]. *)
Variable task_outcome : DataSourceType → Connector → string + DataSourceResult Feature.

Definition _get_enabled_sources (data_sources : gmap DataSourceType DataSourceConfig)
    : list DataSourceType :=
  (filter (λ p, ds_enabled p.2 = true) (map_to_list data_sources)).*1.

Definition legacy_failed_result (source_type : DataSourceType) (message : string)
    : DataSourceResult Feature :=
  {| source := source_type; status := FAILED;
     stats := {| count := 0; processing_time := 0%Q |};
     data := []; error := Some message |}.

(** [None] when a lookup [source_configs[source_type]] or a connector
    constructor raises. *)
Fixpoint create_tasks (enabled_sources : list DataSourceType)
    (source_configs : gmap DataSourceType DataSourceConfig)
    : option (list (DataSourceType * Connector)) :=
  match enabled_sources with
  | [] => Some []
  | source_type :: rest =>
      config ← source_configs !! source_type;
      connector ← _create_connector source_type config;
      tasks ← create_tasks rest source_configs;
      Some ((source_type, connector) :: tasks)
  end.

(** One round of the loop over [zip(tasks, completed_tasks)]. *)
Definition collect_result (results : gmap DataSourceType (DataSourceResult Feature))
    (t : DataSourceType * Connector) : gmap DataSourceType (DataSourceResult Feature) :=
  match task_outcome t.1 t.2 with
  | inl e => <[t.1 := legacy_failed_result t.1 e]> results
  | inr result => <[t.1 := result]> results
  end.

Definition _process_data_sources (enabled_sources : list DataSourceType)
    (source_configs : gmap DataSourceType DataSourceConfig)
    : option (gmap DataSourceType (DataSourceResult Feature)) :=
  tasks ← create_tasks enabled_sources source_configs;
  Some (foldl collect_result ∅ tasks).

Definition legacy_count_completed
    (results : gmap DataSourceType (DataSourceResult Feature)) : nat :=
  sum_list_with (λ p, if decide (status p.2 = COMPLETED) then 1 else 0)
    (map_to_list results).

Definition legacy_overall_status
    (results : gmap DataSourceType (DataSourceResult Feature)) : ProcessingStatus :=
  let successful_sources := legacy_count_completed results in
  let failed_sources := (size results - successful_sources) in
  if decide (successful_sources = 0) then FAILED
  else if decide (failed_sources = 0) then COMPLETED
  else PARTIAL.

Variable _validate_and_process_aoi : bool.

(** Every exception inside the body becomes a [ProcessingError] ([None]). *)
Definition process_request (data_sources : gmap DataSourceType DataSourceConfig)
    : option (ProcessingStatus * gmap DataSourceType (DataSourceResult Feature)) :=
  if negb _validate_and_process_aoi then None else
  let enabled_sources := _get_enabled_sources data_sources in
  if decide (enabled_sources = []) then None else
  results ← _process_data_sources enabled_sources data_sources;
  Some (legacy_overall_status results, results).

End Legacy.

End Processing.

(** ** The in-memory job store ([core/storage/job_storage.py])

    Instants and durations are integers counting microseconds, as
    [datetime] and [timedelta] do; each [datetime.now()] call is an explicit
    clock reading.  A job id is identified with its key [str(job_id)]. *)

Module JobStorage.

Record JobEntry (D : Type) := {
  entry_data : D;
  expires_at : Z;
  created_at : Z
}.
Arguments entry_data {D} _.
Arguments expires_at {D} _.
Arguments created_at {D} _.

Record InMemoryJobStorage (D : Type) := {
  _storage : gmap string (JobEntry D);
  _cleanup_interval : Z;
  _last_cleanup : Z
}.
Arguments _storage {D} _.
Arguments _cleanup_interval {D} _.
Arguments _last_cleanup {D} _.

(** [timedelta(seconds=n)] *)
Definition timedelta_of_seconds (n : Z) : Z := (n * 1000000)%Z.

(** [td.seconds]: the seconds field of the normalised timedelta, the days
    being dropped. *)
Definition timedelta_seconds (td : Z) : Z := ((td mod 86400000000) / 1000000)%Z.

Section Store.
Context {Response D : Type}.
(** [result.dict()] and the rebuilding of [RawDataResponse] from that dict; [None] when pydantic
    raises. *)
Variable to_dict : Response → option D.
Variable of_dict : D → option Response.

(** [InMemoryJobStorage()], [now] being the clock at construction. *)
Definition __init__ (now : Z) : InMemoryJobStorage D :=
  {| _storage := ∅; _cleanup_interval := 300; _last_cleanup := now |}.

Definition _cleanup_expired (self : InMemoryJobStorage D) (now : Z)
    : InMemoryJobStorage D :=
  if decide (timedelta_seconds (now - _last_cleanup self) < _cleanup_interval self)%Z
  then self
  else
    {| _storage := filter (λ p, ¬ (now > expires_at p.2)%Z) (_storage self);
       _cleanup_interval := _cleanup_interval self;
       _last_cleanup := now |}.

(** The three clock readings are those of [expiry_time], of [created_at] and
    of [_cleanup_expired], in the order the calls are made. *)
Definition store_job_result (self : InMemoryJobStorage D) (job_id : string)
    (result : Response) (ttl_seconds : Z) (now_expiry now_created now_cleanup : Z)
    : InMemoryJobStorage D * bool :=
  let expiry_time := (now_expiry + timedelta_of_seconds ttl_seconds)%Z in
  match to_dict result with
  | None => (self, false)
  | Some d =>
      let self' :=
        {| _storage := <[job_id := {| entry_data := d; expires_at := expiry_time;
                                      created_at := now_created |}]> (_storage self);
           _cleanup_interval := _cleanup_interval self;
           _last_cleanup := _last_cleanup self |} in
      (_cleanup_expired self' now_cleanup, true)
  end.

Definition get_job_result (self : InMemoryJobStorage D) (job_id : string) (now : Z)
    : InMemoryJobStorage D * option Response :=
  match _storage self !! job_id with
  | None => (self, None)
  | Some job_data =>
      if decide (now > expires_at job_data)%Z
      then ({| _storage := delete job_id (_storage self);
               _cleanup_interval := _cleanup_interval self;
               _last_cleanup := _last_cleanup self |}, None)
      else (self, of_dict (entry_data job_data))
  end.

Definition delete_job_result (self : InMemoryJobStorage D) (job_id : string)
    : InMemoryJobStorage D * bool :=
  ({| _storage := delete job_id (_storage self);
      _cleanup_interval := _cleanup_interval self;
      _last_cleanup := _last_cleanup self |}, true).

End Store.

End JobStorage.

(** ** The legacy download route ([api/routes/export.py]) *)

Module ExportRoute.
Import Schemas.

(** The exceptions the route body can raise.  Every one of them is an
    instance of [Exception]; [HTTPException] is not an [ExportError]. *)
Inductive exception :=
| HTTPException (status_code : Z)
| ExportError
| OtherException.

(** [ExportManager._initialize_exporters]: the formats that have an exporter. *)
Definition exporters : list ExportFormat := [GEOJSON; KML; KMZ; CSV].

Definition is_format_supported (export_format : ExportFormat) : bool :=
  bool_decide (export_format ∈ exporters).

Section Route.
Context {Response D FileResponse : Type}.
Variable of_dict : D → option Response.
(** The keys of [response_data.results]. *)
Variable result_sources : Response → list DataSourceType.
(** [export_manager.export_single_format] wrapped into the [FileResponse];
    [None] when it raises [ExportError]. *)
Variable export_single_format :
  string → ExportFormat → Response → option (list DataSourceType) → bool →
  option FileResponse.

(** The body of the [try] block.  [now_init] and [now_get] are the clock at
    the construction of the store and at the lookup. *)
Definition download_export_body (job_id : string) (format : ExportFormat)
    (sources : option (list DataSourceType)) (include_metadata : bool)
    (now_init now_get : Z) : exception + FileResponse :=
  if negb (is_format_supported format) then inl (HTTPException 400) else
  let job_storage := JobStorage.__init__ (D:=D) now_init in
  match (JobStorage.get_job_result of_dict job_storage job_id now_get).2 with
  | None => inl (HTTPException 404)
  | Some response_data =>
      let invalid_sources :=
        match sources with
        | Some (s :: l) =>
            filter (λ s, s ∉ result_sources response_data) (s :: l)
        | _ => []
        end in
      match invalid_sources with
      | _ :: _ => inl (HTTPException 400)
      | [] =>
          match export_single_format job_id format response_data sources
                  include_metadata with
          | Some file => inr file
          | None => inl ExportError
          end
      end
  end.

(** The handlers, in source order: [except ExportError] answers 500 with the
    error's message, [except Exception] answers 500 with a fixed text. *)
Definition download_export (job_id : string) (format : ExportFormat)
    (sources : option (list DataSourceType)) (include_metadata : bool)
    (now_init now_get : Z) : http_result FileResponse :=
  match download_export_body job_id format sources include_metadata
          now_init now_get with
  | inr file => HTTP_ok file
  | inl ExportError => HTTP_error 500
  | inl (HTTPException _) => HTTP_error 500
  | inl OtherException => HTTP_error 500
  end.

End Route.

End ExportRoute.

(** ** Geometry utilities ([utils/geometry.py]) and the Overpass bounding box
    ([core/data_sources/openstreetmap.py]) *)

Module Geometry.
Import Schemas.

(** A position [(lon, lat)]. *)
Definition point : Type := Q * Q.

(** Python's [==] on two positions: numeric equality of the components. *)
Definition point_eqb (p q : point) : bool :=
  Qeq_bool p.1 q.1 && Qeq_bool p.2 q.2.

(** [polygon.bounds] of the polygon with this exterior ring:
    [(minx, miny, maxx, maxy)]; nothing usable for an empty polygon. *)
Definition bounds_step (b : Q * Q * Q * Q) (q : point) : Q * Q * Q * Q :=
  (Qmin b.1.1.1 q.1, Qmin b.1.1.2 q.2, Qmax b.1.2 q.1, Qmax b.2 q.2).

Definition bounds (exterior : list point) : option (Q * Q * Q * Q) :=
  match exterior with
  | [] => None
  | p :: ps => Some (foldl bounds_step (p.1, p.2, p.1, p.2) ps)
  end.

(** The default of the parameter [buffer_km], the float [0.1]. *)
Definition default_buffer_km : Q := 1 # 10.

Definition create_bounding_box (polygon : list point) (buffer_km : Q)
    : option (Q * Q * Q * Q) :=
  match bounds polygon with
  | None => None
  | Some (west, south, east, north) =>
      if Qlt_le_dec 0 buffer_km then
        let buffer_deg := (buffer_km / 111)%Q in
        Some (west - buffer_deg, south - buffer_deg,
              east + buffer_deg, north + buffer_deg)%Q
      else Some (west, south, east, north)
  end.

(** The four numbers of [bbox_str], in the order [south,west,north,east], as
    each of the five [_extract_*] methods builds them: every one calls
    [create_bounding_box(aoi_polygon)] without a buffer argument. *)
Definition overpass_bbox (source_type : DataSourceType) (aoi_polygon : list point)
    : option (Q * Q * Q * Q) :=
  let query_bbox :=
    match create_bounding_box aoi_polygon default_buffer_km with
    | Some bbox => Some (bbox.1.1.2, bbox.1.1.1, bbox.2, bbox.1.2)
    | None => None
    end in
  match source_type with
  | OSM_BUILDINGS => query_bbox
  | OSM_ROADS => query_bbox
  | OSM_RAILWAYS => query_bbox
  | OSM_LANDMARKS => query_bbox
  | OSM_NATURAL => query_bbox
  | MICROSOFT_BUILDINGS | GOOGLE_BUILDINGS => None  (* DataSourceError *)
  end.

(** [int(x)] on a float: the integer part, towards zero. *)
Definition int_of_float (x : Q) : Z :=
  if Qle_bool 0 x then Qfloor x else (- Qfloor (- x))%Z.

(** [_get_utm_crs_from_point] *)
Definition _get_utm_crs_from_point (lon lat : Q) : Z :=
  let zone := (int_of_float ((lon + 180) / 6) + 1)%Z in
  if Qle_bool 0 lat then (32600 + zone)%Z else (32700 + zone)%Z.

(** The errors [validate_aoi_polygon] appends, by kind; the source renders
    them as text. *)
Inductive validation_error :=
| InvalidGeometry
| NotClosed
| TooFewCoordinates
| AreaNotPositive
| AreaExceedsMaximum (area_km2 max_area_km2 : Q)
| InvalidLongitude (lon : Q)
| InvalidLatitude (lat : Q)
| ValidationException.

Section Validation.
(** Shapely: whether [Polygon(coords)] raises, and [polygon.is_valid]. *)
Variable Polygon_raises : list point → bool.
Variable is_valid : list point → bool.
(** pyproj: the area in square metres of the ring projected to its UTM zone,
    [None] when the projection raises; and the haversine fallback. *)
Variable utm_area_m2 : list point → option Q.
Variable _approximate_polygon_area_km2 : list point → Q.

Definition calculate_polygon_area_km2 (polygon : list point) : Q :=
  match utm_area_m2 polygon with
  | Some area_m2 => (area_m2 / 1000000)%Q
  | None => _approximate_polygon_area_km2 polygon
  end.

(** The errors of the loop over the coordinates. *)
Definition coordinate_errors (coords : list point) : list validation_error :=
  flat_map (λ coord : point,
    let lon := coord.1 in
    let lat := coord.2 in
    (if Qle_bool (-180) lon && Qle_bool lon 180 then [] else [InvalidLongitude lon])
    ++ (if Qle_bool (-90) lat && Qle_bool lat 90 then [] else [InvalidLatitude lat]))
    coords.

(** [coordinates] is [aoi.coordinates], the list of rings.  An exception
    anywhere in the body ends in the final handler. *)
Definition validate_aoi_polygon (coordinates : list (list point)) (max_area_km2 : Q)
    : bool * Q * list validation_error :=
  match coordinates with
  | [] => (false, 0%Q, [ValidationException])
  | coords :: _ =>
    if Polygon_raises coords then (false, 0%Q, [ValidationException]) else
    if negb (is_valid coords) then (false, 0%Q, [InvalidGeometry]) else
    match head coords, last coords with
    | Some first, Some final =>
      if negb (point_eqb first final) then (false, 0%Q, [NotClosed]) else
      if decide (length coords < 4) then (false, 0%Q, [TooFewCoordinates]) else
      let area_km2 := calculate_polygon_area_km2 coords in
      if Qle_bool area_km2 0 then (false, area_km2, [AreaNotPositive]) else
      if negb (Qle_bool area_km2 max_area_km2)
      then (false, area_km2, [AreaExceedsMaximum area_km2 max_area_km2]) else
      match coordinate_errors coords with
      | [] => (true, area_km2, [])
      | errors => (false, area_km2, errors)
      end
    | _, _ => (false, 0%Q, [ValidationException])
    end
  end.

End Validation.

End Geometry.

(** ** JSON values and GeoJSON features *)

Module Json.

(** The values a property bag or an upstream payload holds.  A nested dict
    is an association list. *)
#[warnings="-register-all"]
Inductive value :=
| VNone
| VBool (b : bool)
| VInt (n : Z)
| VFloat (x : Q)
| VStr (s : string)
| VList (l : list value)
| VDict (d : list (string * value)).

Inductive geometry :=
| Point (coordinates : Geometry.point)
| LineString (coordinates : list Geometry.point)
| Polygon (coordinates : list (list Geometry.point)).

Definition geometry_type (g : geometry) : string :=
  match g with
  | Point _ => "Point"
  | LineString _ => "LineString"
  | Polygon _ => "Polygon"
  end.

Record Feature := {
  feature_id : option string;
  feature_geometry : option geometry;
  properties : gmap string value
}.

End Json.

(** ** Overpass elements to GeoJSON ([core/data_sources/openstreetmap.py]) *)

Module Overpass.
Import Schemas Json.

(** One element of the Overpass answer.  A field that is [None] is a key the
    dict does not have; in [el_geometry] an entry that is [None] is a node
    without usable [lon] and [lat], on which the list comprehension raises. *)
Record Element := {
  el_type : option string;
  el_id : option Z;
  el_tags : gmap string string;
  el_lat : option Q;
  el_lon : option Q;
  el_geometry : option (list (option Geometry.point));
  el_members : list Z
}.

(** [f"{kind}/{element_id}"] *)
Definition element_ref (kind : string) (element_id : option Z) : string :=
  kind +:+ "/" +:+ match element_id with
                   | Some n => pretty n
                   | None => "None"
                   end.

(** [{"osm_type": kind, "osm_id": element_id, **tags}]: a tag of the same
    name overrides the two seeded keys. *)
Definition seed_properties (kind : string) (element_id : option Z)
    (tags : gmap string string) : gmap string value :=
  (VStr <$> tags) ∪
  <["osm_type" := VStr kind]>
    (<["osm_id" := match element_id with Some n => VInt n | None => VNone end]> ∅).

(** [[[node['lon'], node['lat']] for node in element['geometry']]];
    [None] when a node raises. *)
Definition geometry_coords (nodes : list (option Geometry.point))
    : option (list Geometry.point) :=
  mapM id nodes.

(** [len(coords) >= 4 and coords[0] == coords[-1]] *)
Definition is_closed_ring (coords : list Geometry.point) : bool :=
  bool_decide (4 ≤ length coords) &&
  match head coords, last coords with
  | Some first, Some final => Geometry.point_eqb first final
  | _, _ => false
  end.

Section Convert.
Variable source_type : DataSourceType.
(** [self._apply_meaningful_naming], from [utils/osm_name_extractor.py]. *)
Variable _apply_meaningful_naming : Feature → Feature.

Definition name_if_landmark (feature : Feature) : Feature :=
  if decide (source_type = OSM_LANDMARKS) then _apply_meaningful_naming feature
  else feature.

(** Every path that raises ends in [return None]. *)
Definition _convert_osm_element_to_feature (element : Element) : option Feature :=
  let element_type := el_type element in
  let element_id := el_id element in
  let tags := el_tags element in
  if decide (element_type = Some "node") then
    match el_lat element, el_lon element with
    | Some lat, Some lon =>
        Some (name_if_landmark
          {| feature_id := Some (element_ref "node" element_id);
             feature_geometry := Some (Point (lon, lat));
             properties := seed_properties "node" element_id tags |})
    | _, _ => None
    end
  else if decide (element_type = Some "way" ∧ is_Some (el_geometry element)) then
    match el_geometry element ≫= geometry_coords with
    | None => None
    | Some coords =>
        if decide (length coords < 2) then None else
        let geometry :=
          if is_closed_ring coords then Polygon [coords] else LineString coords in
        Some (name_if_landmark
          {| feature_id := Some (element_ref "way" element_id);
             feature_geometry := Some geometry;
             properties := seed_properties "way" element_id tags |})
    end
  else if decide (element_type = Some "relation") then
    match el_geometry element with
    | Some nodes =>
        match geometry_coords nodes with
        | None => None
        | Some coords =>
            if is_closed_ring coords then
              let feature :=
                {| feature_id := Some (element_ref "relation" element_id);
                   feature_geometry := Some (Polygon [coords]);
                   properties := seed_properties "relation" element_id tags |} in
              None
            else if decide (2 ≤ length coords) then
              let feature :=
                {| feature_id := Some (element_ref "relation" element_id);
                   feature_geometry := Some (LineString coords);
                   properties := seed_properties "relation" element_id tags |} in
              None
            else None
        end
    | None => None
    end
  else None.

(** [_convert_overpass_to_geojson]: the features of the elements that
    convert. *)
Definition _convert_overpass_to_geojson (elements : list Element) : list Feature :=
  omap _convert_osm_element_to_feature elements.

(** The conversion the documentation describes for a relation that carries
    a geometry array: the rule of a way, under the relation's own name. *)
Definition relation_feature_as_documented (element : Element) : option Feature :=
  match el_geometry element ≫= geometry_coords with
  | None => None
  | Some coords =>
      if decide (length coords < 2) then None else
      Some {| feature_id := Some (element_ref "relation" (el_id element));
              feature_geometry :=
                Some (if is_closed_ring coords then Polygon [coords]
                      else LineString coords);
              properties := seed_properties "relation" (el_id element)
                              (el_tags element) |}
  end.

End Convert.

End Overpass.

(** ** Python built-ins used by the property processors *)

Module Py.
Import Json.

(** The ASCII characters [str.strip()] removes. *)
Definition is_space (c : Ascii.ascii) : bool :=
  let n := Ascii.nat_of_ascii c in
  bool_decide (9 ≤ n ≤ 13) || bool_decide (28 ≤ n ≤ 32).

Fixpoint lstrip (s : string) : string :=
  match s with
  | String c s' => if is_space c then lstrip s' else s
  | EmptyString => EmptyString
  end.

Definition strip (s : string) : string :=
  String.rev (lstrip (String.rev (lstrip s))).

Fixpoint string_map (f : Ascii.ascii → Ascii.ascii) (s : string) : string :=
  match s with
  | EmptyString => EmptyString
  | String c s' => String (f c) (string_map f s')
  end.

(** [str.lower()] on ASCII letters. *)
Definition lower_char (c : Ascii.ascii) : Ascii.ascii :=
  let n := Ascii.nat_of_ascii c in
  if bool_decide (65 ≤ n ≤ 90) then Ascii.ascii_of_nat (n + 32) else c.

Definition lower (s : string) : string := string_map lower_char s.

(** [s.split(sep)] for a separator of one character. *)
Fixpoint split (sep : Ascii.ascii) (s : string) : list string :=
  match s with
  | EmptyString => [EmptyString]
  | String c s' =>
      if decide (c = sep) then EmptyString :: split sep s'
      else match split sep s' with
           | part :: parts => String c part :: parts
           | [] => [String c EmptyString]
           end
  end.

(** [s.split(sep, 1)]: the text before the first separator and, when there
    is one, the text after it. *)
Fixpoint split_once (sep : Ascii.ascii) (s : string) : string * option string :=
  match s with
  | EmptyString => (EmptyString, None)
  | String c s' =>
      if decide (c = sep) then (EmptyString, Some s')
      else let '(before, after) := split_once sep s' in (String c before, after)
  end.

(** [round(x, ndigits)] on a rational: to the nearest multiple of
    [10^-ndigits], a tie going to the even one. *)
Definition round (x : Q) (ndigits : nat) : Q :=
  let scale := inject_Z (10 ^ Z.of_nat ndigits) in
  let m := (x * scale)%Q in
  let f := Qfloor m in
  let r := (m - inject_Z f)%Q in
  let n :=
    if Qlt_le_dec r (1 # 2) then f
    else if Qlt_le_dec (1 # 2) r then (f + 1)%Z
    else if Z.even f then f else (f + 1)%Z in
  (inject_Z n / scale)%Q.

(** [float(value)] when [isinstance(value, (int, float))]; [bool] is a
    subclass of [int]. *)
Definition as_number (v : value) : option Q :=
  match v with
  | VInt n => Some (inject_Z n)
  | VFloat x => Some x
  | VBool b => Some (if b then 1 else 0)%Q
  | _ => None
  end.

End Py.

(** ** The building property processor ([utils/building_processor.py]) *)

Module BuildingProcessor.
Import Schemas Json.

Definition building_sources : list DataSourceType :=
  [GOOGLE_BUILDINGS; MICROSOFT_BUILDINGS; OSM_BUILDINGS].

(** A Python set in the source; the keys are distinct, so the order of the
    loop over it does not matter. *)
Definition essential_building_properties : list string :=
  ["confidence"; "full_plus_code"; "longitude_latitude"; "area_in_meters";
   "height"; "levels"; "building_type"].

Definition is_building_source (source_type : DataSourceType) : bool :=
  bool_decide (source_type ∈ building_sources).

Section Processor.
(** Python's [str(value)]. *)
Variable py_str : value → string.

(** [None] is Python's [None]. *)
Definition _clean_property_value (prop_name : string) (v : value) : option value :=
  if decide (prop_name = "confidence") then
    match Py.as_number v with
    | Some conf_val =>
        if Qle_bool 0 conf_val && Qle_bool conf_val 1
        then Some (VFloat (Py.round conf_val 4))
        else None
    | None => None
    end
  else if decide (prop_name = "area_in_meters") then
    match Py.as_number v with
    | Some area_val =>
        if negb (Qle_bool area_val 0) then Some (VFloat (Py.round area_val 2))
        else None
    | None => None
    end
  else if decide (prop_name ∈ ["height"; "levels"]) then
    match Py.as_number v with
    | Some num_val => if negb (Qle_bool num_val 0) then Some (VFloat num_val) else None
    | None => None
    end
  else if decide (prop_name ∈ ["full_plus_code"; "longitude_latitude"; "building_type"])
  then
    match v with
    | VStr s => let cleaned := Py.strip s in
                if decide (cleaned = "") then None else Some (VStr cleaned)
    | VNone => None
    | _ => Some (VStr (Py.strip (py_str v)))
    end
  else
    match v with VNone => None | _ => Some v end.

Definition _process_google_buildings_properties (original clean : gmap string value)
    : gmap string value :=
  match original !! "longitude_latitude" with
  | Some (VDict lon_lat) =>
      match (list_to_map lon_lat : gmap string value) !! "coordinates" with
      | Some (VList (lon :: lat :: _)) =>
          <["longitude_latitude" := VStr (py_str lat +:+ "," +:+ py_str lon)]> clean
      | _ => clean
      end
  | Some (VStr lon_lat) => <["longitude_latitude" := VStr lon_lat]> clean
  | _ => clean
  end.

Definition _process_microsoft_buildings_properties
    (original clean : gmap string value) : gmap string value := clean.

(** [v in ['yes', 'true', '1']]: only a string equals a string. *)
Definition is_plain_building_tag (v : value) : bool :=
  match v with
  | VStr s => bool_decide (s ∈ ["yes"; "true"; "1"])
  | _ => false
  end.

Definition _process_osm_buildings_properties (original clean : gmap string value)
    : gmap string value :=
  match original !! "building" with
  | Some building =>
      if is_plain_building_tag building then clean
      else <["building_type" := VStr (py_str building)]> clean
  | None => clean
  end.

(** One round of the loop over the essential properties. *)
Definition copy_essential (original_properties : gmap string value)
    (clean_properties : gmap string value) (prop_name : string)
    : gmap string value :=
  match original_properties !! prop_name with
  | Some VNone | None => clean_properties
  | Some v =>
      match _clean_property_value prop_name v with
      | Some clean_value => <[prop_name := clean_value]> clean_properties
      | None => clean_properties
      end
  end.

Definition _create_clean_building_properties
    (original_properties : gmap string value) (source_type : DataSourceType)
    : gmap string value :=
  let clean_properties :=
    foldl (copy_essential original_properties) {[ "Name" := VStr "" ]}
      essential_building_properties in
  match source_type with
  | GOOGLE_BUILDINGS =>
      _process_google_buildings_properties original_properties clean_properties
  | MICROSOFT_BUILDINGS =>
      _process_microsoft_buildings_properties original_properties clean_properties
  | OSM_BUILDINGS =>
      _process_osm_buildings_properties original_properties clean_properties
  | _ => clean_properties
  end.

Definition process_building_feature (feature_dict : Feature)
    (source_type : DataSourceType) : Feature :=
  if negb (is_building_source source_type) then feature_dict else
  {| feature_id := feature_id feature_dict;
     feature_geometry := feature_geometry feature_dict;
     properties :=
       _create_clean_building_properties (properties feature_dict) source_type |}.

Definition process_feature_collection (features : list Feature)
    (source_type : DataSourceType) : list Feature :=
  if negb (is_building_source source_type) then features
  else (λ feature, process_building_feature feature source_type) <$> features.

End Processor.

End BuildingProcessor.

(** ** The CSV exporter ([exporters/csv.py], [exporters/base.py])

    The written file is the list of its rows, a row the list of its cells;
    the csv module renders a cell with [str]. *)

Module CsvExport.
Import Schemas Json.

(** The [.value] of the two enumerations. *)
Definition source_value (s : DataSourceType) : string :=
  match s with
  | MICROSOFT_BUILDINGS => "microsoft_buildings"
  | GOOGLE_BUILDINGS => "google_buildings"
  | OSM_BUILDINGS => "osm_buildings"
  | OSM_ROADS => "osm_roads"
  | OSM_RAILWAYS => "osm_railways"
  | OSM_LANDMARKS => "osm_landmarks"
  | OSM_NATURAL => "osm_natural"
  end.

Definition status_value (s : ProcessingStatus) : string :=
  match s with
  | PENDING => "pending" | PROCESSING => "processing" | COMPLETED => "completed"
  | FAILED => "failed" | PARTIAL => "partial"
  end.

(** [key.replace(' ', '_').replace('-', '_')] *)
Definition clean_key (key : string) : string :=
  Py.string_map (λ c, if decide (c = " "%char) then "_"%char
                      else if decide (c = "-"%char) then "_"%char else c) key.

Abbreviation results_map := (gmap DataSourceType (Processing.DataSourceResult Feature)).

(** [BaseExporter.filter_sources] *)
Definition filter_sources (results : results_map)
    (sources : option (list DataSourceType)) : results_map :=
  match sources with
  | None => results
  | Some sources =>
      foldl (λ filtered_results source_type,
          match results !! source_type with
          | Some result => <[source_type := result]> filtered_results
          | None => filtered_results
          end) ∅ sources
  end.

Section CsvExporter.
(** Shapely's WKT rendering, or the [INVALID_GEOMETRY] text. *)
Variable _geometry_to_wkt : geometry → string.

Definition opt_str (o : option string) : value :=
  match o with Some s => VStr s | None => VNone end.

(** One round of the loop over [feature.properties.items()].  When two keys
    clean to the same column the source keeps the later one in dict order;
    the order of a finite map's fold stands in for it. *)
Definition add_property (key : string) (v : value) (feature_data : gmap string value)
    : gmap string value :=
  if decide (Py.lower key = "description") then feature_data
  else <[clean_key key := v]> feature_data.

Definition feature_data (source_type : DataSourceType)
    (result : Processing.DataSourceResult Feature) (feature : Feature)
    : gmap string value :=
  let base : gmap string value :=
    <["atlas_source" := VStr (source_value source_type)]>
    (<["atlas_source_status" := VStr (status_value (Processing.status result))]>
    (<["feature_id" := opt_str (feature_id feature)]>
    (<["geometry_type" := opt_str (geometry_type <$> feature_geometry feature)]>
    (<["geometry_wkt" := opt_str (_geometry_to_wkt <$> feature_geometry feature)]>
     ∅)))) in
  map_fold add_property base (properties feature).

Definition collect_features (filtered_results : results_map)
    : list (gmap string value) :=
  map_to_list filtered_results ≫= λ p,
    feature_data p.1 p.2 <$> Processing.data p.2.

Definition is_atlas_column (col : string) : bool := String.prefix "atlas_" col.

(** The [atlas_] columns come in the iteration order of a Python set, which
    the language leaves open; here it is the order of [elements]. *)
Definition column_order (all_features : list (gmap string value)) : list string :=
  let all_columns : gset string := ⋃ (dom <$> all_features) in
  let atlas_columns :=
    filter (λ col, is_atlas_column col = true) (elements all_columns) in
  let other_columns :=
    merge_sort String.le
      (filter (λ col, ¬ is_atlas_column col = true) (elements all_columns)) in
  atlas_columns ++ other_columns.

(** The rows written to [output_path]. *)
Definition export (results : results_map) (sources : option (list DataSourceType))
    : list (list value) :=
  let filtered_results := filter_sources results sources in
  let all_features := collect_features filtered_results in
  match all_features with
  | [] =>
      [ [VStr "atlas_source"; VStr "atlas_source_status"; VStr "message"];
        [VStr "N/A"; VStr "N/A"; VStr "No features found"] ]
  | _ =>
      let columns := column_order all_features in
      (VStr <$> columns)
      :: ((λ feature, (λ col, default (VStr "") (feature !! col)) <$> columns)
            <$> all_features)
  end.

End CsvExporter.

End CsvExport.

(** ** The buildings cleaner, satellite set B
    ([core/processors/buildings_cleaner.py])

    A GeoDataFrame is the list of its rows; a row carries its index label,
    its non-geometry columns and its geometry.  A column a row has no value
    for holds NaN there, which the row's finite map renders as a missing key.
    Shapely, pyproj and the spatial index are section variables. *)

Module BuildingsCleaner.
Import Schemas Json.

Record BuildingsCleanerConfig := {
  min_area_m2 : Q;
  overlap_threshold : Q;
  edge_buffer_m : Q;
  strategy : string;
  simplify_tolerance_m : option Q;
  make_valid : bool;
  google_min_confidence : Q;
  min_width_m : Q;
  min_compactness : Q;
  max_elongation : Q;
  osm_min_area_m2 : Q
}.

(** The defaults of the dataclass, which are also the defaults the route
    passes. *)
Definition default_config : BuildingsCleanerConfig :=
  {| min_area_m2 := 8; overlap_threshold := 30 # 100; edge_buffer_m := 5 # 10;
     strategy := "highest_confidence"; simplify_tolerance_m := None;
     make_valid := true; google_min_confidence := 65 # 100;
     min_width_m := 2; min_compactness := 8 # 100; max_elongation := 8;
     osm_min_area_m2 := 0 |}.

Record Row (G : Type) := {
  label : nat;
  cols : gmap string value;
  geom : G
}.
Arguments label {G} _.
Arguments cols {G} _.
Arguments geom {G} _.

(** How [_clean_google] ends: an exception (caught by [clean]), the input
    collection itself, or a rebuilt table. *)
Inductive outcome (G : Type) :=
| Raised
| ReturnedInput
| Cleaned (gdf : list (Row G)).
Arguments Raised {G}.
Arguments ReturnedInput {G}.
Arguments Cleaned {G} gdf.

Section Cleaner.
Context {G Polygon : Type}.
Implicit Types gdf : list (Row G).

(** Python's [str(value)] and [float(text)] ([None]: [ValueError]). *)
Variable py_str : value → string.
Variable py_float : string → option Q.
(** Shapely and pyproj. *)
Variable shapely_shape : geometry → option G.
(** [None] when [mapping] or the [Feature] constructor raises. *)
Variable mapping : G → option geometry.
Variable centroid : Polygon → option (Q * Q).
Variable to_crs : Z → G → G.
Variable buffer : G → Q → G.
Variable simplify : G → Q → G.
Variable geom_area : G → Q.
Variable geom_length : G → Q.
Variable pi : Q.
(** The side lengths of [poly.minimum_rotated_rectangle]; whether
    [poly.buffer(-d)] is empty; [None] when Shapely raises. *)
Variable mbr_sides : G → option (list Q).
Variable erodes_to_empty : G → Q → option bool.
(** The positions [tree.query(geom)] yields through [index_by_geom]. *)
Variable tree_query : list G → G → list nat.
(** Whether, eroded by the edge buffer, one geometry is empty or the two no
    longer intersect; the intersection of the two, its emptiness and area. *)
Variable eroded_apart : Q → G → G → bool.
Variable inter_is_empty : G → G → bool.
Variable inter_area : G → G → Q.
Variable unary_union : list G → G.

(** *** Tables *)

(** [name in gdf.columns] *)
Definition has_column (name : string) gdf : bool :=
  bool_decide (Exists (λ r, is_Some (cols r !! name)) gdf).

Definition set_column (name : string) (f : Row G → value) gdf : list (Row G) :=
  (λ r, {| label := label r; cols := <[name := f r]> (cols r); geom := geom r |})
    <$> gdf.

Definition map_geometry (f : G → G) gdf : list (Row G) :=
  (λ r, {| label := label r; cols := cols r; geom := f (geom r) |}) <$> gdf.

(** One cell under [astype(float)]: [None] when the conversion raises,
    [Some None] for NaN. *)
Definition astype_float (cell : option value) : option (option Q) :=
  match cell with
  | None | Some VNone => Some None
  | Some (VInt n) => Some (Some (inject_Z n))
  | Some (VFloat x) => Some (Some x)
  | Some (VBool b) => Some (Some (if b then 1 else 0)%Q)
  | Some (VStr s) => Some <$> py_float s
  | Some (VList _) | Some (VDict _) => None
  end.

(** [gdf[mask]] for a mask computed from one number per row; [None] when
    computing a number raises. *)
Definition select (key : Row G → option Q) (keep : Q → bool) gdf
    : option (list (Row G)) :=
  keyed ← mapM (λ r, x ← key r; Some (r, x)) gdf;
  Some (filter (λ p, keep p.2 = true) keyed).*1.

(** [_feature_collection_to_gdf]: features without geometry are skipped; an
    exception gives the empty table. *)
Definition _feature_collection_to_gdf (features : list Feature) : list (Row G) :=
  let records :=
    mapM (λ f,
        match feature_geometry f with
        | None => Some None
        | Some g => shapely_geom ← shapely_shape g;
                    Some (Some (delete "geometry" (properties f), shapely_geom))
        end) features in
  match records with
  | Some records =>
      imap (λ i record, {| label := i; cols := record.1; geom := record.2 |})
           (omap id records)
  | None => []
  end.

(** *** Confidence and area from the properties *)

(** [float(val)] for one property value. *)
Definition value_to_float (v : value) : option Q :=
  match v with
  | VInt n => Some (inject_Z n)
  | VFloat x => Some x
  | VBool b => Some (if b then 1 else 0)%Q
  | VStr s => py_float s
  | _ => None
  end.

(** The first result of [f] over a list: a loop that returns on its first
    success and continues otherwise. *)
Fixpoint first_success {A B} (f : A → option B) (l : list A) : option B :=
  match l with
  | [] => None
  | x :: l' => match f x with Some y => Some y | None => first_success f l' end
  end.

(** [float(part.split(":", 1)[1].strip())]; [None] when it raises. *)
Definition number_after_colon (part : string) : option Q :=
  match Py.split_once ":" part with
  | (_, Some text) => py_float (Py.strip text)
  | (_, None) => None
  end.

(** [pd.notna(val)] followed by [float(val)], for the value a row holds. *)
Definition direct_number (cell : option value) : option Q :=
  match cell with
  | None | Some VNone => None
  | Some v => value_to_float v
  end.

Definition description_of (r : Row G) : option string :=
  match cols r !! "description" with
  | Some (VStr desc) => Some desc
  | _ => None
  end.

Definition _extract_confidence_from_props (r : Row G) : Q :=
  match direct_number (cols r !! "confidence") with
  | Some x => x
  | None =>
      let parsed :=
        desc ← description_of r;
        first_success (λ part,
            if String.prefix "confidence:" (Py.lower (Py.strip part))
            then number_after_colon part else None)
          (Py.split "010" desc) in
      default 1%Q parsed
  end.

Definition _extract_area_from_props (r : Row G) : option Q :=
  match direct_number (cols r !! "area_in_meters") with
  | Some x => Some x
  | None =>
      desc ← description_of r;
      first_success (λ part,
          let key := Py.lower (Py.strip (Py.split_once ":" part).1) in
          if bool_decide (key ∈ ["area_in_meters"; "area"; "area_m2"])
          then number_after_colon part else None)
        (Py.split "010" desc)
  end.

(** *** Projection *)

(** [_suggest_utm_epsg] *)
Definition _suggest_utm_epsg (aoi_wgs84 : Polygon) : option Z :=
  match centroid aoi_wgs84 with
  | None => None
  | Some (lon, lat) =>
      let zone := (Qfloor ((lon + 180) / 6) + 1)%Z in
      let epsg := if Qle_bool 0 lat then (32600 + zone)%Z else (32700 + zone)%Z in
      if bool_decide (32601 ≤ epsg ≤ 32660)%Z || bool_decide (32701 ≤ epsg ≤ 32760)%Z
      then Some epsg else None
  end.

(** *** Shape metrics *)

Definition _compactness (poly : G) : Q :=
  let p := geom_length poly in
  let a := geom_area poly in
  if Qle_bool p 0 then 0%Q else ((4 * pi * a) / (p * p))%Q.

Definition _elongation (poly : G) : Q :=
  match mbr_sides poly with
  | None | Some [] => 1%Q
  | Some (side :: sides) =>
      let length := foldl Qmax side sides in
      let shortest := foldl Qmin side sides in
      let width := if Qle_bool shortest 0 then (1 # 1000000)%Q else shortest in
      if Qeq_bool length 0 then 1%Q   (* ZeroDivisionError *)
      else Qmax (length / width) (width / length)
  end.

(** The eight rounds of the binary search; [None] when Shapely raises. *)
Fixpoint min_width_search (rounds : nat) (poly : G) (low high : Q) : option Q :=
  match rounds with
  | O => Some low
  | S rounds' =>
      let mid := ((low + high) / 2)%Q in
      if Qeq_bool mid 0 then min_width_search rounds' poly mid high
      else
        match erodes_to_empty poly mid with
        | None => None
        | Some true => min_width_search rounds' poly low mid
        | Some false => min_width_search rounds' poly mid high
        end
  end.

Definition _min_width (poly : G) : Q :=
  match min_width_search 8 poly 0 20 with
  | Some low => (low * 2)%Q
  | None => 0%Q
  end.

(** *** Deduplication of overlaps *)

Definition _is_significant_overlap (g1 g2 : G) (cfg : BuildingsCleanerConfig) : bool :=
  if negb (Qle_bool (edge_buffer_m cfg) 0) && eroded_apart (edge_buffer_m cfg) g1 g2
  then false
  else if inter_is_empty g1 g2 then false
  else if Qle_bool (inter_area g1 g2) 0 then false
  else
    let smaller := Qmin (geom_area g1) (geom_area g2) in
    if Qle_bool smaller 0 then false
    else Qle_bool (overlap_threshold cfg) (inter_area g1 g2 / smaller).

(** The inner loop over the candidates of seed [i]. *)
Definition scan_candidate (geoms : list G) (cfg : BuildingsCleanerConfig) (gi : G)
    (st : gset nat * list nat) (j : nat) : gset nat * list nat :=
  if decide (j ∈ st.1) then st
  else match geoms !! j with
       | Some gj =>
           if _is_significant_overlap gi gj cfg
           then ({[j]} ∪ st.1, st.2 ++ [j]) else st
       | None => st
       end.

(** One round of the outer loop over [enumerate(geoms)]. *)
Definition visit (geoms : list G) (cfg : BuildingsCleanerConfig)
    (st : gset nat * list (list nat)) (seed : nat * G)
    : gset nat * list (list nat) :=
  let '(i, geom) := seed in
  if decide (i ∈ st.1) then st
  else
    let candidates := filter (λ c, c ≠ i) (tree_query geoms geom) in
    let scanned :=
      foldl (scan_candidate geoms cfg geom) ({[i]} ∪ st.1, [i]) candidates in
    (scanned.1,
     if decide (1 < length scanned.2) then st.2 ++ [scanned.2] else st.2).

Definition overlap_groups (geoms : list G) (cfg : BuildingsCleanerConfig)
    : list (list nat) :=
  (foldl (visit geoms cfg) (∅, []) (imap pair geoms)).2.

(** [gdf.iloc[group]]: rows by position. *)
Definition iloc gdf (group : list nat) : list (Row G) :=
  omap (λ position, gdf !! position) group.

(** [series.idxmax()]: the label of the first row that attains the
    maximum. *)
Definition idxmax (keyed : list (Row G * Q)) : option nat :=
  (λ best : Row G * Q, label best.1) <$>
  foldl (λ best p,
      match best with
      | None => Some p
      | Some b => if Qle_bool p.2 b.2 then best else Some p
      end) None keyed.

Definition area_idxmax (sub : list (Row G)) : option nat :=
  idxmax ((λ r, (r, geom_area (geom r))) <$> sub).

(** [sub["confidence"].astype(float).idxmax()], NaN being skipped; [None]
    when it raises. *)
Definition confidence_idxmax (sub : list (Row G)) : option nat :=
  cells ← mapM (λ r, x ← astype_float (cols r !! "confidence"); Some (r, x)) sub;
  idxmax (omap (λ p : Row G * option Q, (λ x, (p.1, x)) <$> p.2) cells).

(** What one group adds to [to_drop] and to [union_rows]; [None] when the
    strategy raises. *)
Definition resolve_group gdf (cfg : BuildingsCleanerConfig) (group : list nat)
    : option (gset nat * list (gmap string value * G)) :=
  let sub := iloc gdf group in
  let positions : gset nat := list_to_set group in
  if decide (strategy cfg = "highest_confidence") then
    keep_idx ←
      (if has_column "confidence" sub
       then match confidence_idxmax sub with
            | Some keep_idx => Some keep_idx
            | None => area_idxmax sub
            end
       else area_idxmax sub);
    Some (positions ∖ {[keep_idx]}, [])
  else if decide (strategy cfg = "union") then
    first ← head sub;
    let rep := cols first in
    let rep :=
      if has_column "confidence" sub
      then match mapM (λ r, astype_float (cols r !! "confidence")) sub with
           | Some (c :: cs) =>
               match omap id (c :: cs) with
               | x :: xs => <["confidence" := VFloat (foldl Qmax x xs)]> rep
               | [] => <["confidence" := VNone]> rep
               end
           | _ => rep
           end
      else rep in
    Some (positions,
          [(<["source" := VStr "union"]> rep, unary_union (geom <$> sub))])
  else
    keep_idx ← area_idxmax sub;
    Some (positions ∖ {[keep_idx]}, []).

(** [gdf.drop(index=to_drop)]: by label; [None] is the [KeyError] for a label
    the table does not have. *)
Definition drop_labels gdf (to_drop : gset nat) : option (list (Row G)) :=
  if decide (to_drop ⊆ list_to_set (label <$> gdf))
  then Some (filter (λ r, label r ∉ to_drop) gdf)
  else None.

Definition _deduplicate_within_source gdf (cfg : BuildingsCleanerConfig)
    : option (list (Row G)) :=
  if decide (length gdf ≤ 1) then Some gdf else
  let groups := overlap_groups (geom <$> gdf) cfg in
  match groups with
  | [] => Some gdf
  | _ =>
      resolved ← mapM (resolve_group gdf cfg) groups;
      let to_drop : gset nat := ⋃ (fst <$> resolved) in
      let union_rows := mjoin (snd <$> resolved) in
      cleaned ← drop_labels gdf to_drop;
      match union_rows with
      | [] => Some cleaned
      | _ =>
          (* [pd.concat(..., ignore_index=True)] *)
          Some (imap (λ i r, {| label := i; cols := cols r; geom := geom r |})
                  (cleaned ++
                   ((λ u, {| label := 0; cols := u.1; geom := u.2 |}) <$> union_rows)))
      end
  end.

(** *** The pipeline *)

Definition confidence_cell (r : Row G) : option Q :=
  default 0%Q <$> astype_float (cols r !! "confidence").

Definition effective_area (r : Row G) : option Q :=
  (λ a, let a := default 0%Q a in
        if Qle_bool a 0 then geom_area (geom r) else a)
    <$> astype_float (cols r !! "area_in_meters").

Definition opt_float (o : option Q) : value :=
  match o with Some x => VFloat x | None => VNone end.

Definition add_shape_metrics (cfg : BuildingsCleanerConfig) gdf : list (Row G) :=
  set_column "_min_width"
    (λ r, VFloat (if Qle_bool (min_width_m cfg) 0 then 9999%Q
                  else _min_width (geom r)))
    (set_column "_elongation" (λ r, VFloat (_elongation (geom r)))
       (set_column "_compactness" (λ r, VFloat (_compactness (geom r))) gdf)).

Definition passes_shape_filters (cfg : BuildingsCleanerConfig) (r : Row G) : bool :=
  Qle_bool (min_compactness cfg) (_compactness (geom r)) &&
  Qle_bool (_elongation (geom r)) (max_elongation cfg) &&
  Qle_bool (min_width_m cfg)
    (if Qle_bool (min_width_m cfg) 0 then 9999%Q else _min_width (geom r)).

(** The table on which the filters run: the two columns filled in from the
    properties when absent, the geometries projected to metres and
    repaired. *)
Definition prepared_table (features : list Feature) (aoi_polygon_wgs84 : Polygon)
    (cfg : BuildingsCleanerConfig) : list (Row G) :=
  let gdf_wgs84 := _feature_collection_to_gdf features in
  let gdf_wgs84 :=
    if has_column "confidence" gdf_wgs84 then gdf_wgs84
    else set_column "confidence"
           (λ r, VFloat (_extract_confidence_from_props r)) gdf_wgs84 in
  let gdf_wgs84 :=
    if has_column "area_in_meters" gdf_wgs84 then gdf_wgs84
    else set_column "area_in_meters"
           (λ r, opt_float (_extract_area_from_props r)) gdf_wgs84 in
  let utm_epsg := default 3857%Z (_suggest_utm_epsg aoi_polygon_wgs84) in
  let gdf_m := map_geometry (to_crs utm_epsg) gdf_wgs84 in
  if make_valid cfg then map_geometry (λ g, buffer g 0) gdf_m else gdf_m.

(** The minimum-confidence filter followed by the minimum-area filter;
    [None] when a conversion to float raises. *)
Definition working_set (cfg : BuildingsCleanerConfig) gdf_m
    : option (list (Row G)) :=
  gdf_m ← select confidence_cell
             (λ c, Qle_bool (google_min_confidence cfg) c) gdf_m;
  if negb (Qle_bool (min_area_m2 cfg) 0)
  then select effective_area (λ a, Qle_bool (min_area_m2 cfg) a) gdf_m
  else Some gdf_m.

(** The shape-quality filter. *)
Definition shape_filtered (cfg : BuildingsCleanerConfig) gdf_m : list (Row G) :=
  filter (λ r, passes_shape_filters cfg r = true) (add_shape_metrics cfg gdf_m).

Definition _clean_google (features : list Feature) (aoi_polygon_wgs84 : Polygon)
    (cfg : BuildingsCleanerConfig) : outcome G :=
  match _feature_collection_to_gdf features with
  | [] => ReturnedInput
  | _ =>
    match working_set cfg (prepared_table features aoi_polygon_wgs84 cfg) with
    | None => Raised
    | Some [] => ReturnedInput
    | Some gdf_m =>
      match _deduplicate_within_source (shape_filtered cfg gdf_m) cfg with
      | None => Raised
      | Some gdf_m =>
        let gdf_m :=
          match simplify_tolerance_m cfg with
          | Some tolerance =>
              if Qle_bool tolerance 0 then gdf_m
              else map_geometry (λ g, simplify g tolerance) gdf_m
          | None => gdf_m
          end in
        Cleaned (map_geometry (to_crs 4326) gdf_m)
      end
    end
  end.

(** [_gdf_to_feature_collection] *)
Definition _to_jsonable (cell : option value) : value :=
  match cell with
  | None => VNone                         (* NaN is not finite *)
  | Some (VList l) => VStr (String.substring 0 200 (py_str (VList l)))
  | Some (VDict d) => VStr (String.substring 0 200 (py_str (VDict d)))
  | Some v => v
  end.

(** The template comes back when building a feature raises. *)
Definition _gdf_to_feature_collection gdf (template_fc : list Feature)
    : list Feature :=
  let columns : gset string := ⋃ ((λ r, dom (cols r)) <$> gdf) in
  let features :=
    mapM (λ r,
        geom_mapping ← mapping (geom r);
        Some {| feature_id := None;
                feature_geometry := Some geom_mapping;
                properties :=
                  set_to_map (λ col, (col, _to_jsonable (cols r !! col)))
                             columns |}) gdf in
  default template_fc features.

(** [BuildingsCleaner.clean] for the satellite set B source: any exception
    gives the input back. *)
Definition clean_google_buildings (features : list Feature)
    (aoi_polygon_wgs84 : Polygon) (cfg : BuildingsCleanerConfig) : list Feature :=
  match _clean_google features aoi_polygon_wgs84 cfg with
  | Cleaned gdf => _gdf_to_feature_collection gdf features
  | ReturnedInput | Raised => features
  end.

End Cleaner.

End BuildingsCleaner.

(** ** Estimates for an area of interest ([core/processors/aoi_processor.py]) *)

Module AOIProcessor.
Import Schemas Geometry.

(** The dict [density_estimates], in its order. *)
Definition density_estimates : list (DataSourceType * Q) :=
  [(MICROSOFT_BUILDINGS, 500); (GOOGLE_BUILDINGS, 450); (OSM_BUILDINGS, 300);
   (OSM_ROADS, 50); (OSM_RAILWAYS, 2); (OSM_LANDMARKS, 20); (OSM_NATURAL, 10)]%Q.

Definition area_factor (area_km2 : Q) : Q :=
  Qmax (3 # 10) (1 - (area_km2 - 1) * (1 # 100)).

Definition _estimate_feature_counts (area_km2 : Q) : list (DataSourceType * Z) :=
  (λ p : DataSourceType * Q,
     let estimated_count := int_of_float (p.2 * area_km2 * area_factor area_km2) in
     (p.1, Z.max 0 estimated_count)) <$> density_estimates.

Definition _estimate_processing_time (area_km2 : Q)
    (estimated_features : list (DataSourceType * Z)) : Q :=
  let base_time_per_km2 := 2%Q in
  let time_per_1000_features := (15 # 10)%Q in
  let base_time := (area_km2 * base_time_per_km2)%Q in
  let total_features := foldr Z.add 0%Z estimated_features.*2 in
  let feature_time := (inject_Z total_features / 1000 * time_per_1000_features)%Q in
  let num_sources := length (filter (λ count, (0 < count)%Z) estimated_features.*2) in
  let overhead_time := (inject_Z (Z.of_nat num_sources) * 2)%Q in
  let total_time := (base_time + feature_time + overhead_time)%Q in
  Qmin (Qmax total_time 5) 300.

Record ValidationResponse := {
  valid : bool;
  area_km2 : Q;
  estimated_features : list (DataSourceType * Z);
  estimated_processing_time : Q;
  warnings : list string;
  errors : list validation_error
}.

Section Validate.
Variable Polygon_raises : list point → bool.
Variable is_valid : list point → bool.
Variable utm_area_m2 : list point → option Q.
Variable _approximate_polygon_area_km2 : list point → Q.
(** [settings.max_aoi_area_km2] *)
Variable max_aoi_area_km2 : Q.

(** [AOIProcessor.validate_aoi].  Nothing in the [try] block raises: the
    validator catches its own exceptions and the estimates are arithmetic. *)
Definition validate_aoi (aoi_boundary : list (list point)) : ValidationResponse :=
  let '(is_valid, area_km2, errors) :=
    validate_aoi_polygon Polygon_raises is_valid utm_area_m2
      _approximate_polygon_area_km2 aoi_boundary max_aoi_area_km2 in
  let warnings :=
    (if Qle_bool area_km2 50 then []
     else ["Large AOI may result in longer processing times"])
    ++ (if Qle_bool area_km2 25 then []
        else ["Consider breaking large areas into smaller chunks for faster processing"]) in
  let estimated_features := _estimate_feature_counts area_km2 in
  let estimated_processing_time :=
    _estimate_processing_time area_km2 estimated_features in
  {| valid := is_valid; area_km2 := area_km2;
     estimated_features := estimated_features;
     estimated_processing_time := estimated_processing_time;
     warnings := warnings; errors := errors |}.

End Validate.

End AOIProcessor.

(** ** The current download routes ([api/routes/download_v2.py]) *)

Module DownloadRoute.
Import Schemas JobStorage.

(** [format.value] *)
Definition format_value (format : ExportFormat) : string :=
  match format with
  | GEOJSON => "geojson" | KML => "kml" | KMZ => "kmz" | CSV => "csv"
  | DWG => "dwg" | SHAPEFILE => "shapefile"
  end.

(** [RawDataExportService.get_supported_formats] *)
Definition get_supported_formats : list string := ["geojson"; "kml"; "kmz"; "csv"].

(** [_get_content_type_and_filename] *)
Definition _get_content_type_and_filename (format : ExportFormat) (job_id : string)
    : string * string :=
  match format with
  | GEOJSON => ("application/geo+json", "atlas_export_" +:+ job_id +:+ ".geojson")
  | KML => ("application/vnd.google-earth.kml+xml",
            "atlas_export_" +:+ job_id +:+ ".kml")
  | KMZ => ("application/vnd.google-earth.kmz", "atlas_export_" +:+ job_id +:+ ".kmz")
  | CSV => ("text/csv", "atlas_export_" +:+ job_id +:+ ".csv")
  | _ => ("application/octet-stream", "atlas_export_" +:+ job_id +:+ ".bin")
  end.

(** The [Response] a download returns. *)
Record Download (Bytes : Type) := {
  content : Bytes;
  media_type : string;
  filename : string
}.
Arguments content {Bytes} _.
Arguments media_type {Bytes} _.
Arguments filename {Bytes} _.

Section Routes.
Context {Response D Bytes : Type}.
Variable of_dict : D → option Response.
(** The keys of [job_result.results]. *)
Variable result_sources : Response → list DataSourceType.
(** [export_service.export_data]; [None] when it raises, which it does with
    an [ExportError] only. *)
Variable export_data : Response → string → option (list DataSourceType) → option Bytes.

(** [download_data].  The store is the one [get_job_storage] of this module
    returns; the lookup may remove an expired entry from it. *)
Definition download_data (job_storage : InMemoryJobStorage D) (job_id : string)
    (format : ExportFormat) (sources : option (list DataSourceType)) (now : Z)
    : InMemoryJobStorage D * http_result (Download Bytes) :=
  let '(job_storage, job_result) := get_job_result of_dict job_storage job_id now in
  match job_result with
  | None => (job_storage, HTTP_error 404)
  | Some job_result =>
      if decide (format_value format ∉ get_supported_formats)
      then (job_storage, HTTP_error 400)
      else
        let available_sources := result_sources job_result in
        let invalid_sources :=
          match sources with
          | Some requested => filter (λ s, s ∉ available_sources) requested
          | None => []
          end in
        if decide (invalid_sources ≠ []) then (job_storage, HTTP_error 400)
        else
          match export_data job_result (format_value format) sources with
          | None => (job_storage, HTTP_error 500)
          | Some bytes =>
              let '(content_type, filename) :=
                _get_content_type_and_filename format job_id in
              (job_storage,
               HTTP_ok {| content := bytes; media_type := content_type;
                          filename := filename |})
          end
  end.

(** [get_job_status]: the job the answer is built from. *)
Definition get_job_status (job_storage : InMemoryJobStorage D) (job_id : string)
    (now : Z) : InMemoryJobStorage D * http_result Response :=
  let '(job_storage, job_result) := get_job_result of_dict job_storage job_id now in
  match job_result with
  | None => (job_storage, HTTP_error 404)
  | Some job_result => (job_storage, HTTP_ok job_result)
  end.

(** [cleanup_job]: the [status] field of the answer. *)
Definition cleanup_job (job_storage : InMemoryJobStorage D) (job_id : string)
    : InMemoryJobStorage D * http_result string :=
  let '(job_storage, success) := delete_job_result job_storage job_id in
  (job_storage, HTTP_ok (if success then "cleaned" else "not_found")).

(** *** The two module-level stores

    [extract_v2.py] and [download_v2.py] each create their own
    [_JOB_STORAGE = InMemoryJobStorage()] at import, and each route depends on
    the [get_job_storage] of its own module. *)
Record Process := {
  extract_v2_JOB_STORAGE : InMemoryJobStorage D;
  download_v2_JOB_STORAGE : InMemoryJobStorage D
}.

Variable to_dict : Response → option D.

(** The requests that touch a store.  [PostExtract] is an extraction that
    reached [store_job_result(job_id, response, ttl_seconds=3600)], with the
    three clock readings of that call. *)
Inductive Request :=
| PostExtract (job_id : string) (response : Response) (t1 t2 t3 : Z)
| GetDownload (job_id : string) (format : ExportFormat)
    (sources : option (list DataSourceType)) (now : Z)
| GetJobStatus (job_id : string) (now : Z)
| DeleteJob (job_id : string).

Inductive Answer :=
| Extracted (response : Response)
| Downloaded (answer : http_result (Download Bytes))
| JobStatus (answer : http_result Response)
| Cleaned (answer : http_result string).

Definition serve (process : Process) (request : Request) : Process * Answer :=
  match request with
  | PostExtract job_id response t1 t2 t3 =>
      let stored :=
        store_job_result to_dict (extract_v2_JOB_STORAGE process) job_id response
          3600 t1 t2 t3 in
      ({| extract_v2_JOB_STORAGE := stored.1;
          download_v2_JOB_STORAGE := download_v2_JOB_STORAGE process |},
       Extracted response)
  | GetDownload job_id format sources now =>
      let served :=
        download_data (download_v2_JOB_STORAGE process) job_id format sources now in
      ({| extract_v2_JOB_STORAGE := extract_v2_JOB_STORAGE process;
          download_v2_JOB_STORAGE := served.1 |}, Downloaded served.2)
  | GetJobStatus job_id now =>
      let served := get_job_status (download_v2_JOB_STORAGE process) job_id now in
      ({| extract_v2_JOB_STORAGE := extract_v2_JOB_STORAGE process;
          download_v2_JOB_STORAGE := served.1 |}, JobStatus served.2)
  | DeleteJob job_id =>
      let served := cleanup_job (download_v2_JOB_STORAGE process) job_id in
      ({| extract_v2_JOB_STORAGE := extract_v2_JOB_STORAGE process;
          download_v2_JOB_STORAGE := served.1 |}, Cleaned served.2)
  end.

(** The process after its imports, and a run of requests with the answers
    in order. *)
Definition started (now_extract now_download : Z) : Process :=
  {| extract_v2_JOB_STORAGE := __init__ now_extract;
     download_v2_JOB_STORAGE := __init__ now_download |}.

Fixpoint run (process : Process) (requests : list Request)
    : Process * list Answer :=
  match requests with
  | [] => (process, [])
  | request :: requests' =>
      let '(process', answer) := serve process request in
      let '(final, answers) := run process' requests' in
      (final, answer :: answers)
  end.

End Routes.

End DownloadRoute.

(** ** The export service ([core/services/export_service.py]) *)

Module ExportService.
Import Schemas Json.

Abbreviation results_map := CsvExport.results_map.

(** [sources if sources else list(result.results.keys())] *)
Definition target_sources (results : results_map)
    (sources : option (list DataSourceType)) : list DataSourceType :=
  match sources with
  | Some (source_type :: rest) => source_type :: rest
  | _ => (map_to_list results).*1
  end.

(** The dict appended to [combined_features] for one feature. *)
Definition attributed (source_type : DataSourceType)
    (source_result : Processing.DataSourceResult Feature) (feature : Feature)
    : Feature :=
  {| feature_id := feature_id feature;
     feature_geometry := feature_geometry feature;
     properties :=
       <["atlas_status" :=
           VStr (CsvExport.status_value (Processing.status source_result))]>
       (<["atlas_source" := VStr (CsvExport.source_value source_type)]>
          (delete "description" (properties feature))) |}.

(** The [features] of the document [_export_geojson] serialises. *)
Definition combined_features (results : results_map)
    (sources : option (list DataSourceType)) : list Feature :=
  target_sources results sources ≫= λ source_type,
    match results !! source_type with
    | Some source_result =>
        attributed source_type source_result <$> Processing.data source_result
    | None => []
    end.

(** Python's truth value of a property. *)
Definition truthy (v : value) : bool :=
  match v with
  | VNone => false
  | VBool b => b
  | VInt n => negb (n =? 0)%Z
  | VFloat x => negb (Qeq_bool x 0)
  | VStr s => negb (String.eqb s "")
  | VList l => negb (bool_decide (length l = 0))
  | VDict d => negb (bool_decide (length d = 0))
  end.

Section Names.
(** Python's [str(value)]. *)
Variable py_str : value → string.

(** The first of the fields that is present and true. *)
Fixpoint first_named (properties : gmap string value) (name_fields : list string)
    : option string :=
  match name_fields with
  | [] => None
  | field :: rest =>
      match properties !! field with
      | Some v => if truthy v then Some (py_str v) else first_named properties rest
      | None => first_named properties rest
      end
  end.

(** [_get_meaningful_name]; a missing property bag is the empty one. *)
Definition _get_meaningful_name (properties : gmap string value)
    (source_type : DataSourceType) (index : nat) : string :=
  let generic := CsvExport.source_value source_type +:+ "_" +:+ pretty index in
  if decide (properties = ∅) then generic
  else if BuildingProcessor.is_building_source source_type then
    match properties !! "Name" with
    | Some v => Py.strip (py_str v)
    | None => ""
    end
  else
    let set_during_extraction :=
      match properties !! "Name" with
      | Some v =>
          if truthy v then
            let name_value := Py.strip (py_str v) in
            if negb (String.eqb name_value "")
               && negb (String.prefix (CsvExport.source_value source_type +:+ "_")
                          name_value)
            then Some name_value else None
          else None
      | None => None
      end in
    match set_during_extraction with
    | Some name_value => name_value
    | None =>
        default generic
          (first_named properties ["name"; "Name"; "highway"; "building"; "amenity"])
    end.

End Names.

End ExportService.

(** * Properties *)

(** ** Aggregation of per-source results *)

Section AggregationFacts.
Import Schemas Processing.
Context {Feature : Type}.
Implicit Types results : gmap DataSourceType (DataSourceResult Feature).

Definition completed_only results :=
  filter (λ p : DataSourceType * DataSourceResult Feature,
            status p.2 = COMPLETED) results.

Lemma count_completed_size results :
  count_completed results = size (completed_only results).
Proof.
  unfold count_completed, completed_only.
  induction results as [|s r m Hs IH] using map_ind.
  - by rewrite map_to_list_empty, map_filter_empty, map_size_empty.
  - rewrite map_to_list_insert by done. simpl. rewrite IH.
    destruct (decide (status r = COMPLETED)) as [Hc|Hc].
    + rewrite map_filter_insert_True by done.
      rewrite map_size_insert_None; [done|].
      by rewrite map_lookup_filter_None; left.
    + rewrite map_filter_insert_not' by naive_solver.
      done.
Qed.

Lemma completed_only_le results : size (completed_only results) ≤ size results.
Proof. apply map_size_filter. Qed.

(** One entry per enabled source, and the overall status by the number of
    completed entries. *)
Definition aggregate_ok (enabled_sources : gset DataSourceType)
    (st : ProcessingStatus) results : Prop :=
  let N := size enabled_sources in
  let successes := size (completed_only results) in
  0 < N ∧ dom results = enabled_sources ∧ size results = N ∧
  (st = FAILED ↔ successes = 0) ∧
  (st = COMPLETED ↔ successes = N) ∧
  (st = PARTIAL ↔ 0 < successes < N).

(** The three-way status is a function of the two counts alone. *)
Lemma overall_status_spec results :
  results ≠ ∅ →
  let successes := size (completed_only results) in
  (overall_status results = FAILED ↔ successes = 0) ∧
  (overall_status results = COMPLETED ↔ successes = size results) ∧
  (overall_status results = PARTIAL ↔ (0 < successes < size results)).
Proof.
  intros Hne successes. unfold overall_status.
  rewrite count_completed_size. fold successes.
  assert (size results ≠ 0) by by rewrite map_size_non_empty_iff.
  assert (successes ≤ size results) by apply completed_only_le.
  repeat case_decide; (split; [|split]); split; intros; try done; lia.
Qed.

Lemma legacy_overall_status_spec results :
  results ≠ ∅ →
  let successes := size (completed_only results) in
  (legacy_overall_status results = FAILED ↔ successes = 0) ∧
  (legacy_overall_status results = COMPLETED ↔ successes = size results) ∧
  (legacy_overall_status results = PARTIAL ↔ (0 < successes < size results)).
Proof.
  intros Hne successes. unfold legacy_overall_status, legacy_count_completed.
  change (sum_list_with _ (map_to_list results)) with (count_completed results).
  rewrite count_completed_size. fold successes.
  assert (size results ≠ 0) by by rewrite map_size_non_empty_iff.
  assert (successes ≤ size results) by apply completed_only_le.
  repeat case_decide; (split; [|split]); split; intros; try done; lia.
Qed.

(** What the loop after [gather] leaves under each key. *)
Definition gathered
    (task : DataSourceType → SourceConfig → string + DataSourceResult Feature)
    (s : DataSourceType) (c : SourceConfig) : DataSourceResult Feature :=
  match task s c with
  | inl e => _create_error_result s e 0%Q
  | inr r => r
  end.

Lemma gather_results_lookup task (cfgs : gmap DataSourceType SourceConfig) s :
  gather_results task cfgs !! s = gathered task s <$> cfgs !! s.
Proof.
  revert s. unfold gather_results.
  apply (map_fold_weak_ind (λ r m, ∀ s, r !! s = gathered task s <$> m !! s)).
  - intros s. by rewrite !lookup_empty.
  - intros i x m r Hi IH s. unfold gathered in *.
    destruct (decide (i = s)) as [->|Hne].
    + rewrite lookup_insert_eq. simpl. destruct (task s x); by rewrite lookup_insert_eq.
    + rewrite lookup_insert_ne by done.
      destruct (task i x); by rewrite lookup_insert_ne.
Qed.

Lemma gather_results_dom task (cfgs : gmap DataSourceType SourceConfig) :
  dom (gather_results (Feature:=Feature) task cfgs) = dom cfgs.
Proof.
  apply set_eq. intros s. rewrite !elem_of_dom, gather_results_lookup.
  by rewrite fmap_is_Some.
Qed.

(** Cleaning replaces [data] and [stats.count] only. *)
Definition same_outcome (r r0 : DataSourceResult Feature) : Prop :=
  source r = source r0 ∧ status r = status r0 ∧ error r = error r0.

Lemma same_outcome_set_data (r : DataSourceResult Feature) fc :
  same_outcome (set_data r fc) r.
Proof. by repeat split. Qed.

Lemma imap_same_outcome (g : DataSourceType → DataSourceResult Feature → DataSourceResult Feature)
    results :
  (∀ s r, same_outcome (g s r) r) →
  ∀ s, ∃ f, map_imap (λ s r, Some (g s r)) results !! s = f <$> results !! s
            ∧ ∀ r, same_outcome (f r) r.
Proof.
  intros Hg s. exists (g s). split; [|by auto].
  rewrite map_lookup_imap. by destruct (results !! s).
Qed.

Section CleaningSteps.
Context {Polygon CleaningConfig : Type}.
Variable BuildingsCleaner_clean :
  option CleaningConfig → DataSourceType → list Feature → Polygon → list Feature.
Variable clean_osm_roads : list Feature → Polygon → list Feature.
Variable fc_truthy : list Feature → bool.

Lemma clean_buildings_step_lookup cfg (aoi : Polygon) results s :
  ∃ f, clean_buildings_step BuildingsCleaner_clean fc_truthy cfg aoi results !! s
         = f <$> results !! s
       ∧ ∀ r, same_outcome (f r) r.
Proof.
  apply (imap_same_outcome (λ source_type result,
    if fc_truthy (data result) && is_building_source source_type
    then set_data result (BuildingsCleaner_clean cfg source_type (data result) aoi)
    else result)).
  intros ? r. case_match; [apply same_outcome_set_data | done].
Qed.

Lemma clean_roads_step_lookup (aoi : Polygon) results s :
  ∃ f, clean_roads_step clean_osm_roads fc_truthy aoi results !! s
         = f <$> results !! s
       ∧ ∀ r, same_outcome (f r) r.
Proof.
  apply (imap_same_outcome (λ source_type result,
    if bool_decide (source_type = OSM_ROADS) && fc_truthy (data result)
    then set_data result (clean_osm_roads (data result) aoi)
    else result)).
  intros ? r. case_match; [apply same_outcome_set_data | done].
Qed.

End CleaningSteps.

End AggregationFacts.

Section LegacyFacts.
Import Schemas Processing.
Context {Feature Polygon Connector : Type}.
Variable _create_connector : DataSourceType → DataSourceConfig → option Connector.
Variable task_outcome : DataSourceType → Connector → string + DataSourceResult Feature.

Definition legacy_gathered (t : DataSourceType * Connector) : DataSourceResult Feature :=
  match task_outcome t.1 t.2 with
  | inl e => legacy_failed_result t.1 e
  | inr result => result
  end.

Lemma create_tasks_fst enabled_sources source_configs tasks :
  create_tasks _create_connector enabled_sources source_configs = Some tasks →
  tasks.*1 = enabled_sources.
Proof.
  revert tasks. induction enabled_sources as [|s l IH]; intros tasks H; simpl in H.
  - by inversion H.
  - destruct (source_configs !! s) as [c|]; [|done]. simpl in H.
    destruct (_create_connector s c) as [conn|]; [|done]. simpl in H.
    destruct (create_tasks _ l source_configs) as [ts|]; [|done]. simpl in H.
    inversion H; subst. simpl. f_equal. by apply IH.
Qed.

Lemma collect_result_lookup results (t : DataSourceType * Connector) s :
  collect_result task_outcome results t !! s
  = if decide (t.1 = s) then Some (legacy_gathered t) else results !! s.
Proof.
  unfold collect_result, legacy_gathered. case_decide as Hs.
  - subst s. destruct (task_outcome t.1 t.2); by rewrite lookup_insert_eq.
  - destruct (task_outcome t.1 t.2); by rewrite lookup_insert_ne.
Qed.

Lemma legacy_fold_other (tasks : list (DataSourceType * Connector)) init s :
  s ∉ tasks.*1 →
  foldl (collect_result task_outcome) init tasks !! s = init !! s.
Proof.
  revert init. induction tasks as [|t ts IH]; intros init Hs; [done|].
  simpl in *. apply not_elem_of_cons in Hs as [Hne Hs].
  rewrite IH by done. rewrite collect_result_lookup. by case_decide.
Qed.

Lemma legacy_fold_lookup (tasks : list (DataSourceType * Connector)) init t :
  NoDup (tasks.*1) → t ∈ tasks →
  foldl (collect_result task_outcome) init tasks !! t.1 = Some (legacy_gathered t).
Proof.
  revert init. induction tasks as [|t0 ts IH]; intros init Hnd Hin.
  - by apply elem_of_nil in Hin.
  - simpl in *. apply NoDup_cons in Hnd as [Hfresh Hnd].
    apply elem_of_cons in Hin as [->|Hin]; [|by apply IH].
    rewrite legacy_fold_other by done.
    rewrite collect_result_lookup. by case_decide.
Qed.

Lemma legacy_results_dom (tasks : list (DataSourceType * Connector)) init :
  dom (foldl (collect_result task_outcome) init tasks)
  = dom init ∪ list_to_set (tasks.*1).
Proof.
  revert init. induction tasks as [|t ts IH]; intros init; simpl.
  - set_solver.
  - rewrite IH. apply set_eq. intros s.
    rewrite !elem_of_union, !elem_of_dom, collect_result_lookup.
    rewrite elem_of_singleton. case_decide; subst; naive_solver.
Qed.

Lemma enabled_sources_dom (data_sources : gmap DataSourceType DataSourceConfig) :
  list_to_set (C:=gset DataSourceType) (_get_enabled_sources data_sources)
  = dom (filter (λ p, ds_enabled p.2 = true) data_sources).
Proof.
  apply set_eq. intros s. unfold _get_enabled_sources.
  rewrite elem_of_list_to_set, list_elem_of_fmap, elem_of_dom. split.
  - intros ([s' c] & -> & Hin). apply list_elem_of_filter in Hin as [Hen Hin].
    apply elem_of_map_to_list in Hin. exists c. by apply map_lookup_filter_Some.
  - intros [c Hc]. apply map_lookup_filter_Some in Hc as [Hc Hen].
    exists (s, c). split; [done|]. apply list_elem_of_filter.
    split; [done|]. by apply elem_of_map_to_list.
Qed.

Lemma enabled_sources_NoDup (data_sources : gmap DataSourceType DataSourceConfig) :
  NoDup (_get_enabled_sources data_sources).
Proof.
  unfold _get_enabled_sources.
  apply (sublist_NoDup _ ((map_to_list data_sources).*1)).
  - apply NoDup_fst_map_to_list.
  - apply fmap_sublist, sublist_filter.
Qed.

Lemma create_tasks_elem enabled_sources source_configs tasks s conn :
  create_tasks _create_connector enabled_sources source_configs = Some tasks →
  (s, conn) ∈ tasks →
  ∃ c, source_configs !! s = Some c ∧ _create_connector s c = Some conn.
Proof.
  revert tasks. induction enabled_sources as [|s0 l IH]; intros tasks H Hin; simpl in H.
  - inversion H; subst. by apply elem_of_nil in Hin.
  - destruct (source_configs !! s0) as [c|] eqn:Hc; [|done]. simpl in H.
    destruct (_create_connector s0 c) as [conn0|] eqn:Hk; [|done]. simpl in H.
    destruct (create_tasks _ l source_configs) as [ts|]; [|done]. simpl in H.
    inversion H; subst. apply elem_of_cons in Hin as [Heq|Hin].
    + inversion Heq; subst. eauto.
    + by apply (IH ts).
Qed.

End LegacyFacts.

Section C1.
Import Schemas Processing.
Context {Feature Polygon AOI CleaningConfig Connector : Type}.
Variable extract_raw_features :
  DataSourceType → SourceConfig → Polygon → Z → string + list Feature.
Variable elapsed : DataSourceType → Q.
Variable _validate_aoi : Polygon → bool.
Variable geojson_to_shapely_polygon : AOI → option Polygon.
Variable BuildingsCleaner_clean :
  option CleaningConfig → DataSourceType → list Feature → Polygon → list Feature.
Variable clean_osm_roads : list Feature → Polygon → list Feature.
Variable fc_truthy : list Feature → bool.
Variable _export_data_immediately :
  RawDataResponse Feature → ExportFormat → option string.
Variable _create_connector : DataSourceType → DataSourceConfig → option Connector.
Variable task_outcome : DataSourceType → Connector → string + DataSourceResult Feature.
Variable _validate_and_process_aoi : bool.

Abbreviation route :=
  (extract_raw_data extract_raw_features elapsed _validate_aoi
     geojson_to_shapely_polygon BuildingsCleaner_clean clean_osm_roads fc_truthy
     _export_data_immediately).

(** The entry the fan-out leaves for an enabled source, before cleaning. *)
Lemma process_sources_lookup aoi (cfgs : gmap DataSourceType SourceConfig) s :
  _process_sources_concurrently extract_raw_features elapsed aoi cfgs !! s
  = _process_single_source extract_raw_features elapsed s aoi <$> cfgs !! s.
Proof. unfold _process_sources_concurrently. by rewrite gather_results_lookup. Qed.

Lemma route_results request resp :
  route request = HTTP_ok resp →
  ∃ aoi,
    geojson_to_shapely_polygon (aoi_boundary request) = Some aoi ∧
    filter (λ p, enabled p.2 = true) (sources request) ≠ ∅ ∧
    resp_status resp = overall_status (results resp) ∧
    successful_sources resp = count_completed (results resp) ∧
    total_features resp = sum_counts (results resp) ∧
    ∀ s, ∃ f,
      results resp !! s
      = f <$> (filter (λ p, enabled p.2 = true) (sources request) !! s) ∧
      ∀ sel, same_outcome (f sel)
        (_process_single_source extract_raw_features elapsed s aoi
           {| cfg_enabled := true; cfg_timeout := timeout_or_30 sel |}).
Proof.
  unfold extract_raw_data. intros H.
  destruct (geojson_to_shapely_polygon _) as [aoi|]; [|done].
  exists aoi. split; [done|].
  set (enabled_sources := filter _ (sources request)) in *.
  set (mk := λ selection, {| cfg_enabled := true;
                              cfg_timeout := timeout_or_30 selection |}) in *.
  unfold process_extraction_request in H.
  destruct (_validate_aoi aoi); simpl in H; [|done].
  assert (filter (λ p : DataSourceType * SourceConfig, cfg_enabled p.2 = true)
            (mk <$> enabled_sources) = mk <$> enabled_sources) as Hid.
  { apply map_filter_id. intros i x Hx. apply lookup_fmap_Some in Hx as (?&<-&?).
    done. }
  rewrite Hid in H. case_decide as Hemp; [done|].
  split. { intros E. apply Hemp. by rewrite E, fmap_empty. }
  set (r0 := _process_sources_concurrently _ _ aoi _) in *.
  set (r1 := if clean request then _ else r0) in *.
  set (r2 := if clean_roads request then _ else r1) in *.
  assert (∀ s, ∃ f, r2 !! s = f <$> enabled_sources !! s ∧
     ∀ sel, same_outcome (f sel)
        (_process_single_source extract_raw_features elapsed s aoi (mk sel)))
    as Hlook.
  { intros s.
    assert (r0 !! s = (λ sel, _process_single_source extract_raw_features elapsed
                                s aoi (mk sel)) <$> enabled_sources !! s) as H0.
    { unfold r0. rewrite process_sources_lookup, lookup_fmap.
      by destruct (enabled_sources !! s). }
    assert (∃ f1, r1 !! s = f1 <$> r0 !! s ∧ ∀ r, same_outcome (f1 r) r)
      as (f1 & H1 & Hf1).
    { unfold r1. destruct (clean request).
      - apply clean_buildings_step_lookup.
      - exists id. split; [by destruct (r0 !! s)|done]. }
    assert (∃ f2, r2 !! s = f2 <$> r1 !! s ∧ ∀ r, same_outcome (f2 r) r)
      as (f2 & H2 & Hf2).
    { unfold r2. destruct (clean_roads request).
      - apply clean_roads_step_lookup.
      - exists id. split; [by destruct (r1 !! s)|done]. }
    eexists (λ sel, f2 (f1 (_process_single_source extract_raw_features elapsed
                               s aoi (mk sel)))).
    split.
    - rewrite H2, H1, H0. by destruct (enabled_sources !! s).
    - intros sel. destruct (Hf2 (f1 (_process_single_source extract_raw_features
        elapsed s aoi (mk sel)))) as (?&?&?).
      destruct (Hf1 (_process_single_source extract_raw_features
        elapsed s aoi (mk sel))) as (?&?&?).
      repeat split; congruence. }
  destruct (export_format request) as [fmt|].
  - destruct (_export_data_immediately _ fmt); [|done].
    inversion H; subst; simpl. done.
  - inversion H; subst; simpl. done.
Qed.

Abbreviation legacy :=
  (process_request _create_connector task_outcome _validate_and_process_aoi).

Lemma legacy_results data_sources st results :
  legacy data_sources = Some (st, results) →
  let enabled_sources := filter (λ p, ds_enabled p.2 = true) data_sources in
  enabled_sources ≠ ∅ ∧
  st = legacy_overall_status results ∧
  dom results = dom enabled_sources ∧
  ∀ s, s ∈ dom enabled_sources →
    ∃ c conn, data_sources !! s = Some c ∧ _create_connector s c = Some conn ∧
      results !! s = Some (legacy_gathered task_outcome (s, conn)).
Proof.
  intros H enabled_sources. unfold process_request, _process_data_sources in H.
  destruct _validate_and_process_aoi; simpl in H; [|done].
  case_decide as Hnil; [done|].
  destruct (create_tasks _ _ data_sources) as [tasks|] eqn:Ht; [|done].
  simpl in H. inversion H; subst; clear H.
  pose proof (create_tasks_fst _ _ _ _ Ht) as Hfst.
  pose proof (enabled_sources_dom data_sources) as Hdom.
  fold enabled_sources in Hdom.
  split; [|split; [done|split]].
  - intros E. apply Hnil. rewrite E, dom_empty_L in Hdom.
    destruct (_get_enabled_sources data_sources) as [|x l]; [done|].
    exfalso. apply (not_elem_of_empty (C:=gset DataSourceType) x).
    rewrite <- Hdom. apply elem_of_list_to_set, elem_of_cons. by left.
  - by rewrite legacy_results_dom, dom_empty_L, Hfst, Hdom, union_empty_l_L.
  - intros s Hs. rewrite <- Hdom, <- Hfst in Hs.
    apply elem_of_list_to_set, list_elem_of_fmap in Hs as ([s' conn] & -> & Hin).
    destruct (create_tasks_elem _ _ _ _ _ _ Ht Hin) as (c & Hc & Hk).
    exists c, conn. repeat split; [done..|].
    apply (legacy_fold_lookup task_outcome tasks ∅ (s', conn)); [|done].
    rewrite Hfst. apply enabled_sources_NoDup.
Qed.


End C1.

(** A request with two enabled sources, one of whose connectors raises. *)
Module C1Example.
Import Schemas Processing.

Definition connector0 (s : DataSourceType) (_ : SourceConfig) (_ : unit) (_ : Z)
    : string + list nat :=
  match s with
  | OSM_ROADS => inl "overpass timeout"
  | _ => inr [1; 2; 3]
  end.

Definition request0 : RawDataRequest (AOI:=unit) (CleaningConfig:=unit) :=
  {| aoi_boundary := ();
     sources :=
       <[GOOGLE_BUILDINGS := {| enabled := true; timeout := None |}]>
       (<[OSM_ROADS := {| enabled := true; timeout := Some 10%Z |}]>
       (<[OSM_NATURAL := {| enabled := false; timeout := None |}]> ∅));
     clean := true; cleaning_config := None; clean_roads := true;
     export_format := None |}.

Definition route0 :=
  extract_raw_data connector0 (λ _, 1%Q) (λ _ : unit, true) (λ _ : unit, Some ())
    (λ (_ : option unit) _ fc _, fc) (λ fc _, fc) (λ _, true) (λ _ _, None).

Definition resp0 : RawDataResponse nat :=
  match route0 request0 with
  | HTTP_ok r => r
  | HTTP_error _ =>
      {| resp_status := PENDING; results := ∅; total_features := 0;
         successful_sources := 0; export_data := None |}
  end.

Example route0_runs :
  route0 request0 = HTTP_ok resp0 ∧ resp_status resp0 = PARTIAL ∧
  successful_sources resp0 = 1 ∧ total_features resp0 = 3 ∧
  status <$> results resp0 !! OSM_ROADS = Some FAILED ∧
  status <$> results resp0 !! GOOGLE_BUILDINGS = Some COMPLETED ∧
  results resp0 !! OSM_NATURAL = None.
Proof. vm_compute. repeat split. Qed.

End C1Example.


(** ** Job storage *)

Section C8.
Import JobStorage.
Context {Response D : Type}.
Variable to_dict : Response → option D.
Variable of_dict : D → option Response.
Implicit Types self : InMemoryJobStorage D.

(** What a store leaves under the stored key: the new entry, or nothing when
    the sweep of the same call already removed it. *)
Lemma store_job_result_lookup self job_id result d ttl t1 t2 t3 :
  to_dict result = Some d →
  let entry := {| entry_data := d;
                  expires_at := (t1 + timedelta_of_seconds ttl)%Z;
                  created_at := t2 |} in
  let self' := (store_job_result to_dict self job_id result ttl t1 t2 t3).1 in
  (store_job_result to_dict self job_id result ttl t1 t2 t3).2 = true ∧
  (_storage self' !! job_id = Some entry ∨ _storage self' !! job_id = None) ∧
  ((t3 ≤ expires_at entry)%Z → _storage self' !! job_id = Some entry).
Proof.
  intros Hd entry self'. subst self'. unfold store_job_result.
  rewrite Hd. simpl. split; [done|]. unfold _cleanup_expired. simpl.
  case_decide; simpl.
  - rewrite lookup_insert_eq. split; [by left|done].
  - fold entry. split.
    + destruct (decide (t3 > expires_at entry)%Z) as [Hgt|Hle].
      * right. apply map_lookup_filter_None. right. intros x Hx.
        rewrite lookup_insert_eq in Hx. inversion Hx; subst x. simpl. tauto.
      * left. apply map_lookup_filter_Some. split; [by rewrite lookup_insert_eq|].
        simpl. done.
    + intros Hle. apply map_lookup_filter_Some.
      split; [by rewrite lookup_insert_eq|]. simpl in *. lia.
Qed.

Lemma get_job_result_Some self job_id now r :
  (get_job_result of_dict self job_id now).2 = Some r →
  ∃ e, _storage self !! job_id = Some e ∧ (now ≤ expires_at e)%Z ∧
       of_dict (entry_data e) = Some r ∧
       (get_job_result of_dict self job_id now).1 = self.
Proof.
  unfold get_job_result. destruct (_storage self !! job_id) as [e|]; [|done].
  case_decide; simpl; [done|]. intros Hr. exists e. repeat split; [lia|done].
Qed.


End C8.


(** ** The legacy download route *)

Section C3.
Import Schemas ExportRoute.
Context {Response D FileResponse : Type}.
Variable of_dict : D → option Response.
Variable result_sources : Response → list DataSourceType.
Variable export_single_format :
  string → ExportFormat → Response → option (list DataSourceType) → bool →
  option FileResponse.

(** C3.  The route looks the job up in a store built within the call, whose
    map is empty, so the lookup is absent for every job id and instant; the
    body then raises [HTTPException(404)] for every format that has an
    exporter.  The route nevertheless never answers 404: the exception is
    raised inside the [try] and the handler for [Exception] turns it into a
    500, as it does with the 400 of an unsupported format. *)
Theorem C3_legacy_download_answers_500 job_id format sources include_metadata
    now_init now_get :
  JobStorage._storage (JobStorage.__init__ (D:=D) now_init) = ∅ ∧
  (JobStorage.get_job_result of_dict (JobStorage.__init__ now_init) job_id now_get).2
    = None ∧
  (is_format_supported format = true →
     download_export_body of_dict result_sources export_single_format
       job_id format sources include_metadata now_init now_get
     = inl (HTTPException 404)) ∧
  download_export of_dict result_sources export_single_format
    job_id format sources include_metadata now_init now_get
  = HTTP_error 500.
Proof.
  assert ((JobStorage.get_job_result of_dict (JobStorage.__init__ now_init)
             job_id now_get).2 = None) as Hget.
  { unfold JobStorage.get_job_result, JobStorage.__init__. simpl.
    by rewrite lookup_empty. }
  assert (is_format_supported format = true →
     download_export_body of_dict result_sources export_single_format
       job_id format sources include_metadata now_init now_get
     = inl (HTTPException 404)) as Hbody.
  { intros Hf. unfold download_export_body. by rewrite Hf, Hget. }
  repeat split; [done..|].
  unfold download_export. destruct (is_format_supported format) eqn:Hf.
  - by rewrite Hbody.
  - unfold download_export_body. by rewrite Hf.
Qed.

End C3.

(** ** The bounding box of an Overpass query *)

Section C10.
Import Schemas Geometry.
Open Scope Q_scope.

(** The fold only widens the box, and the result covers every folded point. *)
Lemma bounds_fold_covers (ps : list point) (b : Q * Q * Q * Q) :
  let r := foldl bounds_step b ps in
  (r.1.1.1 <= b.1.1.1 ∧ r.1.1.2 <= b.1.1.2 ∧ b.1.2 <= r.1.2 ∧ b.2 <= r.2) ∧
  ∀ q, q ∈ ps →
    r.1.1.1 <= q.1 ∧ q.1 <= r.1.2 ∧ r.1.1.2 <= q.2 ∧ q.2 <= r.2.
Proof.
  revert b. induction ps as [|p ps IH]; intros b; simpl.
  - split; [repeat split; apply Qle_refl|]. intros q Hq. by apply elem_of_nil in Hq.
  - destruct (IH (bounds_step b p)) as ((Hw & Hs & He & Hn) & Hcov).
    set (r := foldl bounds_step (bounds_step b p) ps) in *.
    unfold bounds_step in Hw, Hs, He, Hn. simpl in Hw, Hs, He, Hn.
    pose proof (Q.le_min_l b.1.1.1 p.1). pose proof (Q.le_min_r b.1.1.1 p.1).
    pose proof (Q.le_min_l b.1.1.2 p.2). pose proof (Q.le_min_r b.1.1.2 p.2).
    pose proof (Q.le_max_l b.1.2 p.1). pose proof (Q.le_max_r b.1.2 p.1).
    pose proof (Q.le_max_l b.2 p.2). pose proof (Q.le_max_r b.2 p.2).
    split.
    + repeat split; eapply Qle_trans; eauto.
    + intros q Hq. apply elem_of_cons in Hq as [->|Hq]; [|by apply Hcov].
      repeat split; eapply Qle_trans; eauto.
Qed.

Lemma bounds_covers (p : point) (ps : list point) :
  ∃ west south east north,
    bounds (p :: ps) = Some (west, south, east, north) ∧
    ∀ q, q ∈ p :: ps →
      west <= q.1 ∧ q.1 <= east ∧ south <= q.2 ∧ q.2 <= north.
Proof.
  destruct (bounds_fold_covers ps (p.1, p.2, p.1, p.2)) as ((Hw & Hs & He & Hn) & Hcov).
  set (r := foldl bounds_step (p.1, p.2, p.1, p.2) ps) in *.
  exists r.1.1.1, r.1.1.2, r.1.2, r.2. split.
  - unfold bounds. fold r. by destruct r as [[[??]?]?].
  - intros q Hq. apply elem_of_cons in Hq as [->|Hq]; [|by apply Hcov].
    simpl in *. done.
Qed.

(** C10.  For each of the five crowdsourced sources and every non-empty AOI
    ring, the query box is the ring's envelope moved outwards on all four sides
    by [0.1 / 111] degrees (the default buffer of [create_bounding_box], about
    0.0009), listed as south, west, north, east; every vertex of the AOI lies
    strictly inside it. *)
Theorem C10_overpass_bbox_is_buffered_envelope (p : point) (ps : list point) :
  ∃ west south east north,
    bounds (p :: ps) = Some (west, south, east, north) ∧
    let buffer_deg := default_buffer_km / 111 in
    buffer_deg == 1 # 1110 ∧ 9 # 10000 < buffer_deg ∧ buffer_deg < 91 # 100000 ∧
    Forall (λ source_type,
        overpass_bbox source_type (p :: ps)
        = Some (south - buffer_deg, west - buffer_deg,
                north + buffer_deg, east + buffer_deg))
      [OSM_BUILDINGS; OSM_ROADS; OSM_RAILWAYS; OSM_LANDMARKS; OSM_NATURAL] ∧
    (west - buffer_deg < west ∧ south - buffer_deg < south ∧
     east < east + buffer_deg ∧ north < north + buffer_deg) ∧
    ∀ q, q ∈ p :: ps →
      west - buffer_deg < q.1 ∧ q.1 < east + buffer_deg ∧
      south - buffer_deg < q.2 ∧ q.2 < north + buffer_deg.
Proof.
  destruct (bounds_covers p ps) as (west & south & east & north & Hb & Hcov).
  exists west, south, east, north. split; [done|]. intros buffer_deg.
  assert (buffer_deg == 1 # 1110) as Hd by reflexivity.
  split; [done|]. split; [by rewrite Hd|]. split; [by rewrite Hd|].
  split; [|split].
  - assert (create_bounding_box (p :: ps) default_buffer_km
            = Some (west - buffer_deg, south - buffer_deg,
                    east + buffer_deg, north + buffer_deg)) as Hbox.
    { unfold create_bounding_box. rewrite Hb.
      destruct (Qlt_le_dec 0 default_buffer_km) as [_|Hle]; [done|].
      by apply Qle_bool_iff in Hle. }
    repeat constructor; unfold overpass_bbox; by rewrite Hbox.
  - rewrite Hd. repeat split; lra.
  - intros q Hq. destruct (Hcov q Hq) as (?&?&?&?).
    rewrite Hd. repeat split; lra.
Qed.

End C10.

(** ** AOI validation *)

Section C2.
Import Geometry.
Variable Polygon_raises : list point → bool.
Variable is_valid : list point → bool.
Variable utm_area_m2 : list point → option Q.
Variable _approximate_polygon_area_km2 : list point → Q.

Abbreviation area_of :=
  (calculate_polygon_area_km2 utm_area_m2 _approximate_polygon_area_km2).
Abbreviation validate :=
  (validate_aoi_polygon Polygon_raises is_valid utm_area_m2
     _approximate_polygon_area_km2).

(** When a ring breaks the rule an error stands for. *)
Definition violates (coords : list point) (max_area_km2 : Q)
    (e : validation_error) : Prop :=
  match e with
  | InvalidGeometry => is_valid coords = false
  | NotClosed =>
      ∃ first final, head coords = Some first ∧ last coords = Some final ∧
                     point_eqb first final = false
  | TooFewCoordinates => length coords < 4
  | AreaNotPositive => (area_of coords <= 0)%Q
  | AreaExceedsMaximum a m =>
      a = area_of coords ∧ m = max_area_km2 ∧ (max_area_km2 < area_of coords)%Q
  | InvalidLongitude lon =>
      ∃ q, q ∈ coords ∧ q.1 = lon ∧ ¬ (-180 <= lon ∧ lon <= 180)%Q
  | InvalidLatitude lat =>
      ∃ q, q ∈ coords ∧ q.2 = lat ∧ ¬ (-90 <= lat ∧ lat <= 90)%Q
  | ValidationException => False
  end.

(** The rules that end the validation, in the order they are checked. *)
Definition structural_rules (coords : list point) (max_area_km2 : Q)
    : list validation_error :=
  [InvalidGeometry; NotClosed; TooFewCoordinates; AreaNotPositive;
   AreaExceedsMaximum (area_of coords) max_area_km2].

Lemma in_range_iff (lo hi x : Q) :
  Qle_bool lo x && Qle_bool x hi = true ↔ (lo <= x ∧ x <= hi)%Q.
Proof. by rewrite andb_true_iff, !Qle_bool_iff. Qed.

Lemma coordinate_errors_sound coords max e :
  e ∈ coordinate_errors coords → violates coords max e.
Proof.
  unfold coordinate_errors. rewrite list_elem_of_In, in_flat_map.
  intros (q & Hq & He). apply list_elem_of_In in Hq, He.
  apply elem_of_app in He as [He|He].
  - destruct (Qle_bool (-180) q.1 && Qle_bool q.1 180) eqn:Hr;
      [by apply elem_of_nil in He|].
    apply list_elem_of_singleton in He as ->. exists q. repeat split; [done|].
    rewrite <- in_range_iff. by rewrite Hr.
  - destruct (Qle_bool (-90) q.2 && Qle_bool q.2 90) eqn:Hr;
      [by apply elem_of_nil in He|].
    apply list_elem_of_singleton in He as ->. exists q. repeat split; [done|].
    rewrite <- in_range_iff. by rewrite Hr.
Qed.

Lemma coordinate_errors_complete_lon coords q :
  q ∈ coords → ¬ (-180 <= q.1 ∧ q.1 <= 180)%Q →
  InvalidLongitude q.1 ∈ coordinate_errors coords.
Proof.
  intros Hq Hr. unfold coordinate_errors.
  rewrite list_elem_of_In, in_flat_map. exists q. split; [by apply list_elem_of_In|].
  apply list_elem_of_In, elem_of_app. left.
  destruct (Qle_bool (-180) q.1 && Qle_bool q.1 180) eqn:Hb.
  - by apply in_range_iff in Hb.
  - by apply list_elem_of_singleton.
Qed.

Lemma coordinate_errors_complete_lat coords q :
  q ∈ coords → ¬ (-90 <= q.2 ∧ q.2 <= 90)%Q →
  InvalidLatitude q.2 ∈ coordinate_errors coords.
Proof.
  intros Hq Hr. unfold coordinate_errors.
  rewrite list_elem_of_In, in_flat_map. exists q. split; [by apply list_elem_of_In|].
  apply list_elem_of_In, elem_of_app. right.
  destruct (Qle_bool (-90) q.2 && Qle_bool q.2 90) eqn:Hb.
  - by apply in_range_iff in Hb.
  - by apply list_elem_of_singleton.
Qed.

(** The shape of the answer when the check of rule [e] fails after the checks
    of the rules in [pre] passed. *)
Lemma structural_case coords max pre e post :
  structural_rules coords max = pre ++ e :: post →
  Forall (λ e', ¬ violates coords max e') pre →
  violates coords max e →
  (∀ e', e' ∈ [e] → violates coords max e') ∧
  (false = true ↔ [e] = []) ∧
  ((∃ e', e' ∈ structural_rules coords max ∧ violates coords max e') →
     ∃ pre e0 post, structural_rules coords max = pre ++ e0 :: post ∧
       Forall (λ e', ¬ violates coords max e') pre ∧
       violates coords max e0 ∧ [e] = [e0]) ∧
  ((∀ e', e' ∈ structural_rules coords max → ¬ violates coords max e') →
     [e] = coordinate_errors coords ∧
     ∀ e', violates coords max e' → e' ∈ [e]).
Proof.
  intros Hsplit Hpre Hv. split; [|split; [|split]].
  - intros e' He'. by apply list_elem_of_singleton in He' as ->.
  - split; discriminate.
  - intros _. by exists pre, e, post.
  - intros Hno. exfalso. apply (Hno e); [|done].
    rewrite Hsplit. apply elem_of_app. right. by left.
Qed.


End C2.

(** Two rings that break several rules at once.  Shapely accepts both (it
    closes an open ring of three points itself), and the projected area is
    fixed at 25 km². *)
Module C2Example.
Import Geometry.

Definition never_raises (_ : list point) : bool := false.
Definition always_valid (_ : list point) : bool := true.
Definition area_25_km2 (_ : list point) : option Q := Some 25000000%Q.
Definition no_fallback (_ : list point) : Q := 0%Q.

Definition validate0 :=
  validate_aoi_polygon never_raises always_valid area_25_km2 no_fallback.
Definition violates0 := violates always_valid area_25_km2 no_fallback.

(** Not closed, three pairs only, and a longitude of 200. *)
Definition open_ring : list point := [(0, 0); (200, 0); (200, 50)]%Q.

(** Closed, but 25 km² against a maximum of 10, and a latitude of 95. *)
Definition large_ring : list point := [(0, 0); (0, 95); (1, 95); (1, 0); (0, 0)]%Q.

Example validate_open_ring : validate0 [open_ring] 100%Q = (false, 0%Q, [NotClosed]).
Proof. reflexivity. Qed.

Example validate_large_ring :
  (validate0 [large_ring] 10%Q).2 = [AreaExceedsMaximum (25000000 / 1000000) 10]%Q ∧
  (validate0 [large_ring] 100%Q).2 = [InvalidLatitude 95; InvalidLatitude 95]%Q.
Proof. split; reflexivity. Qed.

End C2Example.



(** ** Overpass relations *)

Section C5.
Import Schemas Json Overpass.
Variable source_type : DataSourceType.
Variable _apply_meaningful_naming : Feature → Feature.

(** C5 (what the code does).  A relation never yields a feature: with an
    embedded geometry array the branch builds the Polygon or LineString
    feature and then falls through to the final [return None].  The documented
    conversion, the rule of a way, yields a feature for every such relation
    with at least two usable nodes. *)
Theorem C5_relation_never_converted (element : Element) :
  el_type element = Some "relation" →
  _convert_osm_element_to_feature source_type _apply_meaningful_naming element = None ∧
  ∀ coords, el_geometry element ≫= geometry_coords = Some coords →
    2 ≤ length coords →
    relation_feature_as_documented element
    = Some {| feature_id := Some (element_ref "relation" (el_id element));
              feature_geometry :=
                Some (if is_closed_ring coords then Polygon [coords]
                      else LineString coords);
              properties := seed_properties "relation" (el_id element)
                              (el_tags element) |}.
Proof.
  intros Hrel. split.
  - unfold _convert_osm_element_to_feature. rewrite Hrel.
    repeat case_decide; try done; try naive_solver.
    destruct (el_geometry element) as [nodes|]; [|done].
    destruct (geometry_coords nodes) as [coords|]; [|done].
    destruct (is_closed_ring coords); [done|]. by case_decide.
  - intros coords Hc Hlen. unfold relation_feature_as_documented. rewrite Hc.
    case_decide; [lia|done].
Qed.

End C5.

(** A building relation whose geometry is a closed ring of five nodes, and
    the way with the same ring. *)
Module C5Example.
Import Schemas Json Overpass.

Definition ring : list (option Geometry.point) :=
  [Some (0, 0); Some (1, 0); Some (1, 1); Some (0, 1); Some (0, 0)]%Q.

Definition relation0 : Element :=
  {| el_type := Some "relation"; el_id := Some 42%Z;
     el_tags := {[ "building" := "yes" ]};
     el_lat := None; el_lon := None; el_geometry := Some ring; el_members := [] |}.

Definition way0 : Element :=
  {| el_type := Some "way"; el_id := Some 42%Z;
     el_tags := {[ "building" := "yes" ]};
     el_lat := None; el_lon := None; el_geometry := Some ring; el_members := [] |}.

Example way0_is_a_polygon :
  feature_geometry <$> _convert_osm_element_to_feature OSM_BUILDINGS id way0
  = Some (Some (Polygon [[(0, 0); (1, 0); (1, 1); (0, 1); (0, 0)]%Q])).
Proof. reflexivity. Qed.

Example relation0_is_dropped :
  _convert_osm_element_to_feature OSM_BUILDINGS id relation0 = None ∧
  _convert_overpass_to_geojson OSM_BUILDINGS id [relation0] = [].
Proof. split; reflexivity. Qed.

End C5Example.

Lemma C5_witness :
  Overpass._convert_osm_element_to_feature Schemas.OSM_BUILDINGS id
    C5Example.relation0 = None ∧
  Json.feature_geometry <$> Overpass.relation_feature_as_documented C5Example.relation0
  = Some (Some (Json.Polygon [[(0, 0); (1, 0); (1, 1); (0, 1); (0, 0)]%Q])).
Proof.
  destruct (C5_relation_never_converted Schemas.OSM_BUILDINGS id
              C5Example.relation0 eq_refl) as [Hnone Hdoc].
  split; [exact Hnone|].
  by rewrite (Hdoc [(0, 0); (1, 0); (1, 1); (0, 1); (0, 0)]%Q eq_refl ltac:(simpl; lia)).
Defined.

(** ** Building properties: the confidence value *)

Section RoundFacts.
Open Scope Q_scope.

(** The integer [round] picks is the floor or its successor, whichever is
    within one half. *)
Lemma round_4_spec (x : Q) :
  ∃ k : Z, Py.round x 4 = inject_Z k * (1 # 10000) ∧
    x * 10000 - (1 # 2) <= inject_Z k ∧ inject_Z k <= x * 10000 + (1 # 2) ∧
    (Qfloor (x * 10000) <= k <= Qfloor (x * 10000) + 1)%Z.
Proof.
  unfold Py.round.
  change (inject_Z (10 ^ Z.of_nat 4)) with 10000.
  set (m := x * 10000). set (f := Qfloor m).
  pose proof (Qfloor_le m) as Hlo. pose proof (Qlt_floor m) as Hhi.
  fold f in Hlo, Hhi. rewrite inject_Z_plus in Hhi.
  change (inject_Z 1) with 1 in Hhi.
  assert (inject_Z (f + 1) = inject_Z (f + 1)) as _ by done.
  pose proof (inject_Z_plus f 1) as Hplus. change (inject_Z 1) with 1 in Hplus.
  destruct (Qlt_le_dec (m - inject_Z f) (1 # 2)) as [H1|H1].
  - exists f. split; [reflexivity|]. repeat split; try lra; lia.
  - destruct (Qlt_le_dec (1 # 2) (m - inject_Z f)) as [H2|H2].
    + exists (f + 1)%Z. split; [reflexivity|].
      repeat split; try lia; rewrite Hplus; lra.
    + destruct (Z.even f).
      * exists f. split; [reflexivity|]. repeat split; try lra; lia.
      * exists (f + 1)%Z. split; [reflexivity|].
        repeat split; try lia; rewrite Hplus; lra.
Qed.

Lemma round_4_close (x : Q) :
  x - (1 # 20000) <= Py.round x 4 ∧ Py.round x 4 <= x + (1 # 20000).
Proof.
  destruct (round_4_spec x) as (k & -> & Hlo & Hhi & _). split; lra.
Qed.

Lemma round_4_unit_interval (x : Q) :
  0 <= x ∧ x <= 1 → 0 <= Py.round x 4 ∧ Py.round x 4 <= 1.
Proof.
  intros [H0 H1]. destruct (round_4_spec x) as (k & -> & Hlo & Hhi & Hf1 & Hf2).
  assert (0 <= Qfloor (x * 10000))%Z as Hf0.
  { exact (Qfloor_resp_le 0 (x * 10000) ltac:(lra)). }
  assert (Qfloor (x * 10000) <= 10000)%Z as Hf3.
  { exact (Qfloor_resp_le (x * 10000) 10000 ltac:(lra)). }
  assert (0 <= k)%Z as Hk0 by lia.
  assert (k <= 10000)%Z as Hk1.
  { destruct (decide (k = 10001)%Z) as [->|]; [|lia].
    exfalso. change (inject_Z 10001) with 10001 in Hhi. lra. }
  rewrite Zle_Qle in Hk0, Hk1.
  change (inject_Z 0) with 0 in Hk0. change (inject_Z 10000) with 10000 in Hk1.
  split; lra.
Qed.

End RoundFacts.

Section C6.
Import Schemas Json BuildingProcessor.
Variable py_str : value → string.

(** What the loop copies for one property name. *)
Definition cleaned (original : gmap string value) (k : string) : option value :=
  match original !! k with
  | Some VNone | None => None
  | Some v => _clean_property_value py_str k v
  end.

Lemma copy_essential_lookup original acc a k :
  copy_essential py_str original acc a !! k
  = if decide (a = k)
    then match cleaned original k with Some c => Some c | None => acc !! k end
    else acc !! k.
Proof.
  unfold copy_essential, cleaned. case_decide as Hak.
  - subst a. destruct (original !! k) as [v|]; [|done].
    destruct v; try done;
      (destruct (_clean_property_value py_str k _); [by rewrite lookup_insert_eq|done]).
  - destruct (original !! a) as [v|]; [|done].
    destruct v; try done;
      (destruct (_clean_property_value py_str a _); [by rewrite lookup_insert_ne|done]).
Qed.

Lemma copy_essential_fold_lookup original names acc k :
  foldl (copy_essential py_str original) acc names !! k
  = if decide (k ∈ names)
    then match cleaned original k with Some c => Some c | None => acc !! k end
    else acc !! k.
Proof.
  revert acc. induction names as [|a names IH]; intros acc.
  - by rewrite decide_False by apply not_elem_of_nil.
  - change (foldl (copy_essential py_str original) acc (a :: names))
      with (foldl (copy_essential py_str original)
              (copy_essential py_str original acc a) names).
    rewrite IH, copy_essential_lookup.
    destruct (decide (a = k)) as [->|Hne].
    + rewrite (decide_True (P:=k ∈ k :: names)) by by left.
      case_decide; by destruct (cleaned original k).
    + destruct (decide (k ∈ names)) as [Hin|Hin].
      * rewrite (decide_True (P:=k ∈ a :: names)) by by right. done.
      * rewrite (decide_False (P:=k ∈ a :: names)); [done|].
        intros Hk. apply elem_of_cons in Hk as [Hk|Hk]; [by subst|done].
Qed.

(** The source-specific steps write other keys only. *)
Lemma clean_properties_confidence original source_type :
  _create_clean_building_properties py_str original source_type !! "confidence"
  = cleaned original "confidence".
Proof.
  unfold _create_clean_building_properties.
  set (clean := foldl _ _ _).
  assert (clean !! "confidence" = cleaned original "confidence") as Hc.
  { unfold clean. rewrite copy_essential_fold_lookup.
    rewrite decide_True by (unfold essential_building_properties; by left).
    destruct (cleaned original "confidence"); [done|].
    by rewrite lookup_singleton_ne. }
  destruct source_type; try done.
  - unfold _process_google_buildings_properties.
    repeat case_match; try done; by rewrite lookup_insert_ne.
  - unfold _process_osm_buildings_properties.
    repeat case_match; try done; by rewrite lookup_insert_ne.
Qed.

(** C6 (as the code has it).  For a feature of a building source whose bag
    holds a numeric [confidence] x: if x lies in [0, 1] the output bag holds x
    rounded to 4 decimals (still in [0, 1], at most 0.00005 away from x); if x
    lies outside [0, 1] the output bag holds no [confidence] at all. *)
Theorem C6_confidence_kept_in_range_else_dropped feature source_type v x :
  is_building_source source_type = true →
  properties feature !! "confidence" = Some v →
  Py.as_number v = Some x →
  let out := properties (process_building_feature py_str feature source_type) in
  ((0 <= x ∧ x <= 1)%Q →
     out !! "confidence" = Some (VFloat (Py.round x 4)) ∧
     (0 <= Py.round x 4 ∧ Py.round x 4 <= 1)%Q ∧
     (x - (1 # 20000) <= Py.round x 4 ∧ Py.round x 4 <= x + (1 # 20000))%Q) ∧
  (¬ (0 <= x ∧ x <= 1)%Q → out !! "confidence" = None).
Proof.
  intros Hb Hv Hx out. subst out. unfold process_building_feature.
  rewrite Hb. simpl. rewrite clean_properties_confidence.
  unfold cleaned. rewrite Hv.
  assert (_clean_property_value py_str "confidence" v
          = if Qle_bool 0 x && Qle_bool x 1
            then Some (VFloat (Py.round x 4)) else None) as Hclean.
  { unfold _clean_property_value. rewrite decide_True by done. by rewrite Hx. }
  assert (match v with VNone => None | _ => _clean_property_value py_str "confidence" v end
          = _clean_property_value py_str "confidence" v) as -> by by destruct v.
  rewrite Hclean. split.
  - intros Hr. rewrite (proj2 (in_range_iff 0 1 x) Hr).
    split; [done|]. split; [by apply round_4_unit_interval|apply round_4_close].
  - intros Hr. destruct (Qle_bool 0 x && Qle_bool x 1) eqn:Hbool; [|done].
    by apply in_range_iff in Hbool.
Qed.

End C6.

(** Features whose confidence lies above 1 and below 0, and one within. *)
Module C6Example.
Import Schemas Json BuildingProcessor.

Definition no_str (_ : value) : string := "".

Definition feature_with (confidence : value) : Feature :=
  {| feature_id := None; feature_geometry := None;
     properties := {[ "confidence" := confidence ]} |}.

Definition out (confidence : value) : gmap string value :=
  properties (process_building_feature no_str (feature_with confidence)
                GOOGLE_BUILDINGS).

Example confidence_rounded :
  out (VFloat (123456 # 1000000)) !! "confidence"
  = Some (VFloat (Py.round (123456 # 1000000) 4)) ∧
  (Py.round (123456 # 1000000) 4 == 1235 # 10000)%Q ∧
  (Py.round (5 # 100000) 4 == 0)%Q ∧ (Py.round (15 # 100000) 4 == 2 # 10000)%Q.
Proof. repeat split; reflexivity. Qed.

End C6Example.

Lemma C6_counterexample :
  C6Example.out (Json.VFloat (3 # 2)) !! "confidence" = None ∧
  C6Example.out (Json.VFloat (-1 # 4)) !! "confidence" = None ∧
  C6Example.out (Json.VInt 2) = {[ "Name" := Json.VStr "" ]}.
Proof. repeat split; by vm_compute. Qed.

Lemma C6_witness :
  C6Example.out (Json.VFloat (1 # 2)) !! "confidence"
  = Some (Json.VFloat (Py.round (1 # 2) 4)).
Proof.
  refine (proj1 (proj1 (C6_confidence_kept_in_range_else_dropped C6Example.no_str
    (C6Example.feature_with (Json.VFloat (1 # 2))) Schemas.GOOGLE_BUILDINGS
    (Json.VFloat (1 # 2)) (1 # 2) eq_refl eq_refl eq_refl) _)).
  split; by vm_compute.
Defined.

(** ** CSV export *)

Section C7.
Import Schemas Json CsvExport.
Variable _geometry_to_wkt : geometry → string.

Lemma feature_data_dom source_type result feature key :
  is_Some (properties feature !! key) → Py.lower key ≠ "description" →
  clean_key key ∈ dom (feature_data _geometry_to_wkt source_type result feature).
Proof.
  unfold feature_data. set (base := <["atlas_source" := _]> _).
  revert key.
  apply (map_fold_weak_ind (λ acc (m : gmap string value),
    ∀ key, is_Some (m !! key) → Py.lower key ≠ "description" →
           clean_key key ∈ dom acc)).
  - intros key [v Hv]. by rewrite lookup_empty in Hv.
  - intros i x m acc Hi IH key Hkey Hdesc. unfold add_property.
    destruct (decide (i = key)) as [->|Hne].
    + rewrite decide_False by done. rewrite dom_insert_L.
      apply elem_of_union. left. by apply elem_of_singleton.
    + rewrite lookup_insert_ne in Hkey by done.
      case_decide; [by apply IH|].
      rewrite dom_insert_L. apply elem_of_union. right. by apply IH.
Qed.

Lemma column_order_elem (all_features : list (gmap string value)) col :
  col ∈ column_order all_features ↔ ∃ f, f ∈ all_features ∧ col ∈ dom f.
Proof.
  unfold column_order. rewrite elem_of_app, merge_sort_Permutation.
  rewrite !list_elem_of_filter, elem_of_elements, elem_of_union_list.
  split.
  - intros [[_ (X & HX & Hcol)]|[_ (X & HX & Hcol)]];
      apply list_elem_of_fmap in HX as (f & -> & Hf); eauto.
  - intros (f & Hf & Hcol).
    assert (∃ X : gset string, X ∈ dom <$> all_features ∧ col ∈ X) as HX.
    { exists (dom f). split; [|done]. apply list_elem_of_fmap. eauto. }
    destruct (is_atlas_column col) eqn:Ha; [left|right]; split; done.
Qed.

Lemma collect_features_elem (filtered : results_map) s result feature :
  filtered !! s = Some result → feature ∈ Processing.data result →
  feature_data _geometry_to_wkt s result feature
    ∈ collect_features _geometry_to_wkt filtered.
Proof.
  intros Hs Hf. unfold collect_features. apply list_elem_of_bind.
  exists (s, result). split; [|by apply elem_of_map_to_list].
  simpl. apply list_elem_of_fmap. eauto.
Qed.

Lemma collect_features_nil (filtered : results_map) :
  (∀ s result, filtered !! s = Some result → Processing.data result = []) →
  collect_features _geometry_to_wkt filtered = [].
Proof.
  intros Hall. unfold collect_features.
  destruct (map_to_list filtered ≫= _) as [|f l] eqn:Hb; [done|].
  assert (f ∈ f :: l) as Hin by by left. rewrite <- Hb in Hin.
  apply list_elem_of_bind in Hin as ([s result] & Hf & Hp).
  apply elem_of_map_to_list in Hp. simpl in Hf.
  rewrite (Hall s result Hp) in Hf. by apply elem_of_nil in Hf.
Qed.

(** C7 (as the code has it).  Every property key of an exported feature,
    except [description] in any letter case, appears in the header row with
    its spaces and hyphens replaced by underscores; and when the selected
    sources hold no feature the file has exactly two rows, the fixed header
    and the row carrying [No features found]. *)
Theorem C7_csv_header_columns (results : results_map)
    (sources : option (list DataSourceType)) :
  let rows := export _geometry_to_wkt results sources in
  (∀ s result feature key,
     filter_sources results sources !! s = Some result →
     feature ∈ Processing.data result →
     is_Some (properties feature !! key) →
     Py.lower key ≠ "description" →
     ∃ header body, rows = header :: body ∧ VStr (clean_key key) ∈ header) ∧
  ((∀ s result, filter_sources results sources !! s = Some result →
                Processing.data result = []) →
   rows = [ [VStr "atlas_source"; VStr "atlas_source_status"; VStr "message"];
            [VStr "N/A"; VStr "N/A"; VStr "No features found"] ]).
Proof.
  intros rows. subst rows. unfold export. split.
  - intros s result feature key Hs Hf Hkey Hdesc.
    pose proof (collect_features_elem _ _ _ _ Hs Hf) as Hin.
    set (all_features := collect_features _ _) in *.
    assert (clean_key key ∈ column_order all_features) as Hcol.
    { apply column_order_elem. eexists. split; [exact Hin|].
      by apply feature_data_dom. }
    destruct all_features as [|f l] eqn:Hall; [by apply elem_of_nil in Hin|].
    eexists _, _. split; [done|]. apply list_elem_of_fmap. eauto.
  - intros Hnone. by rewrite collect_features_nil.
Qed.

End C7.

(** A building with a [description] and a key that contains a space. *)
Module C7Example.
Import Schemas Json CsvExport.

Definition no_wkt (_ : geometry) : string := "".

Definition feature0 : Feature :=
  {| feature_id := None; feature_geometry := None;
     properties := <["description" := VStr "two storeys"]>
                   (<["building type" := VStr "house"]> ∅) |}.

Definition results0 : results_map :=
  {[ OSM_BUILDINGS :=
       {| Processing.source := OSM_BUILDINGS; Processing.status := COMPLETED;
          Processing.stats := {| Processing.count := 1;
                                 Processing.processing_time := 0%Q |};
          Processing.data := [feature0]; Processing.error := None |} ]}.

Example export_results0 :
  export no_wkt results0 None
  = [ VStr <$> ["atlas_source_status"; "atlas_source"; "building_type";
                "feature_id"; "geometry_type"; "geometry_wkt"];
      [VStr "completed"; VStr "osm_buildings"; VStr "house"; VNone; VNone; VNone] ].
Proof. by vm_compute. Qed.

Example export_empty :
  export no_wkt ∅ None
  = [ [VStr "atlas_source"; VStr "atlas_source_status"; VStr "message"];
      [VStr "N/A"; VStr "N/A"; VStr "No features found"] ].
Proof. reflexivity. Qed.

End C7Example.

Lemma C7_counterexample :
  ∃ header body,
    CsvExport.export C7Example.no_wkt C7Example.results0 None = header :: body ∧
    is_Some (Json.properties C7Example.feature0 !! "description") ∧
    is_Some (Json.properties C7Example.feature0 !! "building type") ∧
    (Json.VStr "description" ∉ header) ∧ Json.VStr "building type" ∉ header.
Proof.
  eexists _, _. split; [apply C7Example.export_results0|].
  split; [by eexists|]. split; [by eexists|].
  split; intros H; simpl in H;
    repeat (apply elem_of_cons in H as [H|H]; [discriminate H|]);
    by apply elem_of_nil in H.
Qed.

Lemma C7_witness :
  ∃ header body,
    CsvExport.export C7Example.no_wkt C7Example.results0 None = header :: body ∧
    Json.VStr "building_type" ∈ header.
Proof.
  refine (proj1 (C7_csv_header_columns C7Example.no_wkt C7Example.results0 None)
            Schemas.OSM_BUILDINGS _ C7Example.feature0 "building type" _ _ _ _).
  - by vm_compute.
  - by left.
  - by eexists.
  - by vm_compute.
Defined.

(** ** The buildings cleaner *)

Section CleanerTables.
Import Json BuildingsCleaner.
Context {G : Type}.
Implicit Types gdf : list (Row G).

Lemma filter_none {A} (P : A → Prop) `{!∀ x, Decision (P x)} (l : list A) :
  (∀ x, x ∈ l → ¬ P x) → filter P l = [].
Proof.
  intros Hnone. destruct (filter P l) as [|x k] eqn:Hf; [done|].
  assert (x ∈ filter P l) as Hx by (rewrite Hf; by left).
  apply list_elem_of_filter in Hx as [HP Hx]. by destruct (Hnone x Hx).
Qed.

(** [select] keeps, in order, the rows whose number passes, provided every
    number can be computed. *)
Lemma select_Some (key : Row G → option Q) (keep : Q → bool) gdf l :
  select key keep gdf = Some l →
  l = filter (λ r, keep <$> key r = Some true) gdf ∧
  Forall (λ r, is_Some (key r)) gdf.
Proof.
  unfold select. intros H.
  destruct (mapM _ gdf) as [keyed|] eqn:Hm; [|done]. simpl in H.
  inversion H; subst l; clear H. apply mapM_Some_1 in Hm.
  induction Hm as [|r p gdf keyed Hr _ [IH1 IH2]]; [by split|].
  destruct (key r) as [x|] eqn:Hx; [|done]. simpl in Hr.
  inversion Hr; subst p; clear Hr. split.
  - rewrite !filter_cons. cbn [snd fst]. rewrite Hx.
    destruct (keep x) eqn:Hk.
    + rewrite decide_True by done. rewrite decide_True by (simpl; by rewrite Hk).
      rewrite fmap_cons. by rewrite IH1.
    + rewrite decide_False by done.
      by rewrite decide_False by (simpl; rewrite Hk; by intros [=]).
  - constructor; [by rewrite Hx|done].
Qed.

Lemma select_is_Some (key : Row G → option Q) (keep : Q → bool) gdf :
  Forall (λ r, is_Some (key r)) gdf → is_Some (select key keep gdf).
Proof.
  intros Hall. unfold select.
  destruct (mapM _ gdf) as [keyed|] eqn:Hm; [by eexists|].
  apply mapM_None_1 in Hm. apply Exists_exists in Hm as (r & Hr & Hnone).
  rewrite Forall_forall in Hall. destruct (Hall r Hr) as [x Hx].
  by rewrite Hx in Hnone.
Qed.

Lemma select_nil (key : Row G → option Q) (keep : Q → bool) :
  select key keep [] = Some [].
Proof. done. Qed.

(** Column and geometry updates keep the rows in place, with their labels. *)
Lemma set_column_lookup name (f : Row G → value) gdf i :
  set_column name f gdf !! i
  = (λ r, {| label := label r; cols := <[name := f r]> (cols r); geom := geom r |})
      <$> gdf !! i.
Proof. unfold set_column. apply list_lookup_fmap. Qed.

Lemma map_geometry_lookup (f : G → G) gdf i :
  map_geometry f gdf !! i
  = (λ r, {| label := label r; cols := cols r; geom := f (geom r) |}) <$> gdf !! i.
Proof. unfold map_geometry. apply list_lookup_fmap. Qed.

Lemma map_geometry_labels (f : G → G) gdf :
  label <$> map_geometry f gdf = label <$> gdf.
Proof. unfold map_geometry. rewrite <- list_fmap_compose. done. Qed.

Lemma has_column_true name gdf r :
  r ∈ gdf → is_Some (cols r !! name) → has_column name gdf = true.
Proof.
  intros Hr Hc. unfold has_column. apply bool_decide_eq_true.
  apply Exists_exists. eauto.
Qed.

End CleanerTables.

Section CleanerFacts.
Import Schemas Json BuildingsCleaner.
Context {G Polygon : Type}.
Implicit Types gdf : list (Row G).
Variable py_str : value → string.
Variable py_float : string → option Q.
Variable shapely_shape : geometry → option G.
Variable mapping : G → option geometry.
Variable centroid : Polygon → option (Q * Q).
Variable to_crs : Z → G → G.
Variable buffer : G → Q → G.
Variable simplify : G → Q → G.
Variable geom_area : G → Q.
Variable geom_length : G → Q.
Variable pi : Q.
Variable mbr_sides : G → option (list Q).
Variable erodes_to_empty : G → Q → option bool.
Variable tree_query : list G → G → list nat.
Variable eroded_apart : Q → G → G → bool.
Variable inter_is_empty : G → G → bool.
Variable inter_area : G → G → Q.
Variable unary_union : list G → G.

Abbreviation table0 := (_feature_collection_to_gdf shapely_shape).
Abbreviation prepared :=
  (prepared_table py_float shapely_shape centroid to_crs buffer).
Abbreviation conf_cell := (confidence_cell py_float).
Abbreviation eff_area := (effective_area py_float geom_area).
Abbreviation wset := (working_set py_float geom_area).
Abbreviation passes :=
  (passes_shape_filters geom_area geom_length pi mbr_sides erodes_to_empty).
Abbreviation shapef :=
  (shape_filtered geom_area geom_length pi mbr_sides erodes_to_empty).
Abbreviation overlap :=
  (_is_significant_overlap geom_area eroded_apart inter_is_empty inter_area).
Abbreviation groups_of :=
  (overlap_groups geom_area tree_query eroded_apart inter_is_empty inter_area).
Abbreviation dedup :=
  (_deduplicate_within_source py_float geom_area tree_query eroded_apart
     inter_is_empty inter_area unary_union).
Abbreviation clean_google :=
  (_clean_google py_float shapely_shape centroid to_crs buffer simplify
     geom_area geom_length pi mbr_sides erodes_to_empty tree_query eroded_apart
     inter_is_empty inter_area unary_union).
Abbreviation clean :=
  (clean_google_buildings py_str py_float shapely_shape mapping centroid to_crs
     buffer simplify geom_area geom_length pi mbr_sides erodes_to_empty
     tree_query eroded_apart inter_is_empty inter_area unary_union).

(** The features that become rows: those with a geometry, in order. *)
Definition records_of (features : list Feature) : list Feature :=
  filter (λ f, is_Some (feature_geometry f)) features.

Lemma table0_rows features gdf0 :
  table0 features = gdf0 → gdf0 ≠ [] →
  Forall2 (λ f r, cols r = delete "geometry" (properties f))
          (records_of features) gdf0 ∧
  ∀ i r, gdf0 !! i = Some r → label r = i.
Proof.
  unfold _feature_collection_to_gdf. intros <- Hne.
  destruct (mapM _ features) as [records|] eqn:Hm; [|done]. clear Hne.
  apply mapM_Some_1 in Hm. split.
  - assert (Forall2 (λ f (rec : gmap string value * G),
              rec.1 = delete "geometry" (properties f))
              (records_of features) (omap id records)) as Hrec.
    { unfold records_of.
      induction Hm as [|f rec features records Hf _ IH]; [constructor|].
      rewrite filter_cons. destruct (feature_geometry f) as [g|] eqn:Hg.
      - rewrite decide_True by by eexists.
        destruct (shapely_shape g) as [sg|]; [|done]. simpl in Hf.
        inversion Hf; subst rec. simpl. by constructor.
      - rewrite decide_False by by intros [? ?].
        inversion Hf; subst rec. simpl. done. }
    clear Hm.
    assert (∀ k : nat → nat,
      Forall2 (λ f (r : Row G), cols r = delete "geometry" (properties f))
        (records_of features)
        (imap (λ i (record : gmap string value * G),
                 {| label := k i; cols := record.1; geom := record.2 |})
              (omap id records))) as Hk; [|apply (Hk id)].
    induction Hrec as [|f rec fs recs Hf _ IH]; intros k; [constructor|].
    rewrite imap_cons. constructor; [done|]. apply (IH (k ∘ S)).
  - intros i r Hr. rewrite list_lookup_imap in Hr.
    destruct (omap id records !! i); [|done]. simpl in Hr. by inversion Hr.
Qed.

(** Preparing the table keeps every row in place with its label; it writes
    the [confidence] column only when the table has none. *)
Lemma prepared_lookup features aoi cfg i :
  ∃ g : Row G → Row G,
    prepared features aoi cfg !! i = g <$> table0 features !! i ∧
    ∀ r0, label (g r0) = label r0 ∧
          (has_column "confidence" (table0 features) = true →
           cols (g r0) !! "confidence" = cols r0 !! "confidence").
Proof.
  unfold prepared_table. set (t0 := table0 features).
  set (t1 := if has_column "confidence" t0 then t0 else _).
  set (t2 := if has_column "area_in_meters" t1 then t1 else _).
  set (t3 := map_geometry _ t2).
  assert (∃ g1, t1 !! i = g1 <$> t0 !! i ∧
     ∀ r0, label (g1 r0) = label r0 ∧
           (has_column "confidence" t0 = true →
            cols (g1 r0) !! "confidence" = cols r0 !! "confidence"))
    as (g1 & H1 & Hg1).
  { unfold t1. destruct (has_column "confidence" t0).
    - exists id. split; [by destruct (t0 !! i)|done].
    - eexists. split; [apply set_column_lookup|]. by intros r0. }
  assert (∃ g2, t2 !! i = g2 <$> t1 !! i ∧
     ∀ r, label (g2 r) = label r ∧
          cols (g2 r) !! "confidence" = cols r !! "confidence")
    as (g2 & H2 & Hg2).
  { unfold t2. destruct (has_column "area_in_meters" t1).
    - exists id. split; [by destruct (t1 !! i)|done].
    - eexists. split; [apply set_column_lookup|]. intros r. simpl.
      split; [done|]. by rewrite lookup_insert_ne. }
  assert (∃ g3, (if make_valid cfg then map_geometry (λ g, buffer g 0) t3 else t3) !! i
                = g3 <$> t2 !! i ∧
     ∀ r, label (g3 r) = label r ∧ cols (g3 r) = cols r)
    as (g3 & H3 & Hg3).
  { destruct (make_valid cfg).
    - eexists (λ r, {| label := label r; cols := cols r;
                       geom := buffer (to_crs _ (geom r)) 0 |}).
      split; [|done]. rewrite map_geometry_lookup. unfold t3.
      rewrite map_geometry_lookup. by destruct (t2 !! i).
    - eexists. split; [apply map_geometry_lookup|done]. }
  exists (λ r0, g3 (g2 (g1 r0))). split.
  - rewrite H3, H2, H1. by destruct (t0 !! i).
  - intros r0. destruct (Hg3 (g2 (g1 r0))) as [-> ->].
    destruct (Hg2 (g1 r0)) as [-> ->]. destruct (Hg1 r0) as [-> Hc]. done.
Qed.

(** A row survives the two filters: its confidence reaches the minimum and,
    when a minimum area is set, so does its effective area. *)
Definition survives (cfg : BuildingsCleanerConfig) (r : Row G) : Prop :=
  (λ c, Qle_bool (google_min_confidence cfg) c) <$> conf_cell r = Some true ∧
  (Qle_bool (min_area_m2 cfg) 0 = false →
   (λ a, Qle_bool (min_area_m2 cfg) a) <$> eff_area r = Some true).

Lemma working_set_Some cfg gdf ws :
  wset cfg gdf = Some ws → ∀ r, r ∈ ws ↔ r ∈ gdf ∧ survives cfg r.
Proof.
  unfold working_set, survives. intros H r.
  destruct (select conf_cell _ gdf) as [l1|] eqn:H1; [|done]. simpl in H.
  apply select_Some in H1 as [-> _].
  destruct (Qle_bool (min_area_m2 cfg) 0) eqn:Hmin; simpl in H.
  - inversion H; subst ws. rewrite list_elem_of_filter. naive_solver.
  - apply select_Some in H as [-> _]. rewrite !list_elem_of_filter. naive_solver.
Qed.

Lemma working_set_all_low cfg gdf :
  (∀ r, r ∈ gdf → ∃ c, conf_cell r = Some c ∧
                       Qle_bool (google_min_confidence cfg) c = false) →
  wset cfg gdf = Some [].
Proof.
  intros Hlow. unfold working_set.
  destruct (select_is_Some conf_cell
              (λ c, Qle_bool (google_min_confidence cfg) c) gdf) as [l1 H1].
  { apply Forall_forall. intros r Hr. destruct (Hlow r Hr) as (c & -> & _). by eexists. }
  rewrite H1. simpl. apply select_Some in H1 as [-> _].
  assert (filter (λ r : Row G,
            (λ c, Qle_bool (google_min_confidence cfg) c) <$> conf_cell r = Some true)
            gdf = []) as ->.
  { apply filter_none. intros r Hr. destruct (Hlow r Hr) as (c & -> & Hc).
    simpl. rewrite Hc. by intros [=]. }
  by destruct (negb _).
Qed.

(** The shape filter keeps rows by their geometry alone, and keeps their
    label and their [confidence] cell. *)
Lemma shape_filtered_elem cfg gdf r' :
  r' ∈ shapef cfg gdf ↔
  ∃ r, r ∈ gdf ∧ passes cfg r = true ∧
       label r' = label r ∧ geom r' = geom r ∧
       cols r' !! "confidence" = cols r !! "confidence" ∧
       r' ∈ shapef cfg gdf.
Proof.
  split; [|by intros (? & _ & _ & _ & _ & _ & ?)].
  intros Hin. unfold shape_filtered in Hin.
  pose proof Hin as Hin'. apply list_elem_of_filter in Hin as [Hpass Hin].
  unfold add_shape_metrics, set_column in Hin.
  apply list_elem_of_fmap in Hin as (r3 & -> & Hin).
  apply list_elem_of_fmap in Hin as (r2 & -> & Hin).
  apply list_elem_of_fmap in Hin as (r & -> & Hin).
  exists r. split; [done|]. split; [exact Hpass|]. simpl.
  repeat split; try done. by rewrite !lookup_insert_ne.
Qed.

Lemma shape_filtered_keeps cfg gdf r :
  r ∈ gdf → passes cfg r = true →
  ∃ r', r' ∈ shapef cfg gdf ∧ label r' = label r ∧ geom r' = geom r.
Proof.
  intros Hr Hpass. unfold shape_filtered, add_shape_metrics, set_column.
  eexists. split.
  - apply list_elem_of_filter. split; [|].
    2:{ apply list_elem_of_fmap. eexists. split; [reflexivity|].
        apply list_elem_of_fmap. eexists. split; [reflexivity|].
        apply list_elem_of_fmap. eexists. split; [reflexivity|exact Hr]. }
    exact Hpass.
  - done.
Qed.

(** No two rows at different positions overlap significantly: the scan of
    the candidates adds nothing to a group, so no group reaches two members. *)
Definition no_overlaps (geoms : list G) (cfg : BuildingsCleanerConfig) : Prop :=
  ∀ i j gi gj, i ≠ j → geoms !! i = Some gi → geoms !! j = Some gj →
               overlap gi gj cfg = false.

Lemma scan_no_overlap (geoms : list G) cfg i gi candidates st :
  no_overlaps geoms cfg → geoms !! i = Some gi →
  Forall (λ j, j ≠ i) candidates →
  foldl (scan_candidate geom_area eroded_apart inter_is_empty inter_area
           geoms cfg gi) st candidates = st.
Proof.
  intros Hno Hi Hc. revert st.
  induction Hc as [|j l Hj _ IH]; intros st; [done|].
  simpl. assert (scan_candidate geom_area eroded_apart inter_is_empty inter_area
                   geoms cfg gi st j = st) as ->; [|by apply IH].
  unfold scan_candidate. case_decide; [done|].
  destruct (geoms !! j) as [gj|] eqn:Hgj; [|done].
  by rewrite (Hno i j gi gj).
Qed.

Lemma visit_no_overlap (geoms : list G) cfg st i g :
  no_overlaps geoms cfg → geoms !! i = Some g →
  (visit geom_area tree_query eroded_apart inter_is_empty inter_area
     geoms cfg st (i, g)).2 = st.2.
Proof.
  intros Hno Hi. unfold visit. case_decide; [done|].
  rewrite (scan_no_overlap geoms cfg i g); [done..|].
  apply Forall_forall. intros j Hj. by apply list_elem_of_filter in Hj as [? _].
Qed.

Lemma overlap_groups_nil (geoms : list G) cfg :
  no_overlaps geoms cfg → groups_of geoms cfg = [].
Proof.
  intros Hno. unfold overlap_groups.
  assert (∀ (l : list (nat * G)) st, (∀ p, p ∈ l → geoms !! p.1 = Some p.2) →
    (foldl (visit geom_area tree_query eroded_apart inter_is_empty inter_area
              geoms cfg) st l).2 = st.2) as Hfold.
  { induction l as [|[i g] l IH]; intros st Hl; [done|]. simpl.
    rewrite IH by (intros p Hp; apply Hl; by right).
    apply visit_no_overlap; [done|]. apply (Hl (i, g)). by left. }
  rewrite Hfold; [done|].
  intros p Hp. by apply elem_of_lookup_imap in Hp as (i & g & -> & Hg).
Qed.

Lemma dedup_no_groups gdf cfg :
  groups_of (geom <$> gdf) cfg = [] → dedup gdf cfg = Some gdf.
Proof.
  intros Hg. unfold _deduplicate_within_source. case_decide; [done|].
  by rewrite Hg.
Qed.

(** Without the union strategy deduplication only removes rows. *)
Lemma resolve_group_no_union gdf cfg group res :
  strategy cfg ≠ "union" →
  resolve_group py_float geom_area unary_union gdf cfg group = Some res →
  res.2 = [].
Proof.
  intros Hs. unfold resolve_group. case_decide.
  - destruct (if has_column _ _ then _ else _); [|done]. simpl. by intros [= <-].
  - rewrite decide_False by done.
    destruct (area_idxmax _ _); [|done]. simpl. by intros [= <-].
Qed.

Lemma dedup_no_union_subset gdf cfg out :
  strategy cfg ≠ "union" → dedup gdf cfg = Some out →
  ∀ r, r ∈ out → r ∈ gdf.
Proof.
  intros Hs. unfold _deduplicate_within_source. case_decide; [by intros [= <-]|].
  destruct (overlap_groups _ _ _ _ _ _ cfg) as [|grp grps]; [by intros [= <-]|].
  destruct (mapM _ (grp :: grps)) as [resolved|] eqn:Hm; [|done]. simpl.
  assert (mjoin (snd <$> resolved) = []) as ->.
  { apply mapM_Some_1 in Hm. clear -Hm Hs.
    induction Hm as [|g res l k Hres _ IH]; [done|].
    rewrite fmap_cons.
    change (mjoin (res.2 :: (snd <$> k))) with (res.2 ++ mjoin (snd <$> k)).
    by rewrite IH, (resolve_group_no_union _ _ _ _ Hs Hres). }
  unfold drop_labels. case_decide; [|done]. simpl. intros [= <-] r Hr.
  by apply list_elem_of_filter in Hr as [_ Hr].
Qed.

(** The rows of the prepared table are the features with a geometry, each
    at its position, labelled by it, with the feature's own [confidence]. *)
Lemma prepared_rows features aoi cfg :
  table0 features ≠ [] →
  (∀ i r, prepared features aoi cfg !! i = Some r →
     label r = i ∧
     ∃ f, records_of features !! i = Some f ∧
          (is_Some (properties f !! "confidence") →
           cols r !! "confidence" = properties f !! "confidence")) ∧
  (∀ i f, records_of features !! i = Some f →
     is_Some (prepared features aoi cfg !! i)).
Proof.
  intros Hne. destruct (table0_rows features _ eq_refl Hne) as [Hrec Hlab].
  split.
  - intros i r Hr. destruct (prepared_lookup features aoi cfg i) as (g & Hg & Hprop).
    rewrite Hr in Hg. destruct (table0 features !! i) as [r0|] eqn:Hr0; [|done].
    simpl in Hg. inversion Hg; subst r; clear Hg.
    destruct (Hprop r0) as [Hl Hc]. split; [by rewrite Hl; apply Hlab|].
    destruct (Forall2_lookup_r _ _ _ _ _ Hrec Hr0) as (f & Hf & Hcols).
    exists f. split; [done|]. intros Hconf.
    assert (cols r0 !! "confidence" = properties f !! "confidence") as Hsame
      by by rewrite Hcols, lookup_delete_ne.
    rewrite Hc; [done|]. apply (has_column_true _ _ r0).
    + by eapply list_elem_of_lookup_2.
    + by rewrite Hsame.
  - intros i f Hf.
    destruct (Forall2_lookup_l _ _ _ _ _ Hrec Hf) as (r0 & Hr0 & _).
    destruct (prepared_lookup features aoi cfg i) as (g & -> & _).
    rewrite Hr0. by eexists.
Qed.

Lemma prepared_nil features aoi cfg :
  table0 features = [] → prepared features aoi cfg = [].
Proof.
  intros H0. destruct (prepared features aoi cfg) as [|r l] eqn:Hp; [done|].
  destruct (prepared_lookup features aoi cfg 0) as (g & Hg & _).
  by rewrite Hp, H0 in Hg.
Qed.

(** A numeric confidence cell reads back as its number. *)
Lemma conf_cell_number (r : Row G) v x :
  cols r !! "confidence" = Some v → Py.as_number v = Some x →
  conf_cell r = Some x.
Proof.
  intros Hv Hx. unfold confidence_cell. rewrite Hv.
  destruct v; simpl in *; try done; by inversion Hx.
Qed.

Lemma rebuilt_confidence cfg features aoi gdf i f x :
  strategy cfg ≠ "union" →
  clean_google features aoi cfg = Cleaned gdf →
  records_of features !! i = Some f →
  properties f !! "confidence" = Some (VFloat x) →
  i ∈ (label <$> gdf) → Qle_bool (google_min_confidence cfg) x = true.
Proof.
  intros Hs Hclean Hf Hconf Hi. unfold _clean_google in Hclean.
  destruct (table0 features) as [|r0 t0] eqn:H0; [done|].
  assert (table0 features ≠ []) as Hne by by rewrite H0.
  destruct (wset cfg _) as [[|w ws]|] eqn:Hw; [done| |done].
  destruct (dedup _ cfg) as [d|] eqn:Hd; [|done].
  assert (i ∈ (label <$> d)) as Hid.
  { inversion Hclean; subst gdf. rewrite map_geometry_labels in Hi.
    destruct (simplify_tolerance_m cfg) as [tol|]; [|done].
    destruct (Qle_bool tol 0); [done|]. by rewrite map_geometry_labels in Hi. }
  apply list_elem_of_fmap in Hid as (r' & Hl & Hr').
  apply (dedup_no_union_subset _ _ _ Hs Hd) in Hr'.
  apply shape_filtered_elem in Hr' as (r & Hr & _ & Hlr & _).
  apply (working_set_Some _ _ _ Hw) in Hr as [Hr [Hsurv _]].
  apply list_elem_of_lookup_1 in Hr as [j Hj].
  destruct (prepared_rows features aoi cfg Hne) as [Hrows _].
  destruct (Hrows j r Hj) as (Hlab & f' & Hf' & Hc).
  assert (j = i) as -> by congruence.
  rewrite Hf in Hf'. inversion Hf'; subst f'.
  rewrite Hconf in Hc. specialize (Hc ltac:(by eexists)).
  rewrite (conf_cell_number r (VFloat x) x Hc eq_refl) in Hsurv.
  simpl in Hsurv. by inversion Hsurv.
Qed.

Lemma kept_without_overlap cfg features aoi ws i r :
  wset cfg (prepared features aoi cfg) = Some ws →
  no_overlaps (geom <$> shapef cfg ws) cfg →
  prepared features aoi cfg !! i = Some r →
  survives cfg r → passes cfg r = true →
  ∃ gdf, clean_google features aoi cfg = Cleaned gdf ∧ i ∈ (label <$> gdf).
Proof.
  intros Hw Hno Hr Hsurv Hpass. unfold _clean_google.
  destruct (table0 features) as [|r0 t0] eqn:H0.
  { by rewrite (prepared_nil features aoi cfg H0) in Hr. }
  assert (table0 features ≠ []) as Hne by by rewrite H0.
  destruct (prepared_rows features aoi cfg Hne) as [Hrows _].
  destruct (Hrows i r Hr) as [Hlab _].
  assert (r ∈ ws) as Hin.
  { apply (working_set_Some _ _ _ Hw). split; [|done].
    by eapply list_elem_of_lookup_2. }
  rewrite Hw. destruct ws as [|w ws']; [by apply elem_of_nil in Hin|].
  destruct (shape_filtered_keeps cfg _ r Hin Hpass) as (r' & Hr' & Hl & _).
  rewrite (dedup_no_groups _ cfg (overlap_groups_nil _ cfg Hno)).
  eexists. split; [reflexivity|].
  rewrite map_geometry_labels.
  assert (i ∈ (label <$> shapef cfg (w :: ws'))) as Hi.
  { apply list_elem_of_fmap. exists r'. split; [congruence|done]. }
  destruct (simplify_tolerance_m cfg) as [tol|]; [|done].
  destruct (Qle_bool tol 0); [done|]. by rewrite map_geometry_labels.
Qed.

(** C9.  When the confidence and minimum-area filters leave no row, the
    cleaner hands back the collection it was given; so a collection whose
    features all carry a numeric confidence below the minimum comes out of
    the cleaning unchanged. *)
Theorem C9_empty_working_set_returns_input features aoi cfg :
  (wset cfg (prepared features aoi cfg) = Some [] →
   clean_google features aoi cfg = ReturnedInput ∧
   clean features aoi cfg = features) ∧
  ((∀ f, f ∈ features →
      ∃ v x, properties f !! "confidence" = Some v ∧
             Py.as_number v = Some x ∧
             Qle_bool (google_min_confidence cfg) x = false) →
   clean_google features aoi cfg = ReturnedInput ∧
   clean features aoi cfg = features).
Proof.
  assert (wset cfg (prepared features aoi cfg) = Some [] →
          clean_google features aoi cfg = ReturnedInput) as Hempty.
  { intros Hw. unfold _clean_google. rewrite Hw.
    by destruct (table0 features). }
  assert (clean_google features aoi cfg = ReturnedInput →
          clean features aoi cfg = features) as Hback.
  { intros Hc. unfold clean_google_buildings. by rewrite Hc. }
  split; [by auto|]. intros Hlow.
  destruct (table0 features) as [|r0 t0] eqn:H0.
  { assert (clean_google features aoi cfg = ReturnedInput) as Hc
      by (unfold _clean_google; by rewrite H0).
    auto. }
  assert (table0 features ≠ []) as Hne by by rewrite H0.
  assert (wset cfg (prepared features aoi cfg) = Some []) as Hw; [|by auto].
  apply working_set_all_low. intros r Hr.
  apply list_elem_of_lookup_1 in Hr as [i Hi].
  destruct (prepared_rows features aoi cfg Hne) as [Hrows _].
  destruct (Hrows i r Hi) as (_ & f & Hf & Hc).
  apply list_elem_of_lookup_2, list_elem_of_filter in Hf as [_ Hf].
  destruct (Hlow f Hf) as (v & x & Hv & Hx & Hmin).
  exists x. split; [|done].
  apply (conf_cell_number r v x); [|done]. rewrite Hc; [done|]. by rewrite Hv.
Qed.


End CleanerFacts.

(** *** The cleaner on three square footprints *)

Module CleanerExample.
Import Json BuildingsCleaner.

(** Shapely on axis-aligned rectangles given in metres: a geometry is its
    box [(minx, miny, maxx, maxy)], and reprojection leaves it alone. *)
Definition box : Type := Q * Q * Q * Q.

Definition rect (minx miny maxx maxy : Q) : geometry :=
  Polygon [[(minx, miny); (maxx, miny); (maxx, maxy); (minx, maxy); (minx, miny)]].

Definition shape (g : geometry) : option box :=
  match g with
  | Polygon [ring] => Geometry.bounds ring
  | _ => None
  end.

Definition mapping (b : box) : option geometry :=
  let '(minx, miny, maxx, maxy) := b in Some (rect minx miny maxx maxy).

Definition width (b : box) : Q := (b.1.2 - b.1.1.1)%Q.
Definition height (b : box) : Q := (b.2 - b.1.1.2)%Q.
Definition area (b : box) : Q := (width b * height b)%Q.
Definition length (b : box) : Q := (2 * (width b + height b))%Q.
Definition sides (b : box) : option (list Q) :=
  Some [width b; height b; width b; height b].
Definition erodes_to_empty (b : box) (d : Q) : option bool :=
  Some (Qle_bool (Qmin (width b) (height b)) (2 * d)%Q).

Definition inter (a b : box) : box :=
  (Qmax a.1.1.1 b.1.1.1, Qmax a.1.1.2 b.1.1.2, Qmin a.1.2 b.1.2, Qmin a.2 b.2).
Definition is_empty (b : box) : bool :=
  negb (Qle_bool 0 (width b)) || negb (Qle_bool 0 (height b)).
Definition inter_is_empty (a b : box) : bool := is_empty (inter a b).
Definition inter_area (a b : box) : Q :=
  if inter_is_empty a b then 0%Q else area (inter a b).
Definition erode (d : Q) (b : box) : box :=
  (b.1.1.1 + d, b.1.1.2 + d, b.1.2 - d, b.2 - d)%Q.
Definition eroded_apart (d : Q) (a b : box) : bool :=
  is_empty (erode d a) || is_empty (erode d b)
  || inter_is_empty (erode d a) (erode d b).
Definition tree_query (geoms : list box) (g : box) : list nat :=
  (filter (λ p : nat * box, inter_is_empty p.2 g = false)
          (imap (λ i b, (i, b)) geoms)).*1.
Definition unary_union (geoms : list box) : box :=
  foldr (λ b acc, (Qmin b.1.1.1 acc.1.1.1, Qmin b.1.1.2 acc.1.1.2,
                   Qmax b.1.2 acc.1.2, Qmax b.2 acc.2))
        (default (0, 0, 0, 0)%Q (head geoms)) geoms.

(** The example holds no text to parse. *)
Definition py_str (v : value) : string := "".
Definition py_float (s : string) : option Q := None.
(** An area of interest near Nairobi: UTM zone 37 south. *)
Definition centroid (aoi : unit) : option (Q * Q) := Some (368 # 10, - (13 # 10))%Q.

Definition building (confidence : Q) (g : geometry) : Feature :=
  {| feature_id := None; feature_geometry := Some g;
     properties := {[ "confidence" := VFloat confidence ]} |}.

Definition low : Feature := building (5 # 10) (rect 0 0 10 10).
Definition good : Feature := building (9 # 10) (rect 0 0 10 10).
Definition better : Feature := building (95 # 100) (rect 2 0 12 10).

Definition clean_google (features : list Feature) : outcome box :=
  _clean_google py_float shape centroid (λ _ g, g) (λ g _, g) (λ g _, g)
    area length (355 # 113) sides erodes_to_empty tree_query eroded_apart
    inter_is_empty inter_area unary_union features () default_config.

Definition clean (features : list Feature) : list Feature :=
  clean_google_buildings py_str py_float shape mapping centroid (λ _ g, g)
    (λ g _, g) (λ g _, g) area length (355 # 113) sides erodes_to_empty
    tree_query eroded_apart inter_is_empty inter_area unary_union features ()
    default_config.

Definition rebuilt (features : list Feature) : list (Row box) :=
  match clean_google features with Cleaned gdf => gdf | _ => [] end.

Definition prepared (features : list Feature) : list (Row box) :=
  prepared_table py_float shape centroid (λ _ g, g) (λ g _, g) features ()
    default_config.

Definition eff_area (r : Row box) : option Q := effective_area py_float area r.

Definition passes (r : Row box) : bool :=
  passes_shape_filters area length (355 # 113) sides erodes_to_empty
    default_config r.

End CleanerExample.



Lemma C9_witness :
  CleanerExample.clean_google [CleanerExample.low]
    = BuildingsCleaner.ReturnedInput ∧
  CleanerExample.clean [CleanerExample.low] = [CleanerExample.low].
Proof.
  refine (proj2 (C9_empty_working_set_returns_input
    CleanerExample.py_str CleanerExample.py_float CleanerExample.shape
    CleanerExample.mapping CleanerExample.centroid
    (λ _ g, g) (λ g _, g) (λ g _, g) CleanerExample.area CleanerExample.length
    (355 # 113) CleanerExample.sides CleanerExample.erodes_to_empty
    CleanerExample.tree_query CleanerExample.eroded_apart
    CleanerExample.inter_is_empty CleanerExample.inter_area
    CleanerExample.unary_union [CleanerExample.low] ()
    BuildingsCleaner.default_config) _).
  intros f Hf. apply list_elem_of_singleton in Hf. subst f.
  exists (Json.VFloat (5 # 10)), (5 # 10)%Q. by vm_compute.
Defined.

(** * Further properties of the code *)

(** ** The job store beyond one job *)

Section JobStoreFacts.
Import JobStorage.
Context {Response D : Type}.
Variable to_dict : Response → option D.
Variable of_dict : D → option Response.
Implicit Types self : InMemoryJobStorage D.

(** Storing, reading or deleting one job never loses the result of another
    job that has not expired: the only entries a store sweeps away are those
    whose expiry instant lies before the clock of the sweep. *)
Theorem other_jobs_are_kept self job_id other e :
  other ≠ job_id → _storage self !! other = Some e →
  (∀ result ttl t1 t2 t3, (t3 ≤ expires_at e)%Z →
     _storage (store_job_result to_dict self job_id result ttl t1 t2 t3).1
       !! other = Some e) ∧
  (∀ now, _storage (get_job_result of_dict self job_id now).1 !! other = Some e) ∧
  _storage (delete_job_result self job_id).1 !! other = Some e.
Proof.
  intros Hne He. split; [|split].
  - intros result ttl t1 t2 t3 Hle. unfold store_job_result.
    destruct (to_dict result) as [d|]; [|done]. simpl.
    unfold _cleanup_expired. simpl. case_decide; simpl.
    + by rewrite lookup_insert_ne.
    + apply map_lookup_filter_Some. split; [by rewrite lookup_insert_ne|].
      simpl. lia.
  - intros now. unfold get_job_result.
    destruct (_storage self !! job_id) as [job_data|]; [|done].
    case_decide; simpl; [|done]. by rewrite lookup_delete_ne.
  - simpl. by rewrite lookup_delete_ne.
Qed.

(** Deleting always reports success, whether or not the job was there;
    afterwards the job is absent at every instant, and deleting again changes
    nothing. *)
Theorem delete_then_get self job_id now :
  let self' := (delete_job_result self job_id).1 in
  (delete_job_result self job_id).2 = true ∧
  get_job_result of_dict self' job_id now = (self', None) ∧
  delete_job_result self' job_id = (self', true).
Proof.
  intros self'. subst self'. split; [done|]. split.
  - unfold get_job_result. simpl. by rewrite lookup_delete_eq.
  - unfold delete_job_result. simpl. by rewrite delete_delete_eq.
Qed.

(** The sweep of expired entries.  It never adds an entry and never removes
    one that has not expired.  When it runs, no expired entry is left.  It
    is skipped whenever the seconds field of the time since the last sweep is
    below the interval; that field drops whole days, so a sweep that comes a
    number of whole days plus less than the interval after the last one is
    skipped too, and expired entries stay in the map. *)
Theorem cleanup_sweeps_only_expired self now :
  let self' := _cleanup_expired self now in
  (∀ id e, _storage self' !! id = Some e → _storage self !! id = Some e) ∧
  (∀ id e, _storage self !! id = Some e → (now ≤ expires_at e)%Z →
           _storage self' !! id = Some e) ∧
  (¬ (timedelta_seconds (now - _last_cleanup self) < _cleanup_interval self)%Z →
   _last_cleanup self' = now ∧
   ∀ id e, _storage self' !! id = Some e → (now ≤ expires_at e)%Z) ∧
  (∀ days rest : Z,
     (0 ≤ rest < 1000000 * _cleanup_interval self)%Z →
     (_cleanup_interval self ≤ 86400)%Z →
     (now - _last_cleanup self = days * 86400000000 + rest)%Z →
     self' = self).
Proof.
  intros self'. subst self'. unfold _cleanup_expired.
  split; [|split; [|split]].
  - intros id e. case_decide; [done|]. simpl.
    by intros [? _]%map_lookup_filter_Some.
  - intros id e He Hle. case_decide; [done|]. simpl.
    apply map_lookup_filter_Some. split; [done|]. simpl. lia.
  - intros Hrun. rewrite decide_False by done. simpl. split; [done|].
    intros id e [_ Hk]%map_lookup_filter_Some. simpl in Hk. lia.
  - intros days rest Hrest Hint Hnow. rewrite decide_True; [done|].
    unfold timedelta_seconds. rewrite Hnow.
    rewrite Z.add_comm, Z.mod_add by lia.
    rewrite Z.mod_small by lia.
    apply Z.div_lt_upper_bound; lia.
Qed.

End JobStoreFacts.

(** Two jobs in one store; the second is stored 10 seconds later with the
    clock of the sweep before the first one's expiry. *)
Lemma other_jobs_are_kept_witness :
  let self := (JobStorage.store_job_result (D:=nat) Some
                 (JobStorage.__init__ 0) "job-1" 7 3600 0 0 0).1 in
  JobStorage._storage
    (JobStorage.store_job_result Some self "job-2" 8 3600 10000000 10000000
       10000000).1 !! "job-1"
  = Some {| JobStorage.entry_data := 7; JobStorage.expires_at := 3600000000;
            JobStorage.created_at := 0 |}.
Proof.
  intros self.
  refine (proj1 (other_jobs_are_kept (Response:=nat) Some Some self "job-2" "job-1"
                   _ _ _) 8 3600%Z 10000000%Z 10000000%Z 10000000%Z _).
  - discriminate.
  - by vm_compute.
  - by vm_compute.
Defined.

(** A sweep one day and ten seconds after the last one is skipped, although
    the only entry expired long before. *)
Lemma cleanup_sweeps_only_expired_witness :
  let self := {| JobStorage._storage :=
                   {[ "job-1" := {| JobStorage.entry_data := 7;
                                    JobStorage.expires_at := 1000000;
                                    JobStorage.created_at := 0 |} ]};
                 JobStorage._cleanup_interval := 300;
                 JobStorage._last_cleanup := 0 |} in
  JobStorage._cleanup_expired (D:=nat) self 86410000000 = self.
Proof.
  intros self.
  refine (proj2 (proj2 (proj2 (cleanup_sweeps_only_expired self 86410000000%Z)))
            1%Z 10000000%Z _ _ _); by vm_compute.
Defined.

(** ** The CSV table as a whole *)

Section CsvFacts.
Import Schemas Json CsvExport.
Variable _geometry_to_wkt : geometry → string.

(** Filtering by a list of sources keeps, of the requested sources, exactly
    those the results hold, each with its own result; a source that was not
    requested never appears, and without a list nothing is filtered. *)
Theorem filter_sources_lookup (results : results_map)
    (sources : option (list DataSourceType)) (s : DataSourceType) :
  filter_sources results sources !! s
  = match sources with
    | None => results !! s
    | Some requested => if decide (s ∈ requested) then results !! s else None
    end.
Proof.
  destruct sources as [requested|]; [|done]. unfold filter_sources.
  assert (∀ acc : results_map,
    foldl (λ filtered_results source_type,
             match results !! source_type with
             | Some result => <[source_type := result]> filtered_results
             | None => filtered_results
             end) acc requested !! s
    = match (if decide (s ∈ requested) then results !! s else None) with
      | Some r => Some r
      | None => acc !! s
      end) as Hfold.
  { induction requested as [|x l IH]; intros acc; cbn [foldl].
    - destruct (decide (s ∈ [])) as [Hin|_]; [by apply elem_of_nil in Hin|done].
    - rewrite IH.
      assert ((match results !! x with
               | Some result => <[x := result]> acc
               | None => acc
               end) !! s
              = if decide (s = x) then
                  match results !! s with Some r => Some r | None => acc !! s end
                else acc !! s) as ->.
      { destruct (decide (s = x)) as [Heq|Hne].
        - rewrite Heq. destruct (results !! x); [by rewrite lookup_insert_eq|done].
        - destruct (results !! x); [by rewrite lookup_insert_ne|done]. }
      destruct (results !! s); repeat case_decide; try done; exfalso; set_solver. }
  rewrite Hfold, lookup_empty. by destruct (decide _), (results !! s).
Qed.

Lemma column_order_NoDup (all_features : list (gmap string value)) :
  NoDup (column_order all_features).
Proof.
  unfold column_order. apply NoDup_app. split; [|split].
  - apply NoDup_filter, NoDup_elements.
  - intros col [Ha _]%list_elem_of_filter.
    rewrite merge_sort_Permutation. by intros [Hn _]%list_elem_of_filter.
  - rewrite merge_sort_Permutation. apply NoDup_filter, NoDup_elements.
Qed.

(** The written table is rectangular: there is a header, no column name
    occurs twice in it, and every row below it has one cell per column.
    Below the header comes one row per feature of the selected sources, or
    the single placeholder row when they hold none. *)
Theorem export_is_rectangular (results : results_map)
    (sources : option (list DataSourceType)) :
  ∃ header body,
    export _geometry_to_wkt results sources = header :: body ∧
    NoDup header ∧
    Forall (λ row, length row = length header) body ∧
    length body
    = Nat.max 1 (sum_list ((λ p, length (Processing.data p.2))
                             <$> map_to_list (filter_sources results sources))).
Proof.
  unfold export.
  assert (length (collect_features _geometry_to_wkt (filter_sources results sources))
          = sum_list ((λ p, length (Processing.data p.2))
                        <$> map_to_list (filter_sources results sources))) as Hlen.
  { unfold collect_features.
    induction (map_to_list (filter_sources results sources)) as [|p l IH]; [done|].
    rewrite bind_cons, length_app, length_fmap, IH. done. }
  destruct (collect_features _ _) as [|f fs] eqn:Hall.
  - eexists _, _. split; [done|]. rewrite <- Hlen. simpl. split; [|split; [|done]].
    + repeat (apply NoDup_cons; split;
                [rewrite ?elem_of_cons, elem_of_nil; naive_solver|]).
      apply NoDup_nil_2.
    + by repeat constructor.
  - eexists _, _. split; [done|]. rewrite <- Hlen. split; [|split].
    + apply NoDup_fmap_2; [by intros ?? [=]|apply column_order_NoDup].
    + apply Forall_fmap, Forall_forall. intros row _. simpl.
      by rewrite !length_fmap.
    + rewrite length_fmap. simpl. lia.
Qed.

(** The header names the [atlas_] columns first and then the other columns
    in ascending order. *)
Theorem export_header_order (results : results_map)
    (sources : option (list DataSourceType)) f fs :
  collect_features _geometry_to_wkt (filter_sources results sources) = f :: fs →
  ∃ atlas_columns other_columns body,
    export _geometry_to_wkt results sources
    = (VStr <$> atlas_columns ++ other_columns) :: body ∧
    Forall (λ col, is_atlas_column col = true) atlas_columns ∧
    Forall (λ col, is_atlas_column col = false) other_columns ∧
    Sorted String.le other_columns ∧
    "atlas_source" ∈ atlas_columns ∧ "atlas_source_status" ∈ atlas_columns.
Proof.
  intros Hall. unfold export. rewrite Hall. unfold column_order.
  eexists _, _, _. split; [reflexivity|]. split; [|split; [|split]].
  - apply Forall_forall. by intros col [? _]%list_elem_of_filter.
  - apply Forall_forall. intros col. rewrite merge_sort_Permutation.
    intros [Hn _]%list_elem_of_filter. by destruct (is_atlas_column col).
  - apply (Sorted_merge_sort _).
  - assert (∀ col, col ∈ dom f → is_atlas_column col = true →
      col ∈ filter (λ col, is_atlas_column col = true)
                   (elements (⋃ (dom <$> f :: fs) : gset string))) as Hin.
    { intros col Hd Ha. apply list_elem_of_filter. split; [done|].
      apply elem_of_elements, elem_of_union_list. exists (dom f).
      split; [by left|done]. }
    assert (f ∈ collect_features _geometry_to_wkt (filter_sources results sources))
      as Hf by (rewrite Hall; by left).
    apply list_elem_of_bind in Hf as ([s result] & Hf & _).
    apply list_elem_of_fmap in Hf as (feature & -> & _).
    assert (∀ col, col ∈ ["atlas_source"; "atlas_source_status"] →
      col ∈ dom (feature_data _geometry_to_wkt s result feature)) as Hbase.
    { intros col Hcol. unfold feature_data.
      apply (map_fold_weak_ind (λ acc (_ : gmap string value), col ∈ dom acc)).
      - rewrite !dom_insert_L.
        apply elem_of_cons in Hcol as [->|Hcol]; [set_solver|].
        apply list_elem_of_singleton in Hcol as ->. set_solver.
      - intros i x m acc _ IH. unfold add_property. case_decide; [done|].
        rewrite dom_insert_L. set_solver. }
    split; apply Hin; try done; apply Hbase; [by left|by right; left].
Qed.

End CsvFacts.

Module CsvSample.
Import Schemas Json CsvExport.

Definition no_wkt (_ : geometry) : string := "".

Definition road : Feature :=
  {| feature_id := Some "way/7"; feature_geometry := None;
     properties := <["surface" := VStr "paved"]> (<["highway" := VStr "track"]> ∅) |}.

Definition results : results_map :=
  {[ OSM_ROADS :=
       {| Processing.source := OSM_ROADS; Processing.status := COMPLETED;
          Processing.stats := {| Processing.count := 1;
                                 Processing.processing_time := 0%Q |};
          Processing.data := [road]; Processing.error := None |} ]}.

End CsvSample.

Lemma export_header_order_witness :
  ∃ atlas_columns other_columns body,
    CsvExport.export CsvSample.no_wkt CsvSample.results None
    = (Json.VStr <$> atlas_columns ++ other_columns) :: body ∧
    Forall (λ col, CsvExport.is_atlas_column col = true) atlas_columns ∧
    Forall (λ col, CsvExport.is_atlas_column col = false) other_columns ∧
    Sorted String.le other_columns ∧
    "atlas_source" ∈ atlas_columns ∧ "atlas_source_status" ∈ atlas_columns.
Proof.
  eapply (export_header_order CsvSample.no_wkt CsvSample.results None).
  vm_compute. reflexivity.
Defined.

(** ** The building property processor on whole collections *)

Section BuildingProcessorFacts.
Import Schemas Json BuildingProcessor.
Variable py_str : value → string.

Lemma round_2_spec (x : Q) :
  ∃ k : Z, Py.round x 2 = (inject_Z k * (1 # 100))%Q ∧
    (x * 100 - (1 # 2) <= inject_Z k)%Q ∧ (inject_Z k <= x * 100 + (1 # 2))%Q ∧
    (Qfloor (x * 100) <= k <= Qfloor (x * 100) + 1)%Z.
Proof.
  unfold Py.round.
  change (inject_Z (10 ^ Z.of_nat 2)) with 100%Q.
  set (m := (x * 100)%Q). set (f := Qfloor m).
  pose proof (Qfloor_le m) as Hlo. pose proof (Qlt_floor m) as Hhi.
  fold f in Hlo, Hhi. rewrite inject_Z_plus in Hhi.
  change (inject_Z 1) with 1%Q in Hhi.
  pose proof (inject_Z_plus f 1) as Hplus. change (inject_Z 1) with 1%Q in Hplus.
  destruct (Qlt_le_dec (m - inject_Z f) (1 # 2)) as [H1|H1].
  - exists f. split; [reflexivity|]. repeat split; try lra; lia.
  - destruct (Qlt_le_dec (1 # 2) (m - inject_Z f)) as [H2|H2].
    + exists (f + 1)%Z. split; [reflexivity|].
      repeat split; try lia; rewrite Hplus; lra.
    + destruct (Z.even f).
      * exists f. split; [reflexivity|]. repeat split; try lra; lia.
      * exists (f + 1)%Z. split; [reflexivity|].
        repeat split; try lia; rewrite Hplus; lra.
Qed.

(** The keys the source-specific steps leave alone hold what the loop over
    the essential names copied. *)
Lemma clean_properties_lookup original source_type k :
  k ≠ "longitude_latitude" → k ≠ "building_type" →
  _create_clean_building_properties py_str original source_type !! k
  = if decide (k ∈ essential_building_properties)
    then match cleaned py_str original k with
         | Some c => Some c
         | None => ({[ "Name" := VStr "" ]} : gmap string value) !! k
         end
    else ({[ "Name" := VStr "" ]} : gmap string value) !! k.
Proof.
  intros Hl Hb. unfold _create_clean_building_properties.
  rewrite <- copy_essential_fold_lookup. set (clean := foldl _ _ _).
  destruct source_type; try done.
  - unfold _process_google_buildings_properties.
    repeat case_match; try done; by rewrite lookup_insert_ne.
  - unfold _process_osm_buildings_properties.
    repeat case_match; try done; by rewrite lookup_insert_ne.
Qed.

Lemma clean_properties_keys original source_type k :
  is_Some (_create_clean_building_properties py_str original source_type !! k) →
  k = "Name" ∨ k ∈ essential_building_properties.
Proof.
  destruct (decide (k ∈ essential_building_properties)) as [|Hk]; [by right|].
  assert (k ≠ "longitude_latitude" ∧ k ≠ "building_type") as [Hl Hb].
  { split; intros ->; apply Hk; unfold essential_building_properties;
      rewrite !elem_of_cons; tauto. }
  rewrite clean_properties_lookup by done. rewrite decide_False by done.
  intros [v Hv]. apply lookup_singleton_Some in Hv as [<- _]. by left.
Qed.

(** Processing the collection of a building source keeps the number and the
    order of the features and, for each, its id and its geometry; the
    property bag that comes out has [Name] set to the empty string and apart
    from it only keys of the essential list.  A collection of any other
    source comes back as it is. *)
Theorem process_feature_collection_shape features source_type :
  let out := process_feature_collection py_str features source_type in
  (is_building_source source_type = false → out = features) ∧
  (is_building_source source_type = true →
   length out = length features ∧
   ∀ i f, features !! i = Some f →
     ∃ f', out !! i = Some f' ∧
       feature_id f' = feature_id f ∧
       feature_geometry f' = feature_geometry f ∧
       properties f' !! "Name" = Some (VStr "") ∧
       ∀ k, is_Some (properties f' !! k) →
            k = "Name" ∨ k ∈ essential_building_properties).
Proof.
  intros out. subst out. unfold process_feature_collection. split.
  - by intros ->.
  - intros Hb. rewrite Hb. simpl. split; [by rewrite length_fmap|].
    intros i f Hf. rewrite list_lookup_fmap, Hf. simpl. eexists. split; [done|].
    unfold process_building_feature. rewrite Hb. simpl.
    split; [done|]. split; [done|]. split.
    + rewrite clean_properties_lookup by done.
      rewrite decide_False; [done|].
      unfold essential_building_properties. rewrite !elem_of_cons, elem_of_nil.
      naive_solver.
    + apply clean_properties_keys.
Qed.

(** The numbers a building source's property bag keeps.  An [area_in_meters]
    that comes out is the rounding to 2 decimals of a positive number of the
    input; it is not negative and lies within 0.005 of that number.  A
    [height] or [levels] that comes out is a positive number of the input,
    unchanged. *)
Theorem numeric_properties_are_positive feature source_type :
  is_building_source source_type = true →
  let original := properties feature in
  let out := properties (process_building_feature py_str feature source_type) in
  (∀ v, out !! "area_in_meters" = Some v →
     ∃ x, original !! "area_in_meters" ≫= Py.as_number = Some x ∧
          (0 < x)%Q ∧ v = VFloat (Py.round x 2) ∧ (0 <= Py.round x 2)%Q ∧
          (x - (1 # 200) <= Py.round x 2)%Q ∧ (Py.round x 2 <= x + (1 # 200))%Q) ∧
  (∀ k v, k = "height" ∨ k = "levels" → out !! k = Some v →
     ∃ x, original !! k ≫= Py.as_number = Some x ∧ (0 < x)%Q ∧ v = VFloat x).
Proof.
  intros Hb original out. subst original out.
  unfold process_building_feature. rewrite Hb. simpl. split.
  - intros v. rewrite clean_properties_lookup by done.
    rewrite decide_True
      by (unfold essential_building_properties; rewrite !elem_of_cons; tauto).
    unfold cleaned.
    destruct (properties feature !! "area_in_meters") as [w|] eqn:Hw;
      [|by rewrite lookup_singleton_ne].
    assert (_clean_property_value py_str "area_in_meters" w
            = match Py.as_number w with
              | Some x => if negb (Qle_bool x 0)
                          then Some (VFloat (Py.round x 2)) else None
              | None => None
              end) as Hclean by done.
    assert (match w with VNone => None | _ =>
              _clean_property_value py_str "area_in_meters" w end
            = _clean_property_value py_str "area_in_meters" w) as Hnone
      by by destruct w.
    simpl. intros Hv.
    assert (_clean_property_value py_str "area_in_meters" w = Some v) as Hc.
    { destruct w; simpl in Hv |- *; try done;
        repeat case_match; simplify_eq; try done;
        by rewrite lookup_singleton_ne in Hv. }
    rewrite Hclean in Hc. destruct (Py.as_number w) as [x|]; [|done].
    destruct (Qle_bool x 0) eqn:Hx; [done|]. simpl in Hc. inversion Hc; subst v.
    assert (0 < x)%Q as Hpos.
    { apply Qnot_le_lt. intros Hle. apply Qle_bool_iff in Hle. congruence. }
    exists x. split; [done|]. split; [done|]. split; [done|].
    destruct (round_2_spec x) as (k & Hk & Hlo & Hhi & Hf1 & Hf2).
    assert (0 <= Qfloor (x * 100))%Z as Hf0.
    { exact (Qfloor_resp_le 0 (x * 100) ltac:(lra)). }
    assert (0 <= k)%Z as Hk0 by lia.
    rewrite Zle_Qle in Hk0. change (inject_Z 0) with 0%Q in Hk0.
    rewrite Hk. repeat split; lra.
  - intros k v Hk. rewrite clean_properties_lookup by (destruct Hk; by subst).
    rewrite decide_True
      by (unfold essential_building_properties; rewrite !elem_of_cons;
          destruct Hk; subst; tauto).
    unfold cleaned.
    destruct (properties feature !! k) as [w|] eqn:Hw;
      [|rewrite lookup_singleton_ne by (destruct Hk; by subst); done].
    assert (_clean_property_value py_str k w
            = match Py.as_number w with
              | Some x => if negb (Qle_bool x 0) then Some (VFloat x) else None
              | None => None
              end) as Hclean by (destruct Hk; by subst).
    simpl. intros Hv.
    assert (_clean_property_value py_str k w = Some v) as Hc.
    { destruct w; simpl in Hv |- *; try done;
        repeat case_match; simplify_eq; try done;
        rewrite lookup_singleton_ne in Hv by (destruct Hk; by subst); done. }
    rewrite Hclean in Hc. destruct (Py.as_number w) as [x|]; [|done].
    destruct (Qle_bool x 0) eqn:Hx; [done|]. simpl in Hc. inversion Hc; subst v.
    exists x. split; [done|]. split; [|done].
    apply Qnot_le_lt. intros Hle. apply Qle_bool_iff in Hle. congruence.
Qed.

End BuildingProcessorFacts.

Module BuildingSample.
Import Schemas Json BuildingProcessor.

Definition no_str (_ : value) : string := "".

Definition footprint : Feature :=
  {| feature_id := Some "b-1"; feature_geometry := None;
     properties := <["area_in_meters" := VFloat (12345 # 1000)]>
                   (<["levels" := VInt 2]> (<["roof" := VStr "flat"]> ∅)) |}.

End BuildingSample.

Lemma numeric_properties_are_positive_witness :
  ∃ x, Json.properties BuildingSample.footprint !! "area_in_meters"
         ≫= Py.as_number = Some x ∧
       (0 < x)%Q ∧
       Json.VFloat (Py.round (12345 # 1000) 2) = Json.VFloat (Py.round x 2) ∧
       (0 <= Py.round x 2)%Q ∧
       (x - (1 # 200) <= Py.round x 2)%Q ∧ (Py.round x 2 <= x + (1 # 200))%Q.
Proof.
  refine (proj1 (numeric_properties_are_positive BuildingSample.no_str
                   BuildingSample.footprint Schemas.GOOGLE_BUILDINGS eq_refl)
            (Json.VFloat (Py.round (12345 # 1000) 2)) _).
  by vm_compute.
Defined.

(** ** What the Overpass conversion keeps *)

Section OverpassFacts.
Import Schemas Json Overpass.
Variable source_type : DataSourceType.
Variable _apply_meaningful_naming : Feature → Feature.

Lemma geometry_coords_Some nodes coords :
  geometry_coords nodes = Some coords ↔ nodes = Some <$> coords.
Proof.
  unfold geometry_coords. split.
  - intros H. apply mapM_Some_1 in H.
    induction H as [|x y l k Hx _ IH]; [done|]. simpl in Hx. by subst.
  - intros ->. apply mapM_Some_2. induction coords; by constructor.
Qed.

Lemma seed_properties_tag kind element_id (tags : gmap string string) k v :
  tags !! k = Some v → seed_properties kind element_id tags !! k = Some (VStr v).
Proof.
  intros Hk. unfold seed_properties. apply lookup_union_Some_l.
  by rewrite lookup_fmap, Hk.
Qed.

(** For every source but the landmarks, each feature of the converted
    collection comes from a node or a way of the answer and carries every
    tag of that element under the tag's own key.  A node gives the point
    [(lon, lat)].  A way gives all its nodes, in their order and unchanged:
    as the ring of a polygon when there are at least four and the first
    equals the last, as a line otherwise; a way with fewer than two nodes
    gives no feature. *)
Theorem conversion_keeps_tags_and_coordinates elements f :
  source_type ≠ OSM_LANDMARKS →
  f ∈ _convert_overpass_to_geojson source_type _apply_meaningful_naming elements →
  ∃ element, element ∈ elements ∧
    (∀ k v, el_tags element !! k = Some v → properties f !! k = Some (VStr v)) ∧
    ((el_type element = Some "node" ∧
      feature_id f = Some (element_ref "node" (el_id element)) ∧
      ∃ lat lon, el_lat element = Some lat ∧ el_lon element = Some lon ∧
                 feature_geometry f = Some (Point (lon, lat))) ∨
     (el_type element = Some "way" ∧
      feature_id f = Some (element_ref "way" (el_id element)) ∧
      ∃ coords, el_geometry element = Some (Some <$> coords) ∧
                2 ≤ length coords ∧
                feature_geometry f
                = Some (if is_closed_ring coords then Polygon [coords]
                        else LineString coords))).
Proof.
  intros Hsrc Hf. unfold _convert_overpass_to_geojson in Hf.
  apply list_elem_of_omap in Hf as (element & Hin & Hconv).
  exists element. split; [done|].
  assert (∀ g, name_if_landmark source_type _apply_meaningful_naming g = g)
    as Hname by (intros g; unfold name_if_landmark; by rewrite decide_False).
  unfold _convert_osm_element_to_feature in Hconv.
  destruct (decide (el_type element = Some "node")) as [Hnode|_].
  - destruct (el_lat element) as [lat|] eqn:Hlat; [|done].
    destruct (el_lon element) as [lon|] eqn:Hlon; [|done].
    rewrite Hname in Hconv. inversion Hconv; subst f; clear Hconv. simpl. split.
    + intros k v. apply seed_properties_tag.
    + left. split; [done|]. split; [done|]. by exists lat, lon.
  - destruct (decide (el_type element = Some "way" ∧ is_Some (el_geometry element)))
      as [[Hway [nodes Hnodes]]|_].
    + rewrite Hnodes in Hconv. simpl in Hconv.
      destruct (geometry_coords nodes) as [coords|] eqn:Hcoords; [|done].
      destruct (decide (length coords < 2)) as [|Hlen]; [done|].
      rewrite Hname in Hconv. inversion Hconv; subst f; clear Hconv. simpl. split.
      * intros k v. apply seed_properties_tag.
      * right. split; [done|]. split; [done|]. exists coords.
        apply geometry_coords_Some in Hcoords as ->.
        split; [done|]. split; [lia|done].
    + destruct (decide (el_type element = Some "relation")); [|done].
      destruct (el_geometry element) as [nodes|]; [|done].
      destruct (geometry_coords nodes) as [coords|]; [|done].
      destruct (is_closed_ring coords); [done|]. by case_decide.
Qed.

End OverpassFacts.

Module OverpassSample.
Import Schemas Json Overpass.

(** A track of three nodes. *)
Definition track : Element :=
  {| el_type := Some "way"; el_id := Some 7%Z;
     el_tags := {[ "highway" := "track" ]};
     el_lat := None; el_lon := None;
     el_geometry := Some [Some (36 # 1, -1 # 1); Some (37 # 1, -1 # 1);
                          Some (37 # 1, -2 # 1)]%Q;
     el_members := [] |}.

Definition converted : list Feature :=
  _convert_overpass_to_geojson OSM_ROADS id [track].

End OverpassSample.

Lemma conversion_keeps_tags_and_coordinates_witness :
  ∃ element, element ∈ [OverpassSample.track] ∧
    (∀ k v, Overpass.el_tags element !! k = Some v →
       (Json.properties <$> head OverpassSample.converted) ≫= (.!! k)
       = Some (Json.VStr v)) ∧
    Overpass.el_type element = Some "way".
Proof.
  assert (∃ f, head OverpassSample.converted = Some f ∧
               f ∈ OverpassSample.converted) as (f & Hhead & Hf).
  { eexists. split; [by vm_compute|]. vm_compute. by left. }
  destruct (conversion_keeps_tags_and_coordinates Schemas.OSM_ROADS id
              [OverpassSample.track] f ltac:(discriminate) Hf)
    as (element & Hin & Htags & Hkind).
  exists element. split; [done|]. split.
  - intros k v Hk. rewrite Hhead. simpl. by apply Htags.
  - apply list_elem_of_singleton in Hin. subst element. reflexivity.
Defined.

(** ** The buildings cleaner: metrics, deduplication and rebuilding *)

Section CleanerPipelineFacts.
Import Schemas Json BuildingsCleaner.
Context {G Polygon : Type}.
Implicit Types gdf : list (Row G).
Variable py_str : value → string.
Variable py_float : string → option Q.
Variable shapely_shape : geometry → option G.
Variable mapping : G → option geometry.
Variable centroid : Polygon → option (Q * Q).
Variable to_crs : Z → G → G.
Variable buffer : G → Q → G.
Variable simplify : G → Q → G.
Variable geom_area : G → Q.
Variable geom_length : G → Q.
Variable pi : Q.
Variable mbr_sides : G → option (list Q).
Variable erodes_to_empty : G → Q → option bool.
Variable tree_query : list G → G → list nat.
Variable eroded_apart : Q → G → G → bool.
Variable inter_is_empty : G → G → bool.
Variable inter_area : G → G → Q.
Variable unary_union : list G → G.

Abbreviation table0 := (_feature_collection_to_gdf shapely_shape).
Abbreviation prepared :=
  (prepared_table py_float shapely_shape centroid to_crs buffer).
Abbreviation conf_cell := (confidence_cell py_float).
Abbreviation eff_area := (effective_area py_float geom_area).
Abbreviation wset := (working_set py_float geom_area).
Abbreviation passes :=
  (passes_shape_filters geom_area geom_length pi mbr_sides erodes_to_empty).
Abbreviation shapef :=
  (shape_filtered geom_area geom_length pi mbr_sides erodes_to_empty).
Abbreviation overlap :=
  (_is_significant_overlap geom_area eroded_apart inter_is_empty inter_area).
Abbreviation groups_of :=
  (overlap_groups geom_area tree_query eroded_apart inter_is_empty inter_area).
Abbreviation dedup :=
  (_deduplicate_within_source py_float geom_area tree_query eroded_apart
     inter_is_empty inter_area unary_union).
Abbreviation clean_google :=
  (_clean_google py_float shapely_shape centroid to_crs buffer simplify
     geom_area geom_length pi mbr_sides erodes_to_empty tree_query eroded_apart
     inter_is_empty inter_area unary_union).
Abbreviation clean :=
  (clean_google_buildings py_str py_float shapely_shape mapping centroid to_crs
     buffer simplify geom_area geom_length pi mbr_sides erodes_to_empty
     tree_query eroded_apart inter_is_empty inter_area unary_union).


(** *** Shape metrics *)

(** [x] halved [n] times. *)
Fixpoint halved (n : nat) (x : Q) : Q :=
  match n with
  | O => x
  | S n' => halved n' (x / 2)
  end.

Lemma halved_compat n x y : (x == y)%Q → (halved n x == halved n y)%Q.
Proof.
  revert x y. induction n as [|n IH]; intros x y Hxy; [done|].
  simpl. apply IH. by rewrite Hxy.
Qed.

(** The polygon eroded by [d] is empty exactly from [d = t] upwards. *)
Definition vanishes_from (poly : G) (t : Q) : Prop :=
  ∀ d, (0 < d)%Q → erodes_to_empty poly d = Some (Qle_bool t d).

Ltac half_to_mul :=
  repeat match goal with
  | |- context [Qdiv ?x 2] => change (Qdiv x 2) with (x * (1 # 2))%Q
  | H : context [Qdiv ?x 2] |- _ => change (Qdiv x 2) with (x * (1 # 2))%Q in H
  end.

(** The search keeps the vanishing width between its two ends. *)
Lemma min_width_search_bracket poly t rounds low high :
  vanishes_from poly t →
  (0 <= low)%Q → (low < t)%Q → (t <= high)%Q →
  ∃ l, min_width_search erodes_to_empty rounds poly low high = Some l ∧
       (low <= l)%Q ∧ (l < t)%Q ∧ (t <= l + halved rounds (high - low))%Q.
Proof.
  intros Hero. revert low high.
  induction rounds as [|rounds IH]; intros low high H0 Hlow Hhigh.
  - exists low. simpl. split; [done|]. split; [lra|]. split; [done|]. lra.
  - cbn [min_width_search halved]. half_to_mul.
    set (mid := ((low + high) * (1 # 2))%Q).
    assert (mid == (low + high) * (1 # 2))%Q as Hmid by reflexivity.
    assert (Qeq_bool mid 0 = false) as ->.
    { destruct (Qeq_bool mid 0) eqn:He; [|done].
      apply Qeq_bool_iff in He. lra. }
    rewrite (Hero mid ltac:(lra)).
    destruct (Qle_bool t mid) eqn:Ht.
    + apply Qle_bool_iff in Ht.
      destruct (IH low mid H0 Hlow Ht) as (l & -> & H1 & H2 & H3).
      exists l. split; [done|]. split; [done|]. split; [done|].
      rewrite (halved_compat rounds ((high - low) * (1 # 2)) (mid - low));
        [done|lra].
    + assert (mid < t)%Q as Hlt.
      { apply Qnot_le_lt. intros Hle. apply Qle_bool_iff in Hle. congruence. }
      destruct (IH mid high ltac:(lra) Hlt Hhigh) as (l & -> & H1 & H2 & H3).
      exists l. split; [done|]. split; [lra|]. split; [done|].
      rewrite (halved_compat rounds ((high - low) * (1 # 2)) (high - mid));
        [done|lra].
Qed.

(** Whatever Shapely answers, the search stays within its first bounds. *)
Lemma min_width_search_range poly rounds low high :
  (0 <= low)%Q → (low <= high)%Q →
  match min_width_search erodes_to_empty rounds poly low high with
  | Some l => (low <= l)%Q ∧ (l <= high)%Q ∧
              ((low < high)%Q → (0 < rounds)%nat → (l < high)%Q)
  | None => True
  end.
Proof.
  revert low high. induction rounds as [|rounds IH]; intros low high H0 Hle.
  - simpl. split; [lra|]. split; [done|]. intros _ ?. lia.
  - cbn [min_width_search]. half_to_mul.
    set (mid := ((low + high) * (1 # 2))%Q).
    assert (mid == (low + high) * (1 # 2))%Q as Hmid by reflexivity.
    assert (match min_width_search erodes_to_empty rounds poly low mid with
            | Some l => (low <= l ∧ l <= high ∧
                         (low < high → (0 < S rounds)%nat → l < high))%Q
            | None => True
            end) as Hleft.
    { pose proof (IH low mid H0 ltac:(lra)) as H.
      destruct (min_width_search erodes_to_empty rounds poly low mid); [|done].
      destruct H as (? & ? & _). split; [done|]. split; [lra|]. intros ? _. lra. }
    assert (match min_width_search erodes_to_empty rounds poly mid high with
            | Some l => (low <= l ∧ l <= high ∧
                         (low < high → (0 < S rounds)%nat → l < high))%Q
            | None => True
            end) as Hright.
    { pose proof (IH mid high ltac:(lra) ltac:(lra)) as H.
      destruct (min_width_search erodes_to_empty rounds poly mid high)
        as [l|] eqn:Hs; [|done].
      destruct H as (? & ? & Hstrict). split; [lra|]. split; [done|].
      intros Hlt _. destruct rounds as [|rounds'].
      - simpl in Hs. inversion Hs; subst l. lra.
      - apply Hstrict; [lra|lia]. }
    destruct (Qeq_bool mid 0); [done|].
    destruct (erodes_to_empty poly mid) as [[|]|]; done.
Qed.

Lemma foldl_Qmax_ge side sides : (side <= foldl Qmax side sides)%Q.
Proof.
  revert side. induction sides as [|s sides IH]; intros side; simpl; [lra|].
  eapply Qle_trans; [apply (Q.le_max_l side s)|apply IH].
Qed.

Lemma foldl_Qmin_le side sides : (foldl Qmin side sides <= side)%Q.
Proof.
  revert side. induction sides as [|s sides IH]; intros side; simpl; [lra|].
  eapply Qle_trans; [apply IH|apply Q.le_min_l].
Qed.

(** The width estimate.  If the polygon eroded by [d] is empty exactly from
    [d = t] upwards, with [0 < t <= 20], the eight rounds end on a value
    strictly below [2 t] and at most [40 / 256] below it: a footprint exactly
    as wide as the minimum width is reported narrower than it is. *)
Theorem min_width_is_bracketed poly t :
  (0 < t)%Q → (t <= 20)%Q →
  vanishes_from poly t →
  (2 * t - (5 # 32) <= _min_width erodes_to_empty poly)%Q ∧
  (_min_width erodes_to_empty poly < 2 * t)%Q.
Proof.
  intros H0 H20 Hero. unfold _min_width.
  destruct (min_width_search_bracket poly t 8 0 20 Hero ltac:(lra) H0 H20)
    as (l & -> & Hl0 & Hlt & Hge).
  assert (halved 8 (20 - 0) == 5 # 64)%Q as Hw by reflexivity.
  set (w := halved 8 (20 - 0)) in *. clearbody w. clear Hero. split; lra.
Qed.

(** The ranges of the three shape metrics, whatever Shapely answers: the
    width estimate lies in [0, 40); the elongation of a rectangle whose sides are not negative
    is at least 1, and it is 1 when the rectangle cannot be computed; the
    compactness of a polygon of non-negative area is not negative. *)
Theorem shape_metrics_ranges poly :
  (0 <= _min_width erodes_to_empty poly)%Q ∧
  (_min_width erodes_to_empty poly < 40)%Q ∧
  (∀ sides, mbr_sides poly = Some sides → Forall (λ s, (0 <= s)%Q) sides →
            (1 <= _elongation mbr_sides poly)%Q) ∧
  (mbr_sides poly = None → _elongation mbr_sides poly = 1%Q) ∧
  ((0 <= geom_area poly)%Q → (0 <= pi)%Q →
   (0 <= _compactness geom_area geom_length pi poly)%Q).
Proof.
  split; [|split; [|split; [|split]]].
  - unfold _min_width.
    pose proof (min_width_search_range poly 8 0 20 ltac:(lra) ltac:(lra)) as H.
    destruct (min_width_search _ _ _ _ _); [|lra]. destruct H as (? & ? & _). lra.
  - unfold _min_width.
    pose proof (min_width_search_range poly 8 0 20 ltac:(lra) ltac:(lra)) as H.
    destruct (min_width_search _ _ _ _ _); [|lra].
    destruct H as (? & ? & Hlt). specialize (Hlt ltac:(lra) ltac:(lia)). lra.
  - intros sides Hsides Hpos. unfold _elongation. rewrite Hsides.
    destruct sides as [|side rest]; [lra|].
    set (length := foldl Qmax side rest). set (shortest := foldl Qmin side rest).
    assert (shortest <= length)%Q as Hsl.
    { eapply Qle_trans; [apply foldl_Qmin_le|apply foldl_Qmax_ge]. }
    assert (0 <= length)%Q as Hl0.
    { eapply Qle_trans; [|apply foldl_Qmax_ge]. by inversion Hpos. }
    destruct (Qeq_bool length 0) eqn:Hz; [lra|].
    assert (0 < length)%Q as Hlpos.
    { destruct (Qlt_le_dec 0 length) as [|Hle]; [done|].
      assert (length == 0)%Q as He by lra.
      apply Qeq_bool_iff in He. congruence. }
    set (width := if Qle_bool shortest 0 then 1 # 1000000 else shortest).
    assert (0 < width)%Q as Hwpos.
    { unfold width. destruct (Qle_bool shortest 0) eqn:Hs; [reflexivity|].
      apply Qnot_le_lt. intros Hle. apply Qle_bool_iff in Hle. congruence. }
    destruct (Qlt_le_dec length width) as [Hlw|Hwl].
    + eapply Qle_trans; [|apply Q.le_max_r].
      apply Qle_shift_div_l; [done|lra].
    + eapply Qle_trans; [|apply Q.le_max_l].
      apply Qle_shift_div_l; [done|lra].
  - intros Hnone. unfold _elongation. by rewrite Hnone.
  - intros Ha Hpi. unfold _compactness.
    destruct (Qle_bool (geom_length poly) 0) eqn:Hp; [lra|].
    assert (0 < geom_length poly)%Q as Hlen.
    { apply Qnot_le_lt. intros Hle. apply Qle_bool_iff in Hle. congruence. }
    apply Qle_shift_div_l; [nra|]. nra.
Qed.

(** *** Deduplication and the rebuilt collection *)

(** Deduplication gives the table back unchanged when it has at most one
    row and when no two rows at different positions overlap significantly.
    With any strategy but [union], the table it returns is the table it was
    given with some rows removed, the others in their order. *)
Theorem deduplication_only_removes gdf cfg :
  (length gdf ≤ 1 → dedup gdf cfg = Some gdf) ∧
  (no_overlaps geom_area eroded_apart inter_is_empty inter_area
     (geom <$> gdf) cfg → dedup gdf cfg = Some gdf) ∧
  (strategy cfg ≠ "union" →
   ∀ out, dedup gdf cfg = Some out → sublist out gdf).
Proof.
  split; [|split].
  - intros Hlen. unfold _deduplicate_within_source. by rewrite decide_True.
  - intros Hno. apply dedup_no_groups. by apply overlap_groups_nil.
  - intros Hs out. unfold _deduplicate_within_source.
    case_decide; [by intros [= <-]|].
    destruct (overlap_groups _ _ _ _ _ _ cfg) as [|grp grps]; [by intros [= <-]|].
    destruct (mapM _ (grp :: grps)) as [resolved|] eqn:Hm; [|done]. simpl.
    assert (mjoin (snd <$> resolved) = []) as ->.
    { apply mapM_Some_1 in Hm. clear -Hm Hs.
      induction Hm as [|g res l k Hres _ IH]; [done|].
      rewrite fmap_cons.
      change (mjoin (res.2 :: (snd <$> k))) with (res.2 ++ mjoin (snd <$> k)).
      by rewrite IH, (resolve_group_no_union _ _ _ _ _ _ _ Hs Hres). }
    unfold drop_labels. case_decide; [|done]. simpl. intros [= <-].
    apply sublist_filter.
Qed.

Lemma shape_filtered_nil cfg ws :
  (∀ r, r ∈ ws → passes cfg r = false) → shapef cfg ws = [].
Proof.
  intros Hfail. destruct (shapef cfg ws) as [|r' l] eqn:Hs; [done|].
  assert (r' ∈ shapef cfg ws) as Hin by (rewrite Hs; by left).
  apply shape_filtered_elem in Hin as (r & Hr & Hpass & _).
  rewrite (Hfail r Hr) in Hpass. done.
Qed.

(** When rows survive the confidence and area filters but every one of them
    fails the shape filter, the cleaner returns an empty collection: the
    input comes back only when the first two filters leave nothing. *)
Theorem shape_filter_can_empty_the_collection features aoi cfg ws :
  wset cfg (prepared features aoi cfg) = Some ws → ws ≠ [] →
  (∀ r, r ∈ ws → passes cfg r = false) →
  clean_google features aoi cfg = Cleaned [] ∧
  clean features aoi cfg = [] ∧ features ≠ [].
Proof.
  intros Hw Hne Hfail.
  assert (table0 features ≠ []) as Ht.
  { intros H0. rewrite (prepared_nil py_float shapely_shape centroid to_crs buffer
              features aoi cfg H0) in Hw.
    destruct ws as [|r ws']; [done|].
    assert (r ∈ r :: ws') as Hr by by left.
    apply (working_set_Some py_float geom_area pi eroded_apart cfg _ _ Hw)
      in Hr as [Hr _].
    by apply elem_of_nil in Hr. }
  assert (clean_google features aoi cfg = Cleaned []) as Hclean.
  { unfold _clean_google. destruct (table0 features) as [|r0 t0]; [done|].
    rewrite Hw. destruct ws as [|r ws']; [done|].
    rewrite (shape_filtered_nil cfg (r :: ws') Hfail).
    unfold _deduplicate_within_source. rewrite decide_True by (simpl; lia).
    by destruct (simplify_tolerance_m cfg) as [tol|];
      [destruct (Qle_bool tol 0)|]. }
  split; [done|]. split.
  - unfold clean_google_buildings. by rewrite Hclean.
  - intros ->. by apply Ht.
Qed.



(** *** A feature without a confidence *)

(** What the prepared table holds in the [confidence] column: the cell the
    feature came with when the table has the column, the value read from the
    properties otherwise. *)
Lemma prepared_confidence features aoi cfg i :
  ∃ g : Row G → Row G,
    prepared features aoi cfg !! i = g <$> table0 features !! i ∧
    ∀ r0, cols (g r0) !! "confidence"
          = if has_column "confidence" (table0 features)
            then cols r0 !! "confidence"
            else Some (VFloat (_extract_confidence_from_props py_float r0)).
Proof.
  unfold prepared_table. set (t0 := table0 features).
  set (t1 := if has_column "confidence" t0 then t0 else _).
  set (t2 := if has_column "area_in_meters" t1 then t1 else _).
  set (t3 := map_geometry _ t2).
  assert (∃ g1, t1 !! i = g1 <$> t0 !! i ∧
     ∀ r0, cols (g1 r0) !! "confidence"
           = if has_column "confidence" t0 then cols r0 !! "confidence"
             else Some (VFloat (_extract_confidence_from_props py_float r0)))
    as (g1 & H1 & Hg1).
  { unfold t1. destruct (has_column "confidence" t0).
    - exists id. split; [by destruct (t0 !! i)|done].
    - eexists. split; [apply set_column_lookup|].
      intros r0. simpl. by rewrite lookup_insert_eq. }
  assert (∃ g2, t2 !! i = g2 <$> t1 !! i ∧
     ∀ r, cols (g2 r) !! "confidence" = cols r !! "confidence")
    as (g2 & H2 & Hg2).
  { unfold t2. destruct (has_column "area_in_meters" t1).
    - exists id. split; [by destruct (t1 !! i)|done].
    - eexists. split; [apply set_column_lookup|]. intros r. simpl.
      by rewrite lookup_insert_ne. }
  assert (∃ g3, (if make_valid cfg then map_geometry (λ g, buffer g 0) t3 else t3) !! i
                = g3 <$> t2 !! i ∧ ∀ r, cols (g3 r) = cols r)
    as (g3 & H3 & Hg3).
  { destruct (make_valid cfg).
    - eexists (λ r, {| label := label r; cols := cols r;
                       geom := buffer (to_crs _ (geom r)) 0 |}).
      split; [|done]. rewrite map_geometry_lookup. unfold t3.
      rewrite map_geometry_lookup. by destruct (t2 !! i).
    - eexists. split; [apply map_geometry_lookup|done]. }
  exists (λ r0, g3 (g2 (g1 r0))). split.
  - rewrite H3, H2, H1. by destruct (t0 !! i).
  - intros r0. by rewrite Hg3, Hg2, Hg1.
Qed.

(** A feature that has neither a [confidence] nor a [description] is read
    in two ways.  When no feature of the collection has a [confidence], the
    column is filled from the properties and the feature gets the default
    1.0.  When some other feature has one, the column exists, the feature's
    cell is missing and counts as 0.0, so any positive minimum confidence
    drops it. *)
Theorem missing_confidence_is_read_two_ways features aoi cfg i f r :
  records_of features !! i = Some f →
  properties f !! "confidence" = None →
  properties f !! "description" = None →
  prepared features aoi cfg !! i = Some r →
  ((∀ g, g ∈ records_of features → properties g !! "confidence" = None) →
   conf_cell r = Some 1%Q) ∧
  ((∃ g, g ∈ records_of features ∧ is_Some (properties g !! "confidence")) →
   conf_cell r = Some 0%Q).
Proof.
  intros Hf Hconf Hdesc Hr.
  assert (table0 features ≠ []) as Hne.
  { intros H0.
    by rewrite (prepared_nil py_float shapely_shape centroid to_crs buffer
                  features aoi cfg H0) in Hr. }
  destruct (table0_rows shapely_shape features _ eq_refl Hne) as [Hrec _].
  destruct (prepared_confidence features aoi cfg i) as (g & Hg & Hcell).
  rewrite Hr in Hg. destruct (table0 features !! i) as [r0|] eqn:Hr0; [|done].
  simpl in Hg. inversion Hg; subst r; clear Hg.
  destruct (Forall2_lookup_r _ _ _ _ _ Hrec Hr0) as (f' & Hf' & Hcols).
  rewrite Hf in Hf'. inversion Hf'; subst f'; clear Hf'.
  assert (cols r0 !! "confidence" = None) as Hc0
    by by rewrite Hcols, lookup_delete_ne.
  assert (cols r0 !! "description" = None) as Hd0
    by by rewrite Hcols, lookup_delete_ne.
  split.
  - intros Hall.
    assert (has_column "confidence" (table0 features) = false) as Hcol.
    { unfold has_column. apply bool_decide_eq_false. intros Hex.
      apply Exists_exists in Hex as (r1 & Hr1 & [v Hv]).
      apply list_elem_of_lookup_1 in Hr1 as [j Hj].
      destruct (Forall2_lookup_r _ _ _ _ _ Hrec Hj) as (g1 & Hg1 & Hcols1).
      rewrite Hcols1, lookup_delete_ne in Hv by done.
      rewrite (Hall g1) in Hv; [done|]. by eapply list_elem_of_lookup_2. }
    unfold confidence_cell. rewrite Hcell, Hcol. simpl. f_equal.
    unfold _extract_confidence_from_props, description_of.
    by rewrite Hc0, Hd0.
  - intros (g1 & Hg1 & Hsome).
    assert (has_column "confidence" (table0 features) = true) as Hcol.
    { apply list_elem_of_lookup_1 in Hg1 as [j Hj].
      destruct (Forall2_lookup_l _ _ _ _ _ Hrec Hj) as (r1 & Hr1 & Hcols1).
      apply (has_column_true _ _ r1); [by eapply list_elem_of_lookup_2|].
      by rewrite Hcols1, lookup_delete_ne. }
    unfold confidence_cell. by rewrite Hcell, Hcol, Hc0.
Qed.

End CleanerPipelineFacts.

Module ShapeSample.
Import Json BuildingsCleaner.

(** A disc of radius 5 m: eroded by [d] it is empty from [d = 5] upwards. *)
Definition disc_erodes (_ : unit) (d : Q) : option bool := Some (Qle_bool 5 d).

(** A sliver 100 m long and 1 m wide, of full confidence. *)
Definition sliver : Feature :=
  CleanerExample.building 1 (CleanerExample.rect 0 0 100 1).

End ShapeSample.

Lemma min_width_is_bracketed_witness :
  (2 * 5 - (5 # 32) <= BuildingsCleaner._min_width ShapeSample.disc_erodes ())%Q ∧
  (BuildingsCleaner._min_width ShapeSample.disc_erodes () < 2 * 5)%Q.
Proof.
  apply (min_width_is_bracketed ShapeSample.disc_erodes () 5).
  - reflexivity.
  - by vm_compute.
  - intros d _. reflexivity.
Defined.

Lemma shape_filter_can_empty_the_collection_witness :
  CleanerExample.clean_google [ShapeSample.sliver] = BuildingsCleaner.Cleaned [] ∧
  CleanerExample.clean [ShapeSample.sliver] = [] ∧
  [ShapeSample.sliver] ≠ [].
Proof.
  eapply (shape_filter_can_empty_the_collection CleanerExample.py_str
    CleanerExample.py_float CleanerExample.shape CleanerExample.mapping
    CleanerExample.centroid (λ _ g, g) (λ g _, g) (λ g _, g)
    CleanerExample.area CleanerExample.length (355 # 113) CleanerExample.sides
    CleanerExample.erodes_to_empty CleanerExample.tree_query
    CleanerExample.eroded_apart CleanerExample.inter_is_empty
    CleanerExample.inter_area CleanerExample.unary_union
    [ShapeSample.sliver] () BuildingsCleaner.default_config).
  - vm_compute. reflexivity.
  - discriminate.
  - intros r Hr. apply list_elem_of_singleton in Hr. subst r. by vm_compute.
Defined.


Module ConfidenceSample.
Import Json BuildingsCleaner.

(** A footprint that comes with no property at all. *)
Definition plain : Feature :=
  {| feature_id := None;
     feature_geometry := Some (CleanerExample.rect 20 0 30 10);
     properties := ∅ |}.

End ConfidenceSample.

Lemma missing_confidence_is_read_two_ways_witness :
  ∃ r,
    CleanerExample.prepared [ConfidenceSample.plain; CleanerExample.good] !! 0
    = Some r ∧
    BuildingsCleaner.confidence_cell CleanerExample.py_float r = Some 0%Q.
Proof.
  eexists. split; [by vm_compute|].
  refine (proj2 (missing_confidence_is_read_two_ways CleanerExample.py_float
    CleanerExample.shape CleanerExample.centroid (λ _ g, g) (λ g _, g)
    [ConfidenceSample.plain; CleanerExample.good] ()
    BuildingsCleaner.default_config 0 ConfidenceSample.plain _ _ _ _ _) _).
  - reflexivity.
  - reflexivity.
  - reflexivity.
  - by vm_compute.
  - exists CleanerExample.good. split; [|by eexists].
    unfold records_of. vm_compute. right. left.
Defined.

(** ** Projected zones, envelopes and estimates *)

Section GeometryFacts.
Import Schemas Geometry.
Open Scope Q_scope.

Lemma int_of_float_nonneg (x : Q) :
  0 <= x → int_of_float x = Qfloor x ∧ (0 ≤ Qfloor x)%Z ∧ inject_Z (Qfloor x) <= x.
Proof.
  intros Hx. unfold int_of_float.
  assert (Qle_bool 0 x = true) as -> by by apply Qle_bool_iff.
  split; [done|]. split; [exact (Qfloor_resp_le 0 x Hx)|apply Qfloor_le].
Qed.

Lemma int_of_float_nonpos (x : Q) : x <= 0 → (int_of_float x ≤ 0)%Z.
Proof.
  intros Hx. unfold int_of_float. destruct (Qle_bool 0 x) eqn:H0.
  - apply Qle_bool_iff in H0. exact (Qfloor_resp_le x 0 Hx).
  - assert (0 <= - x) as Hneg by lra.
    pose proof (Qfloor_resp_le 0 (- x) Hneg) as Hf.
    change (Qfloor 0) with 0%Z in Hf. lia.
Qed.


(** The fold takes each side of the box from the start or from a point. *)
Lemma bounds_fold_attained (ps : list point) (b : Q * Q * Q * Q) :
  let r := foldl bounds_step b ps in
  (r.1.1.1 = b.1.1.1 ∨ ∃ q, q ∈ ps ∧ q.1 = r.1.1.1) ∧
  (r.1.1.2 = b.1.1.2 ∨ ∃ q, q ∈ ps ∧ q.2 = r.1.1.2) ∧
  (r.1.2 = b.1.2 ∨ ∃ q, q ∈ ps ∧ q.1 = r.1.2) ∧
  (r.2 = b.2 ∨ ∃ q, q ∈ ps ∧ q.2 = r.2).
Proof.
  revert b. induction ps as [|p ps IH]; intros b; simpl; [by repeat split; left|].
  destruct (IH (bounds_step b p)) as (Hw & Hs & He & Hn).
  set (r := foldl bounds_step (bounds_step b p) ps) in *.
  assert (∀ x y, Qmin x y = x ∨ Qmin x y = y) as Hmin.
  { intros x y. unfold Qmin, GenericMinMax.gmin. destruct (x ?= y); tauto. }
  assert (∀ x y, Qmax x y = x ∨ Qmax x y = y) as Hmax.
  { intros x y. unfold Qmax, GenericMinMax.gmax. destruct (x ?= y); tauto. }
  unfold bounds_step in Hw, Hs, He, Hn. simpl in Hw, Hs, He, Hn.
  repeat split.
  - destruct Hw as [->|(q & ? & ?)]; [|right; exists q; split; [by right|done]].
    destruct (Hmin b.1.1.1 p.1) as [->| ->]; [by left|].
    right. exists p. split; [by left|done].
  - destruct Hs as [->|(q & ? & ?)]; [|right; exists q; split; [by right|done]].
    destruct (Hmin b.1.1.2 p.2) as [->| ->]; [by left|].
    right. exists p. split; [by left|done].
  - destruct He as [->|(q & ? & ?)]; [|right; exists q; split; [by right|done]].
    destruct (Hmax b.1.2 p.1) as [->| ->]; [by left|].
    right. exists p. split; [by left|done].
  - destruct Hn as [->|(q & ? & ?)]; [|right; exists q; split; [by right|done]].
    destruct (Hmax b.2 p.2) as [->| ->]; [by left|].
    right. exists p. split; [by left|done].
Qed.

(** The box of a ring for any buffer.  The envelope covers every vertex and
    each of its sides passes through one.  A buffer that is zero or negative
    gives the envelope itself, so the box never shrinks; a positive buffer
    moves every side outwards by [buffer_km / 111] degrees. *)
Theorem bounding_box_for_any_buffer (p : point) (ps : list point) (buffer_km : Q) :
  ∃ west south east north,
    bounds (p :: ps) = Some (west, south, east, north) ∧
    (∀ q, q ∈ p :: ps →
       west <= q.1 ∧ q.1 <= east ∧ south <= q.2 ∧ q.2 <= north) ∧
    (∃ q, q ∈ p :: ps ∧ q.1 = west) ∧ (∃ q, q ∈ p :: ps ∧ q.2 = south) ∧
    (∃ q, q ∈ p :: ps ∧ q.1 = east) ∧ (∃ q, q ∈ p :: ps ∧ q.2 = north) ∧
    create_bounding_box (p :: ps) buffer_km
    = Some (if Qlt_le_dec 0 buffer_km
            then (west - buffer_km / 111, south - buffer_km / 111,
                  east + buffer_km / 111, north + buffer_km / 111)
            else (west, south, east, north)).
Proof.
  destruct (bounds_covers p ps) as (west & south & east & north & Hb & Hcov).
  exists west, south, east, north. split; [done|]. split; [done|].
  pose proof (bounds_fold_attained ps (p.1, p.2, p.1, p.2)) as Hatt.
  unfold bounds in Hb.
  set (r := foldl bounds_step (p.1, p.2, p.1, p.2) ps) in *.
  assert (r = (west, south, east, north)) as Hr by by inversion Hb.
  rewrite Hr in Hatt. simpl in Hatt. destruct Hatt as (Hw & Hs & He & Hn).
  assert (∀ (proj : point → Q) side,
    (side = proj p ∨ ∃ q, q ∈ ps ∧ proj q = side) →
    ∃ q, q ∈ p :: ps ∧ proj q = side) as Hany.
  { intros proj side [->|(q & Hq & <-)].
    - exists p. split; [by left|done].
    - exists q. split; [by right|done]. }
  split; [by apply (Hany fst)|]. split; [by apply (Hany snd)|].
  split; [by apply (Hany fst)|]. split; [by apply (Hany snd)|].
  unfold create_bounding_box, bounds. fold r. rewrite Hr.
  by destruct (Qlt_le_dec 0 buffer_km).
Qed.

End GeometryFacts.

Section AOIEstimates.
Import Schemas Geometry AOIProcessor.
Open Scope Q_scope.

Lemma area_factor_bounds (area_km2 : Q) :
  3 # 10 <= area_factor area_km2 ∧
  (0 <= area_km2 → area_factor area_km2 <= 101 # 100).
Proof.
  unfold area_factor. split; [apply Q.le_max_l|].
  intros Ha. apply Q.max_lub; lra.
Qed.

Lemma density_is_positive s density :
  (s, density) ∈ density_estimates → 0 < density.
Proof.
  intros Hd. unfold density_estimates in Hd.
  repeat (apply elem_of_cons in Hd as [[= -> ->]|Hd]; [reflexivity|]).
  by apply elem_of_nil in Hd.
Qed.

Lemma estimated_count_entry (density area_km2 : Q) :
  0 < density →
  let n := Z.max 0 (int_of_float (density * area_km2 * area_factor area_km2)) in
  (0 ≤ n)%Z ∧
  (0 <= area_km2 → inject_Z n <= density * area_km2 * (101 # 100)) ∧
  (area_km2 <= 0 → n = 0%Z).
Proof.
  intros Hpos n. subst n. split; [lia|].
  destruct (area_factor_bounds area_km2) as [Hf0 Hf1].
  set (f := area_factor area_km2) in *. clearbody f. split.
  - intros Ha. specialize (Hf1 Ha).
    assert (0 <= density * area_km2) as Hda by (apply Qmult_le_0_compat; lra).
    set (da := density * area_km2) in *. clearbody da.
    assert (0 <= da * f) as Hprod by (apply Qmult_le_0_compat; lra).
    destruct (int_of_float_nonneg _ Hprod) as (-> & Hz & Hle).
    rewrite Z.max_r by done.
    eapply Qle_trans; [exact Hle|].
    apply Qmult_le_compat_nonneg; split; lra.
  - intros Ha.
    assert (0 <= density * (- area_km2)) as Hda by (apply Qmult_le_0_compat; lra).
    assert (0 <= density * (- area_km2) * f) as Hprod
      by (apply Qmult_le_0_compat; lra).
    assert (density * area_km2 * f <= 0) as Hneg.
    { assert (density * area_km2 * f == - (density * (- area_km2) * f)) as Heq
        by ring.
      rewrite Heq. lra. }
    pose proof (int_of_float_nonpos _ Hneg). lia.
Qed.


Lemma estimate_processing_time_bounds area_km2 estimated_features :
  5 <= _estimate_processing_time area_km2 estimated_features ∧
  _estimate_processing_time area_km2 estimated_features <= 300.
Proof.
  unfold _estimate_processing_time. split.
  - apply Q.min_glb; [apply Q.le_max_r|done].
  - apply Q.le_min_r.
Qed.

Section Validate.
Variable Polygon_raises : list point → bool.
Variable is_valid : list point → bool.
Variable utm_area_m2 : list point → option Q.
Variable _approximate_polygon_area_km2 : list point → Q.
Variable max_aoi_area_km2 : Q.

Abbreviation validated :=
  (validate_aoi Polygon_raises is_valid utm_area_m2 _approximate_polygon_area_km2
     max_aoi_area_km2).


End Validate.

End AOIEstimates.


(** ** The current download routes *)

Section DownloadFacts.
Import Schemas JobStorage DownloadRoute.
Context {Response D Bytes : Type}.
Variable of_dict : D → option Response.
Variable result_sources : Response → list DataSourceType.
Variable export_data : Response → string → option (list DataSourceType) → option Bytes.
Variable to_dict : Response → option D.
Implicit Types self : InMemoryJobStorage D.

Abbreviation download := (download_data of_dict result_sources export_data).
Abbreviation status_of := (get_job_status of_dict).

(** A job the store does not hold, or holds past its expiry instant, is
    answered with 404 whatever the format and the sources asked for, and the
    job is absent from the store afterwards; entries of other jobs are not
    touched. *)
Theorem download_of_a_missing_job self job_id format sources now :
  (_storage self !! job_id = None ∨
   ∃ e, _storage self !! job_id = Some e ∧ (now > expires_at e)%Z) →
  let served :=
    download_data of_dict result_sources export_data self job_id format sources
      now in
  served.2 = HTTP_error 404 ∧
  _storage served.1 !! job_id = None ∧
  (∀ other, other ≠ job_id →
     _storage served.1 !! other = _storage self !! other) ∧
  (get_job_status of_dict self job_id now).2 = HTTP_error 404.
Proof.
  intros Hmiss served. subst served.
  unfold download_data, get_job_status, get_job_result.
  destruct Hmiss as [Hnone|(e & He & Hexp)].
  - rewrite Hnone. simpl. done.
  - rewrite He. rewrite decide_True by done. simpl.
    split; [done|]. split; [apply lookup_delete_eq|]. split; [|done].
    intros other Hne. by rewrite lookup_delete_ne.
Qed.


(** Cleaning a job up always answers [cleaned], never [not_found], whether
    or not the store held the job; afterwards its status and its download
    are answered with 404 at every instant. *)
Theorem cleanup_job_always_cleaned self job_id format sources now :
  let cleaned := cleanup_job self job_id in
  cleaned.2 = HTTP_ok "cleaned" ∧
  (status_of cleaned.1 job_id now).2 = HTTP_error 404 ∧
  (download cleaned.1 job_id format sources now).2 = HTTP_error 404.
Proof.
  intros cleaned. subst cleaned. unfold cleanup_job. simpl.
  split; [done|].
  unfold get_job_status, download_data, get_job_result. simpl.
  by rewrite lookup_delete_eq.
Qed.

Abbreviation served_by := (serve of_dict result_sources export_data to_dict).
Abbreviation run_of := (run of_dict result_sources export_data to_dict).

Lemma serve_keeps_download_store_empty process request :
  _storage (download_v2_JOB_STORAGE process) = ∅ →
  _storage (download_v2_JOB_STORAGE (served_by process request).1) = ∅ ∧
  ∀ answer, (served_by process request).2 = answer →
    match answer with
    | Downloaded a => a = HTTP_error 404
    | JobStatus a => a = HTTP_error 404
    | _ => True
    end.
Proof.
  intros Hempty. destruct request as [job_id response t1 t2 t3
    |job_id format sources now|job_id now|job_id]; simpl.
  - split; [done|]. by intros ? <-.
  - unfold download_data, get_job_result. rewrite Hempty, lookup_empty. simpl.
    split; [done|]. by intros ? <-.
  - unfold get_job_status, get_job_result. rewrite Hempty, lookup_empty. simpl.
    split; [done|]. by intros ? <-.
  - rewrite Hempty. split; [apply delete_empty|]. by intros ? <-.
Qed.

(** The process as it is wired.  The extraction route stores its results in
    the store of its own module and the download routes read the store of
    theirs, which nothing writes to: after any run of requests that store
    is still empty, and every download and every status request of the run
    was answered with 404, also for the jobs the run itself extracted. *)
Theorem no_download_finds_a_job now_extract now_download requests :
  let done_ := run_of (started now_extract now_download) requests in
  _storage (download_v2_JOB_STORAGE done_.1) = ∅ ∧
  Forall (λ answer,
            match answer with
            | Downloaded a => a = HTTP_error 404
            | JobStatus a => a = HTTP_error 404
            | _ => True
            end) done_.2.
Proof.
  intros done_. subst done_.
  assert (_storage (download_v2_JOB_STORAGE
                      (started (D:=D) now_extract now_download)) = ∅) as Hstart
    by done.
  revert Hstart. generalize (started (D:=D) now_extract now_download).
  induction requests as [|request requests IH]; intros process Hempty.
  - simpl. split; [done|constructor].
  - cbn [run].
    destruct (serve_keeps_download_store_empty process request Hempty)
      as [Hnext Hanswer].
    destruct (served_by process request) as [process' answer] eqn:Hs.
    simpl in Hnext. destruct (IH process' Hnext) as [Hfinal Hall].
    destruct (run_of process' requests) as [final answers]. simpl in *.
    split; [done|]. constructor; [by apply Hanswer|done].
Qed.

End DownloadFacts.


(** The same job asked for after its hour. *)
Lemma download_of_a_missing_job_witness :
  let self' := (JobStorage.store_job_result (D:=nat) Some
                  (JobStorage.__init__ 0) "job-1" 7 3600 0 0 0).1 in
  (DownloadRoute.download_data Some (λ _, []) (λ r _ _, Some r)
     self' "job-1" Schemas.CSV None 3600000001).2
  = Schemas.HTTP_error 404.
Proof.
  intros self'.
  refine (proj1 (download_of_a_missing_job (Response:=nat) Some (λ _, [])
            (λ r _ _, Some r) self' "job-1" Schemas.CSV None 3600000001%Z _)).
  right. eexists. split; [by vm_compute|]. by vm_compute.
Defined.

(** ** The export service *)

Section ExportServiceFacts.
Import Schemas Json ExportService.

(** The features of the GeoJSON document.  Each comes from a feature of a
    target source that the results hold, with the same id and geometry; it
    names its source and the status of that source, has no [description],
    and keeps every other property as it was, a [Description] in another
    letter case included.  There is one for every feature of every entry of
    the target list, so a source that is listed twice is exported twice. *)
Theorem geojson_features_are_attributed (results : results_map)
    (sources : option (list DataSourceType)) :
  (∀ f, f ∈ combined_features results sources →
     ∃ s r g, s ∈ target_sources results sources ∧ results !! s = Some r ∧
       g ∈ Processing.data r ∧
       feature_id f = feature_id g ∧ feature_geometry f = feature_geometry g ∧
       properties f !! "atlas_source" = Some (VStr (CsvExport.source_value s)) ∧
       properties f !! "atlas_status"
         = Some (VStr (CsvExport.status_value (Processing.status r))) ∧
       properties f !! "description" = None ∧
       ∀ k, k ≠ "description" → k ≠ "atlas_source" → k ≠ "atlas_status" →
            properties f !! k = properties g !! k) ∧
  length (combined_features results sources)
  = sum_list ((λ s, match results !! s with
                    | Some r => length (Processing.data r)
                    | None => 0
                    end) <$> target_sources results sources).
Proof.
  unfold combined_features. split.
  - intros f Hf. apply list_elem_of_bind in Hf as (s & Hf & Hs).
    destruct (results !! s) as [r|] eqn:Hr; [|by apply elem_of_nil in Hf].
    apply list_elem_of_fmap in Hf as (g & -> & Hg).
    exists s, r, g. simpl. repeat split; try done.
    + by rewrite lookup_insert_ne, lookup_insert_eq.
    + by rewrite lookup_insert_eq.
    + by rewrite !lookup_insert_ne, lookup_delete_eq.
    + intros k H1 H2 H3. by rewrite !lookup_insert_ne, lookup_delete_ne.
  - induction (target_sources results sources) as [|s l IH]; [done|].
    rewrite bind_cons, length_app, IH, fmap_cons. simpl.
    destruct (results !! s); [by rewrite length_fmap|done].
Qed.

Section Names.
Variable py_str : value → string.

(** In a KML export a building keeps the empty name the property processor
    gave it: for every feature of a building source that has gone through
    the processor, the placemark name is the empty string, never the
    generic name made of the source and the index. *)
Theorem processed_building_has_empty_name feature source_type index :
  py_str (VStr "") = "" →
  BuildingProcessor.is_building_source source_type = true →
  _get_meaningful_name py_str
    (properties (BuildingProcessor.process_building_feature py_str feature
                   source_type))
    source_type index = "".
Proof.
  intros Hstr Hb. unfold BuildingProcessor.process_building_feature.
  rewrite Hb. simpl.
  assert (BuildingProcessor._create_clean_building_properties py_str
            (properties feature) source_type !! "Name" = Some (VStr "")) as Hname.
  { rewrite clean_properties_lookup by done. rewrite decide_False; [done|].
    unfold BuildingProcessor.essential_building_properties.
    rewrite !elem_of_cons, elem_of_nil. naive_solver. }
  unfold _get_meaningful_name. rewrite Hb, Hname, Hstr.
  rewrite decide_False; [done|].
  intros Hempty. by rewrite Hempty in Hname.
Qed.

End Names.

End ExportServiceFacts.

Lemma processed_building_has_empty_name_witness :
  ExportService._get_meaningful_name BuildingSample.no_str
    (Json.properties
       (BuildingProcessor.process_building_feature BuildingSample.no_str
          BuildingSample.footprint Schemas.OSM_BUILDINGS))
    Schemas.OSM_BUILDINGS 3 = "".
Proof.
  exact (processed_building_has_empty_name BuildingSample.no_str
           BuildingSample.footprint Schemas.OSM_BUILDINGS 3 eq_refl eq_refl).
Defined.

(** ** Counts in the extraction answer *)

Section CountFacts.
Import Schemas Processing.
Context {Feature Polygon AOI CleaningConfig : Type}.
Variable extract_raw_features :
  DataSourceType → SourceConfig → Polygon → Z → string + list Feature.
Variable elapsed : DataSourceType → Q.
Variable _validate_aoi : Polygon → bool.
Variable geojson_to_shapely_polygon : AOI → option Polygon.
Variable BuildingsCleaner_clean :
  option CleaningConfig → DataSourceType → list Feature → Polygon → list Feature.
Variable clean_osm_roads : list Feature → Polygon → list Feature.
Variable fc_truthy : list Feature → bool.
Variable _export_data_immediately :
  RawDataResponse Feature → ExportFormat → option string.

(** The count an entry reports is the number of features it carries. *)
Definition counted (r : DataSourceResult Feature) : Prop :=
  count (stats r) = length (data r).

Lemma imap_counted
    (g : DataSourceType → DataSourceResult Feature → DataSourceResult Feature)
    (results : gmap DataSourceType (DataSourceResult Feature)) :
  (∀ s r, counted r → counted (g s r)) →
  map_Forall (λ _ r, counted r) results →
  map_Forall (λ _ r, counted r) (map_imap (λ s r, Some (g s r)) results).
Proof.
  intros Hg Hall s r Hr. rewrite map_lookup_imap in Hr.
  destruct (results !! s) as [r0|] eqn:Hr0; [|done].
  simpl in Hr. inversion Hr; subst r. apply Hg. by apply (Hall s).
Qed.

(** In an answer of the extraction route every entry reports as its count
    the number of features it carries, whether the source failed, was
    extracted only, or was cleaned or clipped afterwards; hence the total the
    answer reports is the number of features in it. *)
Theorem counts_match_features request resp :
  extract_raw_data extract_raw_features elapsed _validate_aoi
    geojson_to_shapely_polygon BuildingsCleaner_clean clean_osm_roads fc_truthy
    _export_data_immediately request = HTTP_ok resp →
  (∀ s r, results resp !! s = Some r → count (stats r) = length (data r)) ∧
  total_features resp
  = sum_list_with (λ p, length (data p.2)) (map_to_list (results resp)).
Proof.
  unfold extract_raw_data. intros H.
  destruct (geojson_to_shapely_polygon _) as [aoi|]; [|done].
  unfold process_extraction_request in H.
  destruct (_validate_aoi aoi); simpl in H; [|done].
  case_decide as Hemp; [done|].
  set (r0 := _process_sources_concurrently _ _ aoi _) in *.
  set (r1 := if clean request then _ else r0) in *.
  set (r2 := if clean_roads request then _ else r1) in *.
  assert (map_Forall (λ _ r, counted r) r0) as H0.
  { intros s r Hr. unfold r0, _process_sources_concurrently in Hr.
    rewrite gather_results_lookup in Hr.
    destruct (_ !! s) as [c|]; [|done]. simpl in Hr. inversion Hr; subst r.
    unfold gathered, _process_single_source.
    unfold counted. by destruct (extract_raw_features s c aoi (cfg_timeout c)). }
  assert (map_Forall (λ _ r, counted r) r1) as H1.
  { unfold r1. destruct (clean request); [|done].
    apply (imap_counted (λ source_type result,
      if fc_truthy (data result) && is_building_source source_type
      then set_data result
             (BuildingsCleaner_clean (cleaning_config request) source_type
                (data result) aoi)
      else result)); [|done].
    intros s r Hr. unfold counted. destruct (_ && _); [reflexivity|exact Hr]. }
  assert (map_Forall (λ _ r, counted r) r2) as H2.
  { unfold r2. destruct (clean_roads request); [|done].
    apply (imap_counted (λ source_type result,
      if bool_decide (source_type = OSM_ROADS) && fc_truthy (data result)
      then set_data result (clean_osm_roads (data result) aoi)
      else result)); [|done].
    intros s r Hr. unfold counted. destruct (_ && _); [reflexivity|exact Hr]. }
  assert (sum_counts r2
          = sum_list_with (λ p, length (data p.2)) (map_to_list r2)) as Hsum.
  { unfold sum_counts.
    assert (Forall (λ p : DataSourceType * DataSourceResult Feature, counted p.2)
              (map_to_list r2)) as Hall.
    { apply Forall_forall. intros [s r] Hin.
      apply elem_of_map_to_list in Hin. by apply (H2 s). }
    induction Hall as [|p l Hp _ IH]; [done|]. simpl. by rewrite Hp, IH. }
  destruct (export_format request) as [fmt|].
  - destruct (_export_data_immediately _ fmt); [|done].
    inversion H; subst; simpl. split; [exact H2|done].
  - inversion H; subst; simpl. split; [exact H2|done].
Qed.

End CountFacts.

Lemma counts_match_features_witness :
  Processing.total_features C1Example.resp0
  = sum_list_with (λ p, length (Processing.data p.2))
      (map_to_list (Processing.results C1Example.resp0)).
Proof.
  refine (proj2 (counts_match_features C1Example.connector0 (λ _, 1%Q)
    (λ _ : unit, true) (λ _ : unit, Some ()) (λ (_ : option unit) _ fc _, fc)
    (λ fc _, fc) (λ _, true) (λ _ _, None)
    C1Example.request0 C1Example.resp0 _)).
  vm_compute. reflexivity.
Defined.
